(** * OmniEvent: format conversion and sequence-to-sequence pre-processing

    A shallow embedding of

    - [OpenEE/evaluation/convert_format.py]
      ([get_ace2005_trigger_detection_sl], [get_ace2005_argument_extraction_sl])
    - [OpenEE/input_engineering/seq2seq_processor.py]
      ([extract_argument], [EAESeq2SeqProcessor.read_examples])

    Python strings are sequences of code points, exceptions are an error
    monad, the loop counters of the source are an explicit state record. *)

From Stdlib Require Import String Ascii.
From Stdlib Require Import List Bool Arith ZArith NArith Lia Sorted.
Import ListNotations.

Set Implicit Arguments.

(** ** Exceptions and the error monad *)

Inductive exn : Type :=
| AssertionError
| IndexError
| KeyError
| NotImplementedError
| TypeError
| UnboundLocalError
| ValueError.

Inductive result (A : Type) : Type :=
| Ok (a : A)
| Err (e : exn).

Arguments Ok {A} a.
Arguments Err {A} e.

Definition bind {A B} (m : result A) (k : A -> result B) : result B :=
  match m with
  | Ok a => k a
  | Err e => Err e
  end.

Declare Scope py_scope.
Delimit Scope py_scope with py.
Notation "x <- m ;; k" := (bind m (fun x => k))
  (at level 61, m at next level, right associativity) : py_scope.
Notation "m ;;; k" := (bind m (fun _ => k))
  (at level 61, right associativity) : py_scope.
Open Scope py_scope.

(** [assert c] *)
Definition py_assert (c : bool) : result unit :=
  if c then Ok tt else Err AssertionError.

(** [l[i]] for a non-negative index *)
Definition index {A} (l : list A) (i : nat) : result A :=
  match nth_error l i with
  | Some a => Ok a
  | None => Err IndexError
  end.

(** [d[k]] for a key of a JSON object that may be absent *)
Definition getitem {A} (field : option A) : result A :=
  match field with
  | Some a => Ok a
  | None => Err KeyError
  end.

(** [for x in xs: body], the loop state threaded through, an exception
    leaving the loop *)
Fixpoint for_each {A S} (body : A -> S -> result S) (xs : list A) (st : S)
  : result S :=
  match xs with
  | [] => Ok st
  | x :: xs' => st' <- body x st ;; for_each body xs' st'
  end.

(** ** Python strings *)

Definition char := N.
Definition pystr := list char.

(** A literal of the source, as code points *)
Definition str (s : string) : pystr :=
  map N_of_ascii (list_ascii_of_string s).

Definition pystr_eqb (a b : pystr) : bool :=
  if list_eq_dec N.eq_dec a b then true else false.

(** [x in l] for a list of strings *)
Definition str_in (x : pystr) (l : list pystr) : bool :=
  existsb (pystr_eqb x) l.

(** [str.isspace] of one code point: the characters [str.split()] and
    [str.strip()] treat as whitespace *)
Definition py_isspace (c : char) : bool :=
  ((9 <=? c) && (c <=? 13) || (28 <=? c) && (c <=? 32)
   || (c =? 133) || (c =? 160) || (c =? 5760)
   || (8192 <=? c) && (c <=? 8202)
   || (c =? 8232) || (c =? 8233) || (c =? 8239) || (c =? 8287)
   || (c =? 12288))%N.

Definition emit (cur : pystr) : list pystr :=
  match cur with
  | [] => []
  | _ :: _ => [rev cur]
  end.

(** [s.split()]: the maximal runs of non-whitespace characters, in order;
    [cur] is the word being scanned, last character first *)
Fixpoint split_from (cur : pystr) (s : pystr) : list pystr :=
  match s with
  | [] => emit cur
  | c :: s' =>
      if py_isspace c then emit cur ++ split_from [] s'
      else split_from (c :: cur) s'
  end.

Definition py_split (s : pystr) : list pystr := split_from [] s.

(** ["".join(l)] *)
Definition py_join (l : list pystr) : pystr := concat l.

(** Python's slice bounds: a negative bound counts from the end, and both
    are clamped to the string *)
Definition slice_bound (len : nat) (i : Z) : nat :=
  if (i <? 0)%Z then Z.to_nat (Z.max 0 (i + Z.of_nat len))
  else Nat.min (Z.to_nat i) len.

(** [s[lo:hi]] *)
Definition py_slice {A} (s : list A) (lo hi : Z) : list A :=
  let l := slice_bound (length s) lo in
  let h := slice_bound (length s) hi in
  firstn (h - l) (skipn l s).

(** [s[:hi]] *)
Definition py_slice_to {A} (s : list A) (hi : Z) : list A :=
  firstn (slice_bound (length s) hi) s.

(** [s.strip()] *)
Fixpoint lstrip (s : pystr) : pystr :=
  match s with
  | [] => []
  | c :: s' => if py_isspace c then lstrip s' else s
  end.

Definition rstrip (s : pystr) : pystr := rev (lstrip (rev s)).

Definition py_strip (s : pystr) : pystr := rstrip (lstrip s).

(** [s.replace(" ", "")] *)
Definition remove_spaces (s : pystr) : pystr :=
  filter (fun c => negb (c =? 32)%N) s.

(** [s.split(sep)] for a one-character separator and [re.split] for an
    alternation of single characters: the pieces between the delimiters,
    empty pieces kept *)
Fixpoint split_on (is_delim : char -> bool) (s : pystr) : list pystr :=
  match s with
  | [] => [[]]
  | c :: s' =>
      if is_delim c then [] :: split_on is_delim s'
      else match split_on is_delim s' with
           | [] => [[c]]
           | w :: ws => (c :: w) :: ws
           end
  end.

(** [list(set(l))]: the distinct elements; Python leaves their order
    unspecified, the model keeps one representative of each *)
Definition list_set {A} (eq_dec : forall x y : A, {x = y} + {x <> y})
  (l : list A) : list A := nodup eq_dec l.

(** [l.remove(x)]: drops the first occurrence, [ValueError] when absent *)
Fixpoint list_remove (x : pystr) (l : list pystr) : result (list pystr) :=
  match l with
  | [] => Err ValueError
  | y :: l' =>
      if pystr_eqb y x then Ok l'
      else (r <- list_remove x l' ;; Ok (y :: r))
  end.

(** ** The annotation format *)

Record Mention := {
  mention_id : pystr;
  mention : pystr;
  position : Z * Z
}.

Record Argument := {
  role : pystr;
  mentions : list Mention
}.

Record Trigger := {
  trigger_word : pystr;
  trigger_position : Z * Z;
  arguments : list Argument
}.

Record Event := {
  type : pystr;
  triggers : list Trigger
}.

Record Entity := {
  entity_mentions : list Mention
}.

(** One line of the data file. A field that is [None] is a key the JSON
    object does not have. *)
Record Document := {
  text : pystr;
  events : option (list Event);
  negative_triggers : option (list Mention);
  entities : option (list Entity);
  candidates : option (list Mention);
  source : option pystr
}.

(** What the converters put in their [candidates] list: the dictionaries of
    triggers and of mentions; only ["position"] is read from them *)
Inductive Candidate : Type :=
| CTrigger (t : Trigger)
| CMention (m : Mention).

Definition candidate_position (c : Candidate) : Z * Z :=
  match c with
  | CTrigger t => trigger_position t
  | CMention m => position m
  end.

Definition NA : pystr := str "NA".
Definition English : pystr := str "English".
Definition Chinese : pystr := str "Chinese".
Definition mode_default : pystr := str "default".
Definition mode_loose : pystr := str "loose".
Definition mode_strict : pystr := str "strict".

(** ** Offset mapping (convert_format.py, lines 52-57 and 74-82) *)

(** The word count the prediction row is asserted against:
    [len(item["text"].split())], [len("".join(item["text"].split()))] *)
Definition text_length (language : pystr) (txt : pystr) : result nat :=
  if pystr_eqb language English then Ok (length (py_split txt))
  else if pystr_eqb language Chinese then Ok (length (py_join (py_split txt)))
  else Err NotImplementedError.

(** [word_pos_start], [word_pos_end] of a candidate *)
Definition to_word_span (language : pystr) (txt : pystr) (char_pos : Z * Z)
  : result (nat * nat) :=
  if pystr_eqb language English then
    let word_pos_start := length (py_split (py_slice_to txt (fst char_pos))) in
    let word_pos_end :=
      word_pos_start
      + length (py_split (py_slice txt (fst char_pos) (snd char_pos))) in
    Ok (word_pos_start, word_pos_end)
  else if pystr_eqb language Chinese then
    let word_pos_start :=
      length (py_join (py_split (py_slice_to txt (fst char_pos)))) in
    let word_pos_end :=
      length (py_join (py_split (py_slice_to txt (snd char_pos)))) in
    Ok (word_pos_start, word_pos_end)
  else Err NotImplementedError.

(** [set(range(lo, hi))] and [s.isdisjoint(t)] *)
Definition py_range (lo hi : Z) : list Z :=
  map (fun k => (lo + Z.of_nat k)%Z) (seq 0 (Z.to_nat (hi - lo))).

Definition isdisjoint (s t : list Z) : bool :=
  forallb (fun x => negb (existsb (Z.eqb x) t)) s.

(** ** The sequence-labeling converters (convert_format.py) *)

Section Converters.

(** [get_pred_per_mention] of [dump_result.py] and [f1_score] of
    scikit-learn are not part of the two files: the converters are
    parameterised by them. [pred_row] is one row of the per-word
    predictions that [select_start_position] returns. *)
Variable id2label : Type.
Definition pred_row := list Z.
Variable get_pred_per_mention :
  nat -> nat -> pred_row -> id2label -> result pystr.
Variable score : Type.
Variable f1_score : list pystr -> list pystr -> list pystr -> result score.
Variable percent : score -> score.

(** [data_args]; [event_preds] is the content of [test_pred_file], [None]
    when the file is not given or does not exist *)
Record DataArgs := {
  language : pystr;
  eae_eval_mode : pystr;
  golden_trigger : bool;
  event_preds : option (list pystr);
  id2type : id2label;
  id2role : id2label
}.

Variable data_args : DataArgs.
Variable preds : list pred_row.
Variable is_overflow : list bool.

(** [if not is_overflow[idx]: assert len(preds[idx]) == ...] *)
Definition check_row (idx : nat) (txt : pystr) : result unit :=
  ov <- index is_overflow idx ;;
  if negb ov then
    n <- text_length (language data_args) txt ;;
    row <- index preds idx ;;
    py_assert (length row =? n)
  else Ok tt.

(** The body of [for candidate in candidates] *)
Definition convert_candidate (id2 : id2label) (idx : nat) (txt : pystr)
  (candidate : Candidate) (results : list pystr) : result (list pystr) :=
  span <- to_word_span (language data_args) txt (candidate_position candidate) ;;
  row <- index preds idx ;;
  pred <- get_pred_per_mention (fst span) (snd span) row id2 ;;
  Ok (results ++ [pred]).

Definition convert_candidates (id2 : id2label) (idx : nat) (txt : pystr)
  (cands : list Candidate) (results : list pystr) : result (list pystr) :=
  for_each (convert_candidate id2 idx txt) cands results.

(** *** Event detection *)

(** [item] is the loop variable of the pass, unbound before the first
    line *)
Record td_state := {
  td_results : list pystr;
  td_label_names : list pystr;
  td_item : option Document
}.

Definition td_init : td_state :=
  {| td_results := []; td_label_names := []; td_item := None |}.

(** Lines 59-69: the candidates of one line and the labels they add *)
Definition td_candidates (item : Document)
  : result (list Candidate * list pystr) :=
  match events item with
  | Some evs =>
      let pos :=
        flat_map (fun event =>
                    map (fun trigger => (type event, CTrigger trigger))
                        (triggers event)) evs in
      negs <- getitem (negative_triggers item) ;;
      Ok (map snd pos ++ map CMention negs,
          map fst pos ++ map (fun _ => NA) negs)
  | None =>
      cands <- getitem (candidates item) ;;
      Ok (map CMention cands, [])
  end.

Definition td_line (line : nat * Document) (st : td_state) : result td_state :=
  let (i, item) := line in
  check_row i (text item) ;;;
  cl <- td_candidates item ;;
  results <- convert_candidates (id2type data_args) i (text item) (fst cl)
               (td_results st) ;;
  Ok {| td_results := results;
        td_label_names := td_label_names st ++ snd cl;
        td_item := Some item |}.

Definition enumerate {A} (l : list A) : list (nat * A) :=
  combine (seq 0 (length l)) l.

Definition td_pass (lines : list Document) : result td_state :=
  for_each td_line (enumerate lines) td_init.

(** Lines 89-91 and 269-271 *)
Definition micro_f1_of (label_names results : list pystr) : result score :=
  pos_labels <- list_remove NA (list_set (list_eq_dec N.eq_dec) label_names) ;;
  f <- f1_score label_names results pos_labels ;;
  Ok (percent f).

(** What the function returns, and the score it prints when it scores *)
Record td_output := {
  td_out_results : list pystr;
  td_out_micro_f1 : option score
}.

Definition get_ace2005_trigger_detection_sl (lines : list Document)
  : result td_output :=
  st <- td_pass lines ;;
  match td_item st with
  | None => Err UnboundLocalError
  | Some item =>
      match events item with
      | Some _ =>
          micro_f1 <- micro_f1_of (td_label_names st) (td_results st) ;;
          Ok {| td_out_results := td_results st;
                td_out_micro_f1 := Some micro_f1 |}
      | None =>
          Ok {| td_out_results := td_results st; td_out_micro_f1 := None |}
      end
  end.

(** *** Event argument extraction *)

Record ae_state := {
  trigger_idx : nat;
  eae_instance_idx : nat;
  ae_results : list pystr;
  ae_label_names : list pystr
}.

Definition ae_init : ae_state :=
  {| trigger_idx := 0; eae_instance_idx := 0;
     ae_results := []; ae_label_names := [] |}.

(** Lines 148-151 and 226-229 *)
Definition resolve_type (idx : nat) (true_type : pystr) : result pystr :=
  if golden_trigger data_args then Ok true_type
  else match event_preds data_args with
       | None => Ok true_type
       | Some ep => index ep idx
       end.

(** Lines 167-175: the mentions of the trigger's arguments with their role *)
Definition positive_candidates (trigger : Trigger) : list (pystr * Mention) :=
  flat_map (fun argument =>
              map (fun m => (role argument, m)) (mentions argument))
           (arguments trigger).

(** Lines 180-186 *)
Definition entity_is_argument (positive_mentions : list pystr)
  (entity : Entity) : bool :=
  existsb (fun m => str_in (mention_id m) positive_mentions)
          (entity_mentions entity).

(** Lines 193-201 *)
Definition overlaps_argument (positive_offsets : list (Z * Z)) (neg : Mention)
  : bool :=
  let neg_set := py_range (fst (position neg)) (snd (position neg)) in
  existsb (fun pos_offset =>
             negb (isdisjoint (py_range (fst pos_offset) (snd pos_offset))
                              neg_set))
          positive_offsets.

(** Lines 177-203 *)
Definition negative_candidates (item : Document)
  (positive_mentions : list pystr) (positive_offsets : list (Z * Z))
  : result (list Mention) :=
  match entities item with
  | Some ents =>
      Ok (flat_map (fun entity =>
                      if entity_is_argument positive_mentions entity then []
                      else entity_mentions entity) ents)
  | None =>
      negs <- getitem (negative_triggers item) ;;
      Ok (filter (fun neg => negb (overlaps_argument positive_offsets neg))
                 negs)
  end.

(** Lines 159-221: the instance of a trigger that passed the gate *)
Definition ae_positive_instance (item : Document) (trigger : Trigger)
  (st : ae_state) : result ae_state :=
  check_row (eae_instance_idx st) (text item) ;;;
  let pos := positive_candidates trigger in
  let positive_mentions := map (fun p => mention_id (snd p)) pos in
  let positive_offsets := map (fun p => position (snd p)) pos in
  negs <- negative_candidates item positive_mentions positive_offsets ;;
  results <- convert_candidates (id2role data_args) (eae_instance_idx st)
               (text item) (map CMention (map snd pos ++ negs))
               (ae_results st) ;;
  Ok {| trigger_idx := trigger_idx st;
        eae_instance_idx := eae_instance_idx st + 1;
        ae_results := results;
        ae_label_names :=
          ae_label_names st ++ map fst pos ++ map (fun _ => NA) negs |}.

Definition next_trigger (st : ae_state) : ae_state :=
  {| trigger_idx := trigger_idx st + 1;
     eae_instance_idx := eae_instance_idx st;
     ae_results := ae_results st;
     ae_label_names := ae_label_names st |}.

(** Lines 146-221: the body of [for trigger in event["triggers"]] *)
Definition ae_positive_trigger (item : Document) (event : Event)
  (trigger : Trigger) (st : ae_state) : result ae_state :=
  let true_type := type event in
  pred_type <- resolve_type (trigger_idx st) true_type ;;
  let st := next_trigger st in
  if str_in (eae_eval_mode data_args) [mode_default; mode_loose]
     && pystr_eqb pred_type NA
  then Ok st
  else ae_positive_instance item trigger st.

(** Lines 234-265 *)
Definition ae_negative_instance (item : Document) (st : ae_state)
  : result ae_state :=
  check_row (eae_instance_idx st) (text item) ;;;
  negs <- getitem (negative_triggers item) ;;
  results <- convert_candidates (id2role data_args) (eae_instance_idx st)
               (text item) (map CMention negs) (ae_results st) ;;
  Ok {| trigger_idx := trigger_idx st;
        eae_instance_idx := eae_instance_idx st + 1;
        ae_results := results;
        ae_label_names := ae_label_names st ++ map (fun _ => NA) negs |}.

(** Lines 224-265: the body of [for trigger in item["negative_triggers"]] *)
Definition ae_negative_trigger (item : Document) (trigger : Mention)
  (st : ae_state) : result ae_state :=
  let true_type := NA in
  pred_type <- resolve_type (trigger_idx st) true_type ;;
  let st := next_trigger st in
  if str_in (eae_eval_mode data_args) [mode_default; mode_strict] then
    if negb (pystr_eqb pred_type NA) then ae_negative_instance item st
    else Ok st
  else Ok st.

Definition ae_event (item : Document) (event : Event) (st : ae_state)
  : result ae_state :=
  for_each (ae_positive_trigger item event) (triggers event) st.

(** Lines 143-265: the body of [for line in lines] *)
Definition ae_line (item : Document) (st : ae_state) : result ae_state :=
  evs <- getitem (events item) ;;
  st <- for_each (ae_event item) evs st ;;
  negs <- getitem (negative_triggers item) ;;
  for_each (ae_negative_trigger item) negs st.

Definition ae_pass (lines : list Document) : result ae_state :=
  for_each ae_line lines ae_init.

(** The returned list, with the score and the instance count the function
    prints *)
Record ae_output := {
  ae_out_results : list pystr;
  ae_out_micro_f1 : score;
  ae_out_instances : nat
}.

Definition get_ace2005_argument_extraction_sl (lines : list Document)
  : result ae_output :=
  st <- ae_pass lines ;;
  py_assert (length preds =? eae_instance_idx st) ;;;
  micro_f1 <- micro_f1_of (ae_label_names st) (ae_results st) ;;
  Ok {| ae_out_results := ae_results st;
        ae_out_micro_f1 := micro_f1;
        ae_out_instances := eae_instance_idx st |}.

End Converters.

(** ** The sequence-to-sequence processor (seq2seq_processor.py) *)

Definition type_start : pystr := str "<".
Definition type_end : pystr := str ">".
Definition split_word : pystr := str ":".

(** The compiled pattern [type_start|type_end] matches this character *)
Definition template_delim (c : char) : bool :=
  pystr_eqb [c] type_start || pystr_eqb [c] type_end.

Definition split_word_delim (c : char) : bool := pystr_eqb [c] split_word.

Definition is_empty (s : pystr) : bool :=
  match s with
  | [] => true
  | _ :: _ => false
  end.

(** An element of the list [extract_argument] returns:
    [(instance_id, event_type, role, value)] *)
Definition argument_tuple : Type := Z * pystr * pystr * pystr.

Definition argument_tuple_eq_dec (x y : argument_tuple) : {x = y} + {x <> y}.
Proof.
  repeat decide equality; try apply N.eq_dec.
Defined.

(** Lines 26-35: what one span of the split text adds to [arguments] *)
Definition extract_span (instance_id : Z) (event_type : pystr) (span : pystr)
  : list argument_tuple :=
  if is_empty (py_strip span) then []
  else
    match split_on split_word_delim (py_strip span) with
    | [w0; w1] =>
        let role := remove_spaces (py_strip w0) in
        let value := remove_spaces (py_strip w1) in
        if negb (is_empty role) && negb (is_empty value)
        then [(instance_id, event_type, role, value)]
        else []
    | _ => []
    end.

Definition extract_argument (raw_text : pystr) (instance_id : Z)
  (event_type : pystr) : list argument_tuple :=
  list_set argument_tuple_eq_dec
    (flat_map (extract_span instance_id event_type)
              (split_on template_delim raw_text)).

(** Line 165: the template of one argument mention *)
Definition mention_label (whitespace : pystr) (r : pystr) (value : pystr)
  : pystr :=
  type_start ++ whitespace ++ r ++ split_word ++ whitespace ++ value
    ++ whitespace ++ type_end.

(** Lines 158-169: the [labels] string of a trigger *)
Definition trigger_labels (whitespace : pystr) (trigger : Trigger) : pystr :=
  py_join
    (flat_map (fun argument =>
                 map (fun m => mention_label whitespace (role argument)
                                             (mention m))
                     (mentions argument))
              (arguments trigger)).

(** [arguments_per_trigger[role].append(value)] on a [defaultdict(list)],
    keys in insertion order *)
Fixpoint dict_append (k v : pystr) (d : list (pystr * list pystr))
  : list (pystr * list pystr) :=
  match d with
  | [] => [(k, [v])]
  | (k', vs) :: d' =>
      if pystr_eqb k' k then (k', vs ++ [v]) :: d'
      else (k', vs) :: dict_append k v d'
  end.

Definition arguments_per_trigger (trigger : Trigger)
  : list (pystr * list pystr) :=
  fold_left (fun d p => dict_append (fst p) (snd p) d)
    (flat_map (fun argument =>
                 map (fun m => (role argument, mention m)) (mentions argument))
              (arguments trigger))
    [].

Record EAEInputExample := {
  example_id : nat;
  example_text : list pystr;
  pred_type : pystr;
  true_type : pystr;
  trigger_left : Z;
  trigger_right : Z;
  labels : pystr;
  kwargs_source : list pystr
}.

Section Seq2Seq.

(** [get_words] of [input_utils.py] is not part of the two files *)
Variable get_words : pystr -> pystr -> result (list pystr).

(** The processor's fields and the configuration entries the method reads *)
Variable is_training : bool.
Variable config_golden_trigger : bool.
Variable config_eae_eval_mode : pystr.
Variable self_event_preds : option (list pystr).
(** [language = self.config.language], read once before the loop *)
Variable language0 : pystr.

(** [loop_event] is the variable [event] of the method: unbound until the
    first iteration of [for event in item["events"]], and bound to the
    last event iterated from then on *)
Record s2s_state := {
  s2s_trigger_idx : nat;
  examples : list EAEInputExample;
  golden_arguments : list (list (pystr * list pystr));
  config_language : pystr;
  loop_event : option Event
}.

Definition s2s_init : s2s_state :=
  {| s2s_trigger_idx := 0; examples := []; golden_arguments := [];
     config_language := language0; loop_event := None |}.

(** Lines 147-150 and 184-187: both read the variable [event] *)
Definition s2s_resolve (st : s2s_state) : result pystr :=
  match self_event_preds with
  | Some ep =>
      if is_training || config_golden_trigger then
        match loop_event st with
        | Some event => Ok (type event)
        | None => Err UnboundLocalError
        end
      else index ep (s2s_trigger_idx st)
  | None =>
      match loop_event st with
      | Some event => Ok (type event)
      | None => Err UnboundLocalError
      end
  end.

Definition s2s_next_trigger (st : s2s_state) : s2s_state :=
  {| s2s_trigger_idx := s2s_trigger_idx st + 1;
     examples := examples st;
     golden_arguments := golden_arguments st;
     config_language := config_language st;
     loop_event := loop_event st |}.

Definition s2s_add (ex : EAEInputExample) (gold : list (pystr * list pystr))
  (st : s2s_state) : s2s_state :=
  {| s2s_trigger_idx := s2s_trigger_idx st;
     examples := examples st ++ [ex];
     golden_arguments := golden_arguments st ++ [gold];
     config_language := config_language st;
     loop_event := loop_event st |}.

(** Lines 146-181 *)
Definition s2s_positive_trigger (words : list pystr) (whitespace : pystr)
  (kwargs : list pystr) (event : Event) (trigger : Trigger) (st : s2s_state)
  : result s2s_state :=
  pred_event_type <- s2s_resolve st ;;
  let st := s2s_next_trigger st in
  if str_in config_eae_eval_mode [mode_default; mode_loose]
     && pystr_eqb pred_event_type NA
  then Ok st
  else
    Ok (s2s_add
          {| example_id := s2s_trigger_idx st - 1;
             example_text := words;
             pred_type := pred_event_type;
             true_type := type event;
             trigger_left := fst (trigger_position trigger);
             trigger_right := snd (trigger_position trigger);
             labels := trigger_labels whitespace trigger;
             kwargs_source := kwargs |}
          (arguments_per_trigger trigger) st).

Definition s2s_bind_event (event : Event) (st : s2s_state) : s2s_state :=
  {| s2s_trigger_idx := s2s_trigger_idx st;
     examples := examples st;
     golden_arguments := golden_arguments st;
     config_language := config_language st;
     loop_event := Some event |}.

Definition s2s_event (words : list pystr) (whitespace : pystr)
  (kwargs : list pystr) (event : Event) (st : s2s_state) : result s2s_state :=
  for_each (s2s_positive_trigger words whitespace kwargs event)
           (triggers event) (s2s_bind_event event st).

(** Lines 183-209 *)
Definition s2s_negative_trigger (words : list pystr) (kwargs : list pystr)
  (neg_trigger : Mention) (st : s2s_state) : result s2s_state :=
  pred_event_type <- s2s_resolve st ;;
  let st := s2s_next_trigger st in
  if pystr_eqb config_eae_eval_mode mode_loose then Ok st
  else if str_in config_eae_eval_mode [mode_default; mode_strict] then
    if negb (pystr_eqb pred_event_type NA) then
      Ok (s2s_add
            {| example_id := s2s_trigger_idx st - 1;
               example_text := words;
               pred_type := pred_event_type;
               true_type := NA;
               trigger_left := fst (position neg_trigger);
               trigger_right := snd (position neg_trigger);
               labels := [];
               kwargs_source := kwargs |}
            [] st)
    else Ok st
  else Err ValueError.

(** Lines 211-229 *)
Definition s2s_candidate (words : list pystr) (kwargs : list pystr)
  (candi : Mention) (st : s2s_state) : result s2s_state :=
  pred_event_type <-
    match self_event_preds with
    | Some ep => index ep (s2s_trigger_idx st)
    | None => Err TypeError
    end ;;
  let st := s2s_next_trigger st in
  if negb (pystr_eqb pred_event_type NA) then
    Ok (s2s_add
          {| example_id := s2s_trigger_idx st - 1;
             example_text := words;
             pred_type := pred_event_type;
             true_type := NA;
             trigger_left := fst (position candi);
             trigger_right := snd (position candi);
             labels := [];
             kwargs_source := kwargs |}
          [] st)
  else Ok st.

Definition chinese_sources : list pystr :=
  [str "<duee>"; str "<fewfc>"; str "<leven>"].

(** Lines 131-138 *)
Definition s2s_set_language (item : Document) (st : s2s_state) : s2s_state :=
  match source item with
  | Some src =>
      {| s2s_trigger_idx := s2s_trigger_idx st;
         examples := examples st;
         golden_arguments := golden_arguments st;
         config_language :=
           if str_in src chinese_sources then Chinese else English;
         loop_event := loop_event st |}
  | None => st
  end.

(** Lines 130-229: the body of [for line in ...] *)
Definition s2s_line (item : Document) (st : s2s_state) : result s2s_state :=
  let kwargs := match source item with
                | Some src => [src]
                | None => []
                end in
  let st := s2s_set_language item st in
  words <- get_words (text item) language0 ;;
  let whitespace := if pystr_eqb language0 English then str " " else [] in
  match events item with
  | Some evs =>
      st <- for_each (s2s_event words whitespace kwargs) evs st ;;
      negs <- getitem (negative_triggers item) ;;
      for_each (s2s_negative_trigger words kwargs) negs st
  | None =>
      cands <- getitem (candidates item) ;;
      for_each (s2s_candidate words kwargs) cands st
  end.

(** [EAESeq2SeqProcessor.read_examples]: the processor's state after the
    method *)
Definition read_examples (lines : list Document) : result s2s_state :=
  st <- for_each s2s_line lines s2s_init ;;
  match self_event_preds with
  | Some ep => py_assert (s2s_trigger_idx st =? length ep) ;;; Ok st
  | None => Ok st
  end.

End Seq2Seq.

(** ** The rest of the sequence-to-sequence processors *)

(** [l[i] = v]: [IndexError] past the end of the list *)
Definition list_assign {A} (l : list A) (i : nat) (v : A) : result (list A) :=
  if i <? length l then Ok (firstn i l ++ v :: skipn (S i) l)
  else Err IndexError.

(** Lines 102-104 and 267-269: the body of
    [for i, flag in enumerate(label_outputs["attention_mask"])] *)
Definition mask_step (p : nat * Z) (input_ids : list Z) : result (list Z) :=
  let (i, flag) := p in
  if (flag =? 0)%Z then list_assign input_ids i (-100)%Z else Ok input_ids.

Definition mask_unused (attention_mask input_ids : list Z) : result (list Z) :=
  for_each mask_step (enumerate attention_mask) input_ids.

(** Lines 238-243: the body of [for i, token in enumerate(tokens)]; the state
    is [marked_words] and [char_pos] *)
Definition insert_marker_step (space : pystr) (trigger_pos : Z * Z)
  (markers : list pystr) (token : pystr) (st : list pystr * nat)
  : result (list pystr * nat) :=
  let (marked_words, char_pos) := st in
  marked_words <-
    (if (Z.of_nat char_pos =? fst trigger_pos)%Z
     then (m <- index markers 0 ;; Ok (marked_words ++ [m]))
     else Ok marked_words) ;;
  let char_pos := char_pos + (length token + length space) in
  let marked_words := marked_words ++ [token] in
  marked_words <-
    (if (Z.of_nat char_pos =? snd trigger_pos + Z.of_nat (length space))%Z
     then (m <- index markers 1 ;; Ok (marked_words ++ [m]))
     else Ok marked_words) ;;
  Ok (marked_words, char_pos).

(** [EAESeq2SeqProcessor.insert_marker] *)
Definition insert_marker (tokens : list pystr) (trigger_pos : Z * Z)
  (markers : list pystr) (whitespace : bool) : result (list pystr) :=
  let space := if whitespace then str " " else [] in
  st <- for_each (insert_marker_step space trigger_pos markers) tokens ([], 0) ;;
  Ok (fst st).

(** What the tokenizer returns, as far as the processors read it *)
Record Encoding := {
  input_ids : list Z;
  attention_mask : list Z
}.

Record InputFeatures := {
  feature_example_id : nat;
  feature_input_ids : list Z;
  feature_attention_mask : list Z;
  feature_labels : list Z
}.

(** [EDInputExample]; [ed_kwargs] is the ["source"] entry of the keyword
    arguments, [None] when the example is built without them (line 83) *)
Record EDInputExample := {
  ed_example_id : nat;
  ed_text : list pystr;
  ed_labels : pystr;
  ed_kwargs : option (list pystr)
}.

Section Features.

(** The tokenizer is the caller's: called on a list of words and a maximal
    length, with truncation and padding to that length *)
Variable tokenizer : list pystr -> nat -> result Encoding.
Variable max_seq_length : nat.
Variable max_out_length : nat.

(** Lines 95-110 and 260-275: the labels of an example, tokenized and masked *)
Definition label_ids (example_labels : pystr) : result (list Z) :=
  label_outputs <- tokenizer (py_split example_labels) max_out_length ;;
  mask_unused (attention_mask label_outputs) (input_ids label_outputs).

(** Lines 249-276: the body of [for example in self.examples] of
    [EAESeq2SeqProcessor.convert_examples_to_features] *)
Definition eae_features_step (markers : list pystr) (whitespace : bool)
  (example : EAEInputExample) (input_features : list InputFeatures)
  : result (list InputFeatures) :=
  words <- insert_marker (example_text example)
             (trigger_left example, trigger_right example) markers whitespace ;;
  input_context <- tokenizer (kwargs_source example ++ words) max_seq_length ;;
  lbl <- label_ids (labels example) ;;
  Ok (input_features
        ++ [ {| feature_example_id := example_id example;
                feature_input_ids := input_ids input_context;
                feature_attention_mask := attention_mask input_context;
                feature_labels := lbl |} ]).

(** [EAESeq2SeqProcessor.convert_examples_to_features]: [language] is
    [self.config.language] when the method runs *)
Definition eae_convert_examples_to_features (language : pystr)
  (markers : list pystr) (exs : list EAEInputExample)
  : result (list InputFeatures) :=
  let whitespace := pystr_eqb language English in
  for_each (eae_features_step markers whitespace) exs [].

End Features.

Section EDSeq2Seq.

(** [get_words] and [get_plain_label] of [input_utils.py] are not part of
    the two files *)
Variable get_words : pystr -> pystr -> result (list pystr).
Variable get_plain_label : pystr -> pystr.

(** The state of [EDSeq2SeqProcessor.read_examples]: the examples and
    [self.config.language] *)
Record ed_state := {
  ed_examples : list EDInputExample;
  ed_language : pystr
}.

(** Line 69: the template of one trigger, with spaces in every language *)
Definition ed_trigger_label (plain_type : pystr) (trigger : Trigger) : pystr :=
  type_start ++ str " " ++ plain_type ++ split_word ++ str " "
    ++ trigger_word trigger ++ str " " ++ type_end.

(** Lines 65-73 *)
Definition ed_labels_of (evs : list Event) : pystr :=
  py_join
    (flat_map (fun event =>
                 map (ed_trigger_label (get_plain_label (type event)))
                     (triggers event))
              evs).

(** Lines 52-84: the body of [for idx, line in enumerate(...)] *)
Definition ed_line (line : nat * Document) (st : ed_state) : result ed_state :=
  let (idx, item) := line in
  let kwargs := match source item with
                | Some src => [src]
                | None => []
                end in
  let lang := match source item with
              | Some src =>
                  if str_in src chinese_sources then Chinese else English
              | None => ed_language st
              end in
  words <- get_words (text item) lang ;;
  let example :=
    match events item with
    | Some evs =>
        {| ed_example_id := idx; ed_text := words;
           ed_labels := ed_labels_of evs; ed_kwargs := Some kwargs |}
    | None =>
        {| ed_example_id := idx; ed_text := words;
           ed_labels := []; ed_kwargs := None |}
    end in
  Ok {| ed_examples := ed_examples st ++ [example]; ed_language := lang |}.

(** [EDSeq2SeqProcessor.read_examples], from the configured language *)
Definition ed_read_examples (language0 : pystr) (lines : list Document)
  : result ed_state :=
  for_each ed_line (enumerate lines)
    {| ed_examples := []; ed_language := language0 |}.

End EDSeq2Seq.

(** ** Spec-level notions the claims are stated with *)

(** The number of whitespace-delimited words of a string: the positions
    where a non-whitespace character follows the start of the string or a
    whitespace character *)
Fixpoint count_word_starts (after_space : bool) (s : pystr) : nat :=
  match s with
  | [] => 0
  | c :: s' =>
      (if after_space && negb (py_isspace c) then 1 else 0)
      + count_word_starts (py_isspace c) s'
  end.

Definition num_words (s : pystr) : nat := count_word_starts true s.

(** A string with its whitespace removed *)
Definition remove_whitespace (s : pystr) : pystr :=
  filter (fun c => negb (py_isspace c)) s.

(** [s[:a]] and [s[a:b]] of a span inside the string *)
Definition prefix (s : pystr) (a : Z) : pystr := firstn (Z.to_nat a) s.

Definition substring (s : pystr) (a b : Z) : pystr :=
  firstn (Z.to_nat b - Z.to_nat a) (skipn (Z.to_nat a) s).

(** A line of the event-detection pass that needs no language-specific
    work: flagged as overflowing and without candidates *)
Definition quiet_line (is_overflow : list bool) (i : nat) (item : Document)
  : Prop :=
  nth_error is_overflow i = Some true
  /\ exists label_names, td_candidates item = Ok ([], label_names).

(** A line whose length check or whose first candidate reaches the language
    test *)
Definition language_line (is_overflow : list bool) (i : nat) (item : Document)
  : Prop :=
  nth_error is_overflow i = Some false
  \/ (nth_error is_overflow i = Some true
      /\ exists c cs label_names,
           td_candidates item = Ok (c :: cs, label_names)).

(** The same configuration under another evaluation mode *)
Definition with_mode {id2label} (da : DataArgs id2label) (mode : pystr)
  : DataArgs id2label :=
  {| language := language da;
     eae_eval_mode := mode;
     golden_trigger := golden_trigger da;
     event_preds := event_preds da;
     id2type := id2type da;
     id2role := id2role da |}.

(** Two outcomes agree on failure and are related on success *)
Definition result_rel {A B} (R : A -> B -> Prop) (r1 : result A) (r2 : result B)
  : Prop :=
  match r1, r2 with
  | Ok a, Ok b => R a b
  | Err e1, Err e2 => e1 = e2
  | _, _ => False
  end.

(** The number of triggers of a document, positive and negative, or of its
    candidates when it has no gold events *)
Definition positive_triggers (item : Document) : list Trigger :=
  match events item with
  | Some evs => flat_map triggers evs
  | None => []
  end.

Definition num_triggers (item : Document) : nat :=
  match events item with
  | Some _ =>
      length (positive_triggers item)
      + match negative_triggers item with
        | Some negs => length negs
        | None => 0
        end
  | None =>
      match candidates item with
      | Some cands => length cands
      | None => 0
      end
  end.

Definition total_triggers (lines : list Document) : nat :=
  list_sum (map num_triggers lines).

(** The number of candidates of a document of blind inference *)
Definition num_candidates (item : Document) : nat :=
  match candidates item with
  | Some cands => length cands
  | None => 0
  end.

(** The computed instance count: the number of triggers the evaluation-mode
    gate lets through, the prediction rows left aside. The state is the pair
    of [trigger_idx] and the count. *)
Section InstanceCount.

Variable id2label : Type.
Variable data_args : DataArgs id2label.

Definition count_trigger (gate : pystr -> bool) (true_type : pystr)
  (c : nat * nat) : result (nat * nat) :=
  pred_type <- resolve_type data_args (fst c) true_type ;;
  Ok (fst c + 1, snd c + if gate pred_type then 1 else 0).

Definition gate_positive (pred_type : pystr) : bool :=
  negb (str_in (eae_eval_mode data_args) [mode_default; mode_loose]
        && pystr_eqb pred_type NA).

Definition gate_negative (pred_type : pystr) : bool :=
  str_in (eae_eval_mode data_args) [mode_default; mode_strict]
  && negb (pystr_eqb pred_type NA).

Definition count_line (item : Document) (c : nat * nat) : result (nat * nat) :=
  evs <- getitem (events item) ;;
  c <- for_each (fun event =>
                   for_each (fun _ : Trigger =>
                               count_trigger gate_positive (type event))
                            (triggers event)) evs c ;;
  negs <- getitem (negative_triggers item) ;;
  for_each (fun _ : Mention => count_trigger gate_negative NA) negs c.

Definition instance_count (lines : list Document) : result nat :=
  c <- for_each count_line lines (0, 0) ;;
  Ok (snd c).

End InstanceCount.

(** The two counters of the argument-extraction pass *)
Definition counters (st : ae_state) : nat * nat :=
  (trigger_idx st, eae_instance_idx st).

(** The prediction file bounds the trigger index when it is consulted *)
Definition within_event_preds {id2label} (data_args : DataArgs id2label)
  (c : nat * nat) : Prop :=
  golden_trigger data_args = false ->
  forall ep, event_preds data_args = Some ep -> fst c <= length ep.

(** Two runs over the same triggers, the second with at least as many
    instances *)
Definition count_le (c1 c2 : nat * nat) : Prop :=
  fst c1 = fst c2 /\ snd c1 <= snd c2.

Definition s2s_le (st1 st2 : s2s_state) : Prop :=
  s2s_trigger_idx st1 = s2s_trigger_idx st2
  /\ loop_event st1 = loop_event st2
  /\ length (examples st1) <= length (examples st2).

(** The examples of one run are at most those of the other *)
Definition fewer_examples (st1 st2 : s2s_state) : Prop :=
  length (examples st1) <= length (examples st2).

(** Two character spans [[start, end)] share no offset *)
Definition spans_disjoint (p q : Z * Z) : Prop :=
  forall k, ~ ((fst p <= k < snd p)%Z /\ (fst q <= k < snd q)%Z).

(** ** The label template *)

(** The (role, value) pairs of a trigger, in the order of the source's loops *)
Definition trigger_pairs (trigger : Trigger) : list (pystr * pystr) :=
  flat_map (fun argument =>
              map (fun m => (role argument, mention m)) (mentions argument))
           (arguments trigger).

(** The template of a list of pairs *)
Definition encode (whitespace : pystr) (pairs : list (pystr * pystr)) : pystr :=
  py_join (map (fun p => mention_label whitespace (fst p) (snd p)) pairs).

(** The text between the brackets of one mention *)
Definition template_body (whitespace r v : pystr) : pystr :=
  whitespace ++ r ++ split_word ++ whitespace ++ v ++ whitespace.

(** [whitespace] of [read_examples], line 142 *)
Definition template_space (language : pystr) : pystr :=
  if pystr_eqb language English then str " " else [].

(** A string the decoder returns as it is: not empty, no whitespace at
    either end, no space and no character of the template inside *)
Definition starts_solid (s : pystr) : bool :=
  match s with
  | [] => false
  | c :: _ => negb (py_isspace c)
  end.

Definition plain_char (c : char) : bool :=
  negb (template_delim c) && negb (split_word_delim c) && negb (c =? 32)%N.

Definition clean (s : pystr) : bool :=
  starts_solid s && starts_solid (rev s) && forallb plain_char s.

Definition clean_pair (p : pystr * pystr) : bool :=
  clean (fst p) && clean (snd p).

(** ** Spec-level notions of the further properties *)

(** The (role, value) pair of a decoded tuple *)
Definition tuple_pair (t : argument_tuple) : pystr * pystr :=
  (snd (fst t), snd t).

(** The number of [":"] of a string *)
Definition count_split_words (s : pystr) : nat :=
  length (filter split_word_delim s).

(** Whether the scan of [s], started after a whitespace character or not,
    ends after a whitespace character *)
Fixpoint ends_after_space (after_space : bool) (s : pystr) : bool :=
  match s with
  | [] => after_space
  | c :: s' => ends_after_space (py_isspace c) s'
  end.

(** A cut between [before] and [after] that falls inside a word: the
    character before the cut and the one after it are not whitespace *)
Definition cuts_word (before after : pystr) : bool :=
  starts_solid (rev before) && starts_solid after.

(** The offset inside the text that a slice bound stands for *)
Definition normal_offset (txt : pystr) (i : Z) : Z :=
  if (i <? 0)%Z then Z.max 0 (i + Z.of_nat (length txt))
  else Z.min i (Z.of_nat (length txt)).

(** The candidates a line of blind inference adds without a label *)
Definition blind_candidates (item : Document) : nat :=
  match events item with
  | Some _ => 0
  | None => num_candidates item
  end.

(** The lists of a state of argument extraction are aligned *)
Definition ae_aligned (st : ae_state) : Prop :=
  length (ae_label_names st) = length (ae_results st).

(** The same configuration with another prediction file *)
Definition with_event_preds {id2label} (da : DataArgs id2label)
  (ep : option (list pystr)) : DataArgs id2label :=
  {| language := language da;
     eae_eval_mode := eae_eval_mode da;
     golden_trigger := golden_trigger da;
     event_preds := ep;
     id2type := id2type da;
     id2role := id2role da |}.

(** The keys the converters read from a line *)
Definition has_gold_keys (item : Document) : Prop :=
  events item <> None /\ negative_triggers item <> None.

Definition has_detection_keys (item : Document) : Prop :=
  (events item <> None /\ negative_triggers item <> None)
  \/ (events item = None /\ candidates item <> None).

(** The positive triggers of a line whose event type passes [gate] *)
Definition gated_triggers (gate : pystr -> bool) (item : Document) : nat :=
  match events item with
  | Some evs =>
      list_sum (map (fun event =>
                       if gate (type event) then length (triggers event)
                       else 0) evs)
  | None => 0
  end.

(** The examples of the processor and their gold arguments are kept side
    by side *)
Definition s2s_parallel (st : s2s_state) : Prop :=
  length (examples st) = length (golden_arguments st).

(** The ids of the examples grow and stay below the trigger index *)
Definition s2s_ids_ordered (st : s2s_state) : Prop :=
  StronglySorted lt (map example_id (examples st))
  /\ Forall (fun ex => example_id ex < s2s_trigger_idx st) (examples st).

(** No example was predicted ["NA"] *)
Definition s2s_no_NA (st : s2s_state) : Prop :=
  Forall (fun ex => pred_type ex <> NA) (examples st).

(** The values that [pairs] give to the role [r], in their order *)
Definition values_of (r : pystr) (pairs : list (pystr * pystr)) : list pystr :=
  map snd (filter (fun p => pystr_eqb (fst p) r) pairs).

(** A dictionary of roles and the pairs it was filled from *)
Definition groups (d : list (pystr * list pystr))
  (pairs : list (pystr * pystr)) : Prop :=
  NoDup (map fst d)
  /\ forall r vs, In (r, vs) d <-> vs <> [] /\ vs = values_of r pairs.

(** ** Spec-level notions of the markers and the mask *)

(** The characters a token takes in the text the processor counts in: the
    token and the space after it *)
Definition token_width (space token : pystr) : nat :=
  length token + length space.

Definition tokens_width (space : pystr) (tokens : list pystr) : nat :=
  list_sum (map (token_width space) tokens).

(** The offsets at which the tokens start and end (the space after the token
    counted in), for tokens laid out from [pos] on *)
Fixpoint token_starts (space : pystr) (pos : nat) (tokens : list pystr)
  : list nat :=
  match tokens with
  | [] => []
  | t :: ts => pos :: token_starts space (pos + token_width space t) ts
  end.

Fixpoint token_ends (space : pystr) (pos : nat) (tokens : list pystr)
  : list nat :=
  match tokens with
  | [] => []
  | t :: ts =>
      (pos + token_width space t)
        :: token_ends space (pos + token_width space t) ts
  end.


(** [space] of [insert_marker] *)
Definition marker_space (whitespace : bool) : pystr :=
  if whitespace then str " " else [].


(** The attention mask has a 0 at position [j] *)
Definition padded_at (mask : list Z) (j : nat) : bool :=
  match nth_error mask j with
  | Some flag => (flag =? 0)%Z
  | None => false
  end.

(** The (type, trigger word) pairs of the events of a line, the type as
    [get_plain_label] gives it *)
Definition ed_pairs (get_plain_label : pystr -> pystr) (evs : list Event)
  : list (pystr * pystr) :=
  flat_map (fun event =>
              map (fun t => (get_plain_label (type event), trigger_word t))
                  (triggers event))
           evs.

(** What [read_examples] of the event-detection processor makes of a line *)
Definition ed_example_of (get_plain_label : pystr -> pystr)
  (line : nat * Document) (ex : EDInputExample) : Prop :=
  ed_example_id ex = fst line
  /\ match events (snd line) with
     | Some evs =>
         ed_labels ex = encode (str " ") (ed_pairs get_plain_label evs)
         /\ ed_kwargs ex = Some match source (snd line) with
                                | Some src => [src]
                                | None => []
                                end
     | None => ed_labels ex = [] /\ ed_kwargs ex = None
     end.

(** What [convert_examples_to_features] makes of an example: the ids of the
    marked words, and the label ids with -100 where the tokenizer padded *)
Definition feature_of (tokenizer : list pystr -> nat -> result Encoding)
  (max_seq_length max_out_length : nat) (markers : list pystr)
  (whitespace : bool) (ex : EAEInputExample) (f : InputFeatures) : Prop :=
  feature_example_id f = example_id ex
  /\ exists words input_context label_outputs,
       insert_marker (example_text ex) (trigger_left ex, trigger_right ex)
         markers whitespace = Ok words
       /\ tokenizer (kwargs_source ex ++ words) max_seq_length
          = Ok input_context
       /\ feature_input_ids f = input_ids input_context
       /\ feature_attention_mask f = attention_mask input_context
       /\ tokenizer (py_split (labels ex)) max_out_length = Ok label_outputs
       /\ length (feature_labels f) = length (input_ids label_outputs)
       /\ forall j x,
            nth_error (input_ids label_outputs) j = Some x ->
            nth_error (feature_labels f) j
            = Some (if padded_at (attention_mask label_outputs) j
                    then (-100)%Z else x).

(** ** Sample data *)

Definition john : Mention :=
  {| mention_id := str "m1"; mention := str "John"; position := (10, 14)%Z |}.

Definition park : Mention :=
  {| mention_id := str "m2"; mention := str "park"; position := (22, 26)%Z |}.

Definition neg_saw : Mention :=
  {| mention_id := str "n1"; mention := str "saw"; position := (0, 3)%Z |}.

Definition attack_trigger : Trigger :=
  {| trigger_word := str "hit";
     trigger_position := (6, 9)%Z;
     arguments := [ {| role := str "Victim"; mentions := [john] |} ] |}.

Definition attack_event : Event :=
  {| type := str "Attack"; triggers := [attack_trigger] |}.

Definition sample_text : pystr := str "saw   hit John in the park".

(** One positive trigger with one argument and one negative trigger, no
    entity annotation *)
Definition sample_doc : Document :=
  {| text := sample_text;
     events := Some [attack_event];
     negative_triggers := Some [neg_saw];
     entities := None;
     candidates := None;
     source := None |}.

(** The same document with entity annotation *)
Definition entity_doc : Document :=
  {| text := sample_text;
     events := Some [attack_event];
     negative_triggers := Some [neg_saw];
     entities := Some [ {| entity_mentions := [john] |};
                        {| entity_mentions := [park] |} ];
     candidates := None;
     source := None |}.

(** Gold events and nothing labeled [NA] *)
Definition positive_only_doc : Document :=
  {| text := sample_text;
     events := Some [attack_event];
     negative_triggers := Some [];
     entities := None;
     candidates := None;
     source := None |}.

(** A document of blind inference *)
Definition candidate_doc : Document :=
  {| text := sample_text;
     events := None;
     negative_triggers := None;
     entities := None;
     candidates := Some [neg_saw; john];
     source := None |}.

(** Modelled from the spec: [get_pred_per_mention] of [dump_result.py], which
    is not among the sources; the first word's predicted label governs the
    span (section 4.6), ["NA"] outside the row *)
Definition first_word_label (word_start word_end : nat) (row : pred_row)
  (id2 : list pystr) : result pystr :=
  match nth_error row word_start with
  | Some id => Ok (nth (Z.to_nat id) id2 NA)
  | None => Ok NA
  end.

(** An [f1_score] that returns no number: the score's value plays no part
    in the properties below *)
Definition no_score (label_names results pos_labels : list pystr)
  : result unit := Ok tt.

Definition sample_roles : list pystr := [str "NA"; str "Victim"].

Definition sample_args (lang mode : pystr) (golden : bool)
  (ep : option (list pystr)) : DataArgs (list pystr) :=
  {| language := lang;
     eae_eval_mode := mode;
     golden_trigger := golden;
     event_preds := ep;
     id2type := [str "NA"; str "Attack"];
     id2role := sample_roles |}.

(** Label ids that name the word they stand at: with [word_row] a candidate
    is predicted the name of its first word *)
Definition word_roles : list pystr :=
  [str "w0"; str "w1"; str "w2"; str "w3"; str "w4"; str "w5"].

Definition word_row : pred_row := [0; 1; 2; 3; 4; 5]%Z.

Definition word_args (mode : pystr) (golden : bool)
  (ep : option (list pystr)) : DataArgs (list pystr) :=
  {| language := English;
     eae_eval_mode := mode;
     golden_trigger := golden;
     event_preds := ep;
     id2type := word_roles;
     id2role := word_roles |}.

Definition french_args : DataArgs (list pystr) :=
  sample_args (str "French") mode_default true None.

Definition mixed_preds : option (list pystr) :=
  Some [str "NA"; str "Attack"].

(** Modelled from the spec: [get_words] of [input_utils.py], which is not
    among the sources; English text is split on whitespace, Chinese text
    into its characters after the whitespace is removed (section 4.1) *)
Definition sample_get_words (txt language : pystr) : result (list pystr) :=
  if pystr_eqb language English then Ok (py_split txt)
  else if pystr_eqb language Chinese
       then Ok (map (fun c => [c]) (py_join (py_split txt)))
       else Err NotImplementedError.

(** A tokenizer to run the processors with: one id per word, its length,
    cut or padded to the maximal length *)
Definition pad_to {A} (n : nat) (d : A) (l : list A) : list A :=
  firstn n l ++ repeat d (n - length l).

Definition sample_tokenizer (words : list pystr) (max_length : nat)
  : result Encoding :=
  Ok {| input_ids :=
          pad_to max_length 0%Z (map (fun w => Z.of_nat (length w)) words);
        attention_mask := pad_to max_length 0%Z (map (fun _ => 1%Z) words) |}.

Definition sample_example : EAEInputExample :=
  {| example_id := 0;
     example_text := [str "saw"; str "hit"; str "John"];
     pred_type := str "Attack";
     true_type := str "Attack";
     trigger_left := 4;
     trigger_right := 7;
     labels := str "< Victim: John >";
     kwargs_source := [] |}.

(** * Properties *)

Unset Implicit Arguments.

(** ** The error monad and strings *)

Lemma bind_Ok_inv {A B} (m : result A) (k : A -> result B) (b : B) :
  bind m k = Ok b -> exists a, m = Ok a /\ k a = Ok b.
Proof.
  destruct m as [a|e]; simpl; intros H; [eauto | discriminate].
Qed.

Lemma pystr_eqb_eq (a b : pystr) : pystr_eqb a b = true <-> a = b.
Proof.
  unfold pystr_eqb; destruct (list_eq_dec N.eq_dec a b); split; congruence.
Qed.

Lemma pystr_eqb_neq (a b : pystr) : pystr_eqb a b = false <-> a <> b.
Proof.
  unfold pystr_eqb; destruct (list_eq_dec N.eq_dec a b); split; congruence.
Qed.

Lemma pystr_eqb_refl (a : pystr) : pystr_eqb a a = true.
Proof. apply pystr_eqb_eq; reflexivity. Qed.

Lemma str_in_In (x : pystr) (l : list pystr) : str_in x l = true <-> In x l.
Proof.
  unfold str_in; rewrite existsb_exists; split.
  - intros [y [Hy E]]. apply pystr_eqb_eq in E. subst; assumption.
  - intros H. exists x. split; [assumption | apply pystr_eqb_refl].
Qed.

(** ** Whitespace splitting and slicing *)

Lemma split_from_length (cur s : pystr) :
  length (split_from cur s)
  = (if is_empty cur then 0 else 1) + count_word_starts (is_empty cur) s.
Proof.
  revert cur; induction s as [|c s IH]; intros cur; simpl.
  - destruct cur; simpl; reflexivity.
  - destruct (py_isspace c) eqn:Hc; simpl.
    + rewrite length_app, IH; simpl.
      rewrite andb_false_r. destruct cur; simpl; lia.
    + rewrite IH; simpl. rewrite andb_true_r. destruct cur; simpl; lia.
Qed.

Lemma py_split_length (s : pystr) : length (py_split s) = num_words s.
Proof. unfold py_split, num_words. rewrite split_from_length. reflexivity. Qed.

Lemma emit_concat (cur : pystr) : concat (emit cur) = rev cur.
Proof. destruct cur; simpl; [reflexivity | apply app_nil_r]. Qed.

Lemma split_from_concat (cur s : pystr) :
  concat (split_from cur s) = rev cur ++ remove_whitespace s.
Proof.
  revert cur; induction s as [|c s IH]; intros cur; simpl.
  - rewrite emit_concat, app_nil_r. reflexivity.
  - destruct (py_isspace c) eqn:Hc; simpl.
    + rewrite concat_app, emit_concat, IH. reflexivity.
    + rewrite IH. simpl. rewrite <- app_assoc. reflexivity.
Qed.

Lemma py_join_split (s : pystr) : py_join (py_split s) = remove_whitespace s.
Proof. unfold py_join, py_split. apply split_from_concat. Qed.

Lemma slice_bound_inside (len : nat) (i : Z) :
  (0 <= i <= Z.of_nat len)%Z -> slice_bound len i = Z.to_nat i.
Proof.
  intros H. unfold slice_bound.
  destruct (Z.ltb_spec i 0); [lia|]. lia.
Qed.

Lemma py_slice_to_inside (s : pystr) (a : Z) :
  (0 <= a <= Z.of_nat (length s))%Z -> py_slice_to s a = prefix s a.
Proof.
  intros H. unfold py_slice_to, prefix. rewrite slice_bound_inside by lia.
  reflexivity.
Qed.

Lemma py_slice_inside (s : pystr) (a b : Z) :
  (0 <= a <= b)%Z -> (b <= Z.of_nat (length s))%Z ->
  py_slice s a b = substring s a b.
Proof.
  intros H1 H2. unfold py_slice, substring.
  rewrite !slice_bound_inside by lia. reflexivity.
Qed.

(** ** Offset mapping *)

(** C5. For a character span inside the text, the English word span starts at
    the number of whitespace-delimited words of [text[:start]] and ends that
    plus the number of words of [text[start:end]]; the Chinese word span is
    the length of [text[:start]] and of [text[:end]] with the whitespace
    removed. *)
Theorem offset_mapper_word_span (txt : pystr) (s e : Z) :
  (0 <= s <= e)%Z -> (e <= Z.of_nat (length txt))%Z ->
  to_word_span English txt (s, e)
  = Ok (num_words (prefix txt s),
        num_words (prefix txt s) + num_words (substring txt s e))
  /\ to_word_span Chinese txt (s, e)
     = Ok (length (remove_whitespace (prefix txt s)),
           length (remove_whitespace (prefix txt e))).
Proof.
  intros H1 H2. unfold to_word_span. simpl fst; simpl snd.
  rewrite !py_slice_to_inside, py_slice_inside by lia.
  rewrite !py_split_length, !py_join_split.
  split; reflexivity.
Qed.

Lemma offset_mapper_word_span_witness :
  to_word_span English (str "John hit Bob") (5, 8)%Z = Ok (1, 2)
  /\ to_word_span Chinese (str "John hit Bob") (5, 8)%Z = Ok (4, 7).
Proof.
  apply (offset_mapper_word_span (str "John hit Bob") 5%Z 8%Z); simpl; lia.
Defined.

Lemma text_length_unsupported (lang txt : pystr) :
  lang <> English -> lang <> Chinese ->
  text_length lang txt = Err NotImplementedError.
Proof.
  intros HE HC. unfold text_length.
  apply pystr_eqb_neq in HE, HC. rewrite HE, HC. reflexivity.
Qed.

Lemma to_word_span_unsupported (lang txt : pystr) (pos : Z * Z) :
  lang <> English -> lang <> Chinese ->
  to_word_span lang txt pos = Err NotImplementedError.
Proof.
  intros HE HC. unfold to_word_span.
  apply pystr_eqb_neq in HE, HC. rewrite HE, HC. reflexivity.
Qed.

(** ** Loops *)

Lemma for_each_Ok_each {A S} (body : A -> S -> result S) (xs : list A)
  (st st' : S) :
  for_each body xs st = Ok st' ->
  forall x, In x xs -> exists s s', body x s = Ok s'.
Proof.
  revert st; induction xs as [|y xs IH]; intros st H x Hin; [destruct Hin|].
  simpl in H. apply bind_Ok_inv in H as (s1 & Hy & Hrest).
  destruct Hin as [<-|Hin]; [eauto | eapply IH; eauto].
Qed.

Lemma for_each_Err_at {A S} (body : A -> S -> result S) (xs ys : list A)
  (y : A) (st : S) (e : exn) :
  (forall x s, In x xs -> exists s', body x s = Ok s') ->
  (forall s, body y s = Err e) ->
  for_each body (xs ++ y :: ys) st = Err e.
Proof.
  intros Hxs Hy. revert st; induction xs as [|x xs IH]; intros st; simpl.
  - rewrite Hy. reflexivity.
  - destruct (Hxs x st (or_introl eq_refl)) as [s' ->]. simpl.
    apply IH. intros x' s Hin. apply Hxs. right; assumption.
Qed.

Lemma enumerate_nth {A} (l : list A) (i : nat) (x : A) :
  nth_error l i = Some x -> In (i, x) (enumerate l).
Proof.
  unfold enumerate. intros H.
  assert (G : forall k, In (k + i, x) (combine (seq k (length l)) l)).
  { revert i H; induction l as [|y l IH]; intros i H k;
      [destruct i; discriminate|].
    destruct i as [|i]; simpl in *.
    - left. injection H as ->. f_equal. lia.
    - right. replace (k + S i) with (S k + i) by lia. apply IH. assumption. }
  apply (G 0).
Qed.

Lemma enumerate_app {A} (l1 l2 : list A) (x : A) :
  exists pre post,
    enumerate (l1 ++ x :: l2) = pre ++ (length l1, x) :: post
    /\ forall p, In p pre -> nth_error l1 (fst p) = Some (snd p).
Proof.
  unfold enumerate.
  assert (G : forall k, exists pre post,
    combine (seq k (length (l1 ++ x :: l2))) (l1 ++ x :: l2)
    = pre ++ (k + length l1, x) :: post
    /\ forall p, In p pre ->
       k <= fst p /\ nth_error l1 (fst p - k) = Some (snd p)).
  { induction l1 as [|y l1 IH]; intros k; simpl.
    - exists [], (combine (seq (S k) (length l2)) l2). split.
      + rewrite Nat.add_0_r. reflexivity.
      + intros p [].
    - destruct (IH (S k)) as (pre & post & E & Hpre).
      exists ((k, y) :: pre), post. split.
      + rewrite E. simpl.
        replace (k + S (length l1)) with (S (k + length l1)) by lia.
        reflexivity.
      + intros p [<-|Hin]; simpl.
        * rewrite Nat.sub_diag. split; [lia | reflexivity].
        * destruct (Hpre p Hin) as [Hle Hn]. split; [lia|].
          replace (fst p - k) with (S (fst p - S k)) by lia. exact Hn. }
  destruct (G 0) as (pre & post & E & Hpre).
  exists pre, post. split; [exact E|].
  intros p Hin. destruct (Hpre p Hin) as [_ Hn].
  rewrite Nat.sub_0_r in Hn. exact Hn.
Qed.

(** ** Unsupported languages *)

Section UnsupportedLanguage.

Variable id2label : Type.
Variable get_pred_per_mention :
  nat -> nat -> pred_row -> id2label -> result pystr.
Variable score : Type.
Variable f1_score : list pystr -> list pystr -> list pystr -> result score.
Variable percent : score -> score.
Variable data_args : DataArgs id2label.
Variable preds : list pred_row.
Variable is_overflow : list bool.

#[local] Abbreviation trigger_detection :=
  (get_ace2005_trigger_detection_sl get_pred_per_mention f1_score percent
     data_args preds is_overflow).
#[local] Abbreviation argument_extraction :=
  (get_ace2005_argument_extraction_sl get_pred_per_mention f1_score percent
     data_args preds is_overflow).
#[local] Abbreviation td_line' := (td_line get_pred_per_mention data_args preds is_overflow).
#[local] Abbreviation td_pass' := (td_pass get_pred_per_mention data_args preds is_overflow).
#[local] Abbreviation convert_candidates' :=
  (convert_candidates get_pred_per_mention data_args preds).

Hypothesis not_english : language data_args <> English.
Hypothesis not_chinese : language data_args <> Chinese.

Lemma td_line_unsupported_Ok (i : nat) (item : Document) (st st' : td_state) :
  td_line' (i, item) st = Ok st' -> quiet_line is_overflow i item.
Proof.
  unfold td_line, check_row, index, quiet_line. intros H.
  destruct (nth_error is_overflow i) as [[|]|]; simpl in H;
    try discriminate.
  - split; [reflexivity|].
    destruct (td_candidates item) as [[cands lbl]|]; simpl in H;
      [|discriminate].
    destruct cands as [|c cands]; [eauto|].
    unfold convert_candidates in H. simpl in H.
    unfold convert_candidate in H.
    rewrite to_word_span_unsupported in H by assumption. discriminate.
  - rewrite text_length_unsupported in H by assumption. discriminate.
Qed.

Lemma td_line_quiet (i : nat) (item : Document) (st : td_state) :
  quiet_line is_overflow i item -> exists st', td_line' (i, item) st = Ok st'.
Proof.
  intros [Hov [lbl Hc]]. unfold td_line, check_row, index.
  rewrite Hov, Hc. simpl. eauto.
Qed.

Lemma td_line_language (i : nat) (item : Document) (st : td_state) :
  language_line is_overflow i item -> td_line' (i, item) st = Err NotImplementedError.
Proof.
  unfold td_line, check_row, index.
  intros [Hov | [Hov (c & cs & lbl & Hc)]]; rewrite Hov; simpl.
  - rewrite text_length_unsupported by assumption. reflexivity.
  - rewrite Hc. simpl. unfold convert_candidates. simpl.
    unfold convert_candidate.
    rewrite to_word_span_unsupported by assumption. reflexivity.
Qed.

(** C9. For a language tag other than English and Chinese, the word count
    and the offset mapping raise [NotImplementedError] (the spec's
    UnsupportedLanguageError); the event-detection converter returns a
    result only when no line needs either, and aborts with that error at
    the first line that does. *)
Theorem unsupported_language_fatal :
  (forall txt, text_length (language data_args) txt = Err NotImplementedError)
  /\ (forall txt pos,
        to_word_span (language data_args) txt pos = Err NotImplementedError)
  /\ (forall lines out,
        trigger_detection lines = Ok out ->
        forall i item, nth_error lines i = Some item -> quiet_line is_overflow i item)
  /\ (forall before item after,
        (forall i it, nth_error before i = Some it -> quiet_line is_overflow i it) ->
        language_line is_overflow (length before) item ->
        trigger_detection (before ++ item :: after) = Err NotImplementedError).
Proof.
  split; [|split; [|split]].
  - intros txt. apply text_length_unsupported; assumption.
  - intros txt pos. apply to_word_span_unsupported; assumption.
  - intros lines out H i item Hi.
    unfold get_ace2005_trigger_detection_sl in H.
    apply bind_Ok_inv in H as (st & Hpass & _).
    apply enumerate_nth in Hi.
    destruct (for_each_Ok_each _ _ _ _ Hpass _ Hi) as (s & s' & Hline).
    eapply td_line_unsupported_Ok; eassumption.
  - intros before item after Hq Hl.
    unfold get_ace2005_trigger_detection_sl, td_pass.
    destruct (enumerate_app before after item) as (pre & post & -> & Hpre).
    rewrite for_each_Err_at with (e := NotImplementedError); [reflexivity| |].
    + intros [i it] s Hin. apply td_line_quiet. apply Hq.
      apply (Hpre _ Hin).
    + intros s. apply td_line_language. assumption.
Qed.

End UnsupportedLanguage.

Lemma french_not_english : language french_args <> English.
Proof. intros H. discriminate H. Qed.

Lemma french_not_chinese : language french_args <> Chinese.
Proof. intros H. discriminate H. Qed.

Lemma unsupported_language_fatal_witness :
  text_length (str "French") sample_text = Err NotImplementedError
  /\ get_ace2005_trigger_detection_sl first_word_label no_score (fun s => s)
       french_args [word_row] [false] [sample_doc] = Err NotImplementedError.
Proof.
  pose proof (unsupported_language_fatal _ first_word_label _ no_score
                (fun s => s) french_args [word_row] [false]
                french_not_english french_not_chinese) as (H1 & _ & _ & H4).
  split.
  - apply H1.
  - apply (H4 [] sample_doc []).
    + intros i it H. destruct i; discriminate H.
    + left. reflexivity.
Defined.

(** ** Related and simulated loops *)

Lemma for_each_sim {A S T} (f : S -> T) (body : A -> S -> result S)
  (abs : A -> T -> result T) (xs : list A) :
  (forall x s s', In x xs -> body x s = Ok s' -> abs x (f s) = Ok (f s')) ->
  forall s s', for_each body xs s = Ok s' -> for_each abs xs (f s) = Ok (f s').
Proof.
  induction xs as [|x xs IH]; intros Hstep s s' H; simpl in *.
  - injection H as ->. reflexivity.
  - apply bind_Ok_inv in H as (s1 & Hx & Hrest).
    rewrite (Hstep x s s1 (or_introl eq_refl) Hx). simpl.
    apply IH; [|assumption].
    intros y t t' Hin. apply Hstep. right; assumption.
Qed.

Lemma bind_rel {A B A' B'} (R : A -> A' -> Prop) (Q : B -> B' -> Prop)
  (m : result A) (m' : result A') (k : A -> result B) (k' : A' -> result B') :
  result_rel R m m' ->
  (forall a a', R a a' -> result_rel Q (k a) (k' a')) ->
  result_rel Q (bind m k) (bind m' k').
Proof.
  destruct m as [a|e], m' as [a'|e']; simpl; intros H Hk;
    try contradiction; auto.
Qed.

Lemma for_each_rel {A S S'} (R : S -> S' -> Prop)
  (body : A -> S -> result S) (body' : A -> S' -> result S') (xs : list A) :
  (forall x s s', R s s' -> result_rel R (body x s) (body' x s')) ->
  forall s s', R s s' ->
               result_rel R (for_each body xs s) (for_each body' xs s').
Proof.
  intros Hstep. induction xs as [|x xs IH]; intros s s' HR; simpl.
  - exact HR.
  - apply bind_rel with (R := R); [apply Hstep; assumption | exact IH].
Qed.

(** ** The argument-extraction pass *)

Section ArgumentExtraction.

Variable id2label : Type.
Variable get_pred_per_mention :
  nat -> nat -> pred_row -> id2label -> result pystr.
Variable data_args : DataArgs id2label.
Variable preds : list pred_row.
Variable is_overflow : list bool.

#[local] Abbreviation positive_instance :=
  (ae_positive_instance get_pred_per_mention data_args preds is_overflow).
#[local] Abbreviation negative_instance :=
  (ae_negative_instance get_pred_per_mention data_args preds is_overflow).
#[local] Abbreviation positive_trigger :=
  (ae_positive_trigger get_pred_per_mention data_args preds is_overflow).
#[local] Abbreviation negative_trigger :=
  (ae_negative_trigger get_pred_per_mention data_args preds is_overflow).
#[local] Abbreviation pass :=
  (ae_pass get_pred_per_mention data_args preds is_overflow).

Lemma positive_instance_counters (item : Document) (trigger : Trigger)
  (st st' : ae_state) :
  positive_instance item trigger st = Ok st' ->
  trigger_idx st' = trigger_idx st
  /\ eae_instance_idx st' = eae_instance_idx st + 1.
Proof.
  unfold ae_positive_instance. intros H.
  apply bind_Ok_inv in H as (_ & _ & H).
  apply bind_Ok_inv in H as (negs & _ & H).
  apply bind_Ok_inv in H as (res & _ & H).
  injection H as <-. simpl. split; reflexivity.
Qed.

Lemma negative_instance_counters (item : Document) (st st' : ae_state) :
  negative_instance item st = Ok st' ->
  trigger_idx st' = trigger_idx st
  /\ eae_instance_idx st' = eae_instance_idx st + 1.
Proof.
  unfold ae_negative_instance. intros H.
  apply bind_Ok_inv in H as (_ & _ & H).
  apply bind_Ok_inv in H as (negs & _ & H).
  apply bind_Ok_inv in H as (res & _ & H).
  injection H as <-. simpl. split; reflexivity.
Qed.

(** The gate of a positive trigger, lines 155-157 *)
Lemma positive_trigger_gate (item : Document) (event : Event)
  (trigger : Trigger) (st : ae_state) :
  positive_trigger item event trigger st
  = (pred_type <- resolve_type data_args (trigger_idx st) (type event) ;;
     if gate_positive data_args pred_type
     then positive_instance item trigger (next_trigger st)
     else Ok (next_trigger st)).
Proof.
  unfold ae_positive_trigger, gate_positive.
  destruct (resolve_type data_args (trigger_idx st) (type event)) as [p|e];
    unfold bind; [|reflexivity].
  destruct (str_in (eae_eval_mode data_args) [mode_default; mode_loose]
            && pystr_eqb p NA); reflexivity.
Qed.

(** The gate of a negative trigger, lines 232-233 *)
Lemma negative_trigger_gate (item : Document) (trigger : Mention)
  (st : ae_state) :
  negative_trigger item trigger st
  = (pred_type <- resolve_type data_args (trigger_idx st) NA ;;
     if gate_negative data_args pred_type
     then negative_instance item (next_trigger st)
     else Ok (next_trigger st)).
Proof.
  unfold ae_negative_trigger, gate_negative.
  destruct (resolve_type data_args (trigger_idx st) NA) as [p|e];
    unfold bind; [|reflexivity].
  destruct (str_in (eae_eval_mode data_args) [mode_default; mode_strict]);
    [|reflexivity].
  destruct (pystr_eqb p NA); reflexivity.
Qed.

Lemma positive_trigger_count (item : Document) (event : Event)
  (trigger : Trigger) (st st' : ae_state) :
  positive_trigger item event trigger st = Ok st' ->
  count_trigger data_args (gate_positive data_args) (type event) (counters st)
  = Ok (counters st').
Proof.
  rewrite positive_trigger_gate. unfold count_trigger, counters. simpl.
  destruct (resolve_type data_args (trigger_idx st) (type event)) as [p|e];
    simpl; [|discriminate].
  destruct (gate_positive data_args p); intros H.
  - apply positive_instance_counters in H as [-> ->]. reflexivity.
  - injection H as <-. simpl. rewrite Nat.add_0_r. reflexivity.
Qed.

Lemma negative_trigger_count (item : Document) (trigger : Mention)
  (st st' : ae_state) :
  negative_trigger item trigger st = Ok st' ->
  count_trigger data_args (gate_negative data_args) NA (counters st)
  = Ok (counters st').
Proof.
  rewrite negative_trigger_gate. unfold count_trigger, counters. simpl.
  destruct (resolve_type data_args (trigger_idx st) NA) as [p|e];
    simpl; [|discriminate].
  destruct (gate_negative data_args p); intros H.
  - apply negative_instance_counters in H as [-> ->]. reflexivity.
  - injection H as <-. simpl. rewrite Nat.add_0_r. reflexivity.
Qed.

Lemma ae_line_count (item : Document) (st st' : ae_state) :
  ae_line get_pred_per_mention data_args preds is_overflow item st = Ok st' ->
  count_line data_args item (counters st) = Ok (counters st').
Proof.
  unfold ae_line, count_line. intros H.
  apply bind_Ok_inv in H as (evs & -> & H). simpl.
  apply bind_Ok_inv in H as (st1 & Hev & H).
  apply bind_Ok_inv in H as (negs & -> & H). simpl.
  erewrite for_each_sim with (f := counters); [| |exact Hev].
  - simpl. eapply for_each_sim with (f := counters); [|exact H].
    intros x s s' _. apply negative_trigger_count.
  - intros ev s s' _ Hs. unfold ae_event in Hs.
    eapply for_each_sim with (f := counters); [|exact Hs].
    intros t u u' _. apply positive_trigger_count.
Qed.

(** A pass that completes has counted the instances the gate lets through *)
Lemma ae_pass_count (lines : list Document) (st : ae_state) :
  pass lines = Ok st ->
  instance_count data_args lines = Ok (eae_instance_idx st).
Proof.
  unfold ae_pass, instance_count. intros H.
  change (0, 0) with (counters ae_init).
  erewrite for_each_sim with (f := counters); [reflexivity| |exact H].
  intros item s s' _. apply ae_line_count.
Qed.

End ArgumentExtraction.

(** ** The positive label set *)

Lemma list_remove_absent (x : pystr) (l : list pystr) :
  ~ In x l -> list_remove x l = Err ValueError.
Proof.
  induction l as [|y l IH]; intros H; simpl; [reflexivity|].
  destruct (pystr_eqb y x) eqn:E.
  - apply pystr_eqb_eq in E. subst. exfalso. apply H. left; reflexivity.
  - rewrite IH; [reflexivity|]. intros Hin. apply H. right; assumption.
Qed.

Lemma list_remove_present (x : pystr) (l : list pystr) :
  In x l -> NoDup l ->
  exists r, list_remove x l = Ok r
            /\ forall y, In y r <-> In y l /\ y <> x.
Proof.
  induction l as [|z l IH]; intros Hin Hnd; [destruct Hin|].
  inversion Hnd as [|? ? Hz Hl]; subst. simpl.
  destruct (pystr_eqb z x) eqn:E.
  - apply pystr_eqb_eq in E. subst z. exists l. split; [reflexivity|].
    intros y. split.
    + intros Hy. split; [right; assumption|]. intros ->. contradiction.
    + intros [[->|Hy] Hne]; [contradiction | assumption].
  - apply pystr_eqb_neq in E. destruct Hin as [->|Hin]; [contradiction|].
    destruct (IH Hin Hl) as (r & -> & Hr). simpl.
    exists (z :: r). split; [reflexivity|].
    intros y. simpl. rewrite Hr. split.
    + intros [<-|[Hy Hne]]; [split; [left; reflexivity | assumption]|].
      split; [right; assumption | assumption].
    + intros [[<-|Hy] Hne]; [left; reflexivity | right; split; assumption].
Qed.

Section Scoring.

Variable score : Type.
Variable f1_score : list pystr -> list pystr -> list pystr -> result score.
Variable percent : score -> score.

Lemma micro_f1_without_NA (label_names results : list pystr) :
  ~ In NA label_names ->
  micro_f1_of f1_score percent label_names results = Err ValueError.
Proof.
  intros H. unfold micro_f1_of, list_set.
  rewrite list_remove_absent; [reflexivity|].
  rewrite nodup_In. assumption.
Qed.

Lemma micro_f1_with_NA (label_names results : list pystr) :
  In NA label_names ->
  exists pos_labels,
    (forall y, In y pos_labels <-> In y label_names /\ y <> NA)
    /\ micro_f1_of f1_score percent label_names results
       = (f <- f1_score label_names results pos_labels ;; Ok (percent f)).
Proof.
  intros H. unfold micro_f1_of, list_set.
  destruct (list_remove_present NA (nodup (list_eq_dec N.eq_dec) label_names))
    as (r & -> & Hr).
  - rewrite nodup_In. assumption.
  - apply NoDup_nodup.
  - exists r. split; [|reflexivity].
    intros y. rewrite Hr, nodup_In. reflexivity.
Qed.

End Scoring.

(** ** Scoring without an [NA] label *)

(** C10. Both converters form the positive label set by removing ["NA"] from
    the distinct gold labels, without a test that it is there: when no
    candidate was labeled ["NA"] the scoring step raises [ValueError], in
    argument extraction always and in event detection whenever it scores
    (the last line has gold events); when some candidate was, the positive
    labels are the gold labels other than ["NA"]. *)
Theorem scoring_requires_NA_label
  (id2label : Type)
  (get_pred_per_mention : nat -> nat -> pred_row -> id2label -> result pystr)
  (score : Type)
  (f1_score : list pystr -> list pystr -> list pystr -> result score)
  (percent : score -> score)
  (data_args : DataArgs id2label) (preds : list pred_row)
  (is_overflow : list bool) :
  (forall label_names results,
      ~ In NA label_names ->
      micro_f1_of f1_score percent label_names results = Err ValueError)
  /\ (forall label_names results,
         In NA label_names ->
         exists pos_labels,
           (forall y, In y pos_labels <-> In y label_names /\ y <> NA)
           /\ micro_f1_of f1_score percent label_names results
              = (f <- f1_score label_names results pos_labels ;;
                 Ok (percent f)))
  /\ (forall lines st,
         ae_pass get_pred_per_mention data_args preds is_overflow lines = Ok st ->
         length preds = eae_instance_idx st ->
         ~ In NA (ae_label_names st) ->
         get_ace2005_argument_extraction_sl get_pred_per_mention f1_score
           percent data_args preds is_overflow lines = Err ValueError)
  /\ (forall lines st item evs,
         td_pass get_pred_per_mention data_args preds is_overflow lines = Ok st ->
         td_item st = Some item ->
         events item = Some evs ->
         ~ In NA (td_label_names st) ->
         get_ace2005_trigger_detection_sl get_pred_per_mention f1_score
           percent data_args preds is_overflow lines = Err ValueError).
Proof.
  split; [|split; [|split]].
  - intros. apply micro_f1_without_NA. assumption.
  - intros. apply micro_f1_with_NA. assumption.
  - intros lines st Hpass Hlen Hna.
    unfold get_ace2005_argument_extraction_sl. rewrite Hpass. simpl.
    rewrite Hlen, Nat.eqb_refl. simpl.
    rewrite micro_f1_without_NA by assumption. reflexivity.
  - intros lines st item evs Hpass Hitem Hev Hna.
    unfold get_ace2005_trigger_detection_sl. rewrite Hpass. simpl.
    rewrite Hitem, Hev.
    rewrite micro_f1_without_NA by assumption. reflexivity.
Qed.

Lemma scoring_requires_NA_label_witness :
  micro_f1_of no_score (fun s => s) [str "Attack"] [str "Attack"]
  = Err ValueError
  /\ (exists pos_labels,
         (forall y, In y pos_labels
                    <-> In y [str "Attack"; NA; str "Attack"] /\ y <> NA)
         /\ micro_f1_of no_score (fun s => s)
              [str "Attack"; NA; str "Attack"] [NA; NA; str "Attack"]
            = (f <- no_score [str "Attack"; NA; str "Attack"]
                     [NA; NA; str "Attack"] pos_labels ;;
               Ok f))
  /\ get_ace2005_argument_extraction_sl first_word_label no_score
       (fun s => s) (sample_args English mode_default true None)
       [[0; 0; 1; 0; 0; 0]%Z] [false] [positive_only_doc] = Err ValueError
  /\ get_ace2005_trigger_detection_sl first_word_label no_score (fun s => s)
       (sample_args English mode_default true None) [[0; 1; 0; 0; 0; 0]%Z]
       [false] [positive_only_doc] = Err ValueError.
Proof.
  pose proof (scoring_requires_NA_label _ first_word_label _ no_score
                (fun s => s) (sample_args English mode_default true None)
                [[0; 0; 1; 0; 0; 0]%Z] [false]) as (H1 & H2 & H3 & _).
  pose proof (scoring_requires_NA_label _ first_word_label _ no_score
                (fun s => s) (sample_args English mode_default true None)
                [[0; 1; 0; 0; 0; 0]%Z] [false]) as (_ & _ & _ & H4).
  repeat apply conj.
  - apply H1. vm_compute. intros [H|[]]. discriminate H.
  - apply H2. right. left. reflexivity.
  - eapply H3.
    + vm_compute. reflexivity.
    + reflexivity.
    + vm_compute. intros [H|[]]. discriminate H.
  - eapply H4.
    + vm_compute. reflexivity.
    + reflexivity.
    + reflexivity.
    + vm_compute. intros [H|[]]. discriminate H.
Defined.

(** ** Counting triggers *)

Lemma for_each_inv {A S} (I : S -> Prop) (body : A -> S -> result S)
  (xs : list A) :
  (forall x s s', I s -> body x s = Ok s' -> I s') ->
  forall s s', I s -> for_each body xs s = Ok s' -> I s'.
Proof.
  intros Hstep. induction xs as [|x xs IH]; intros s s' HI H; simpl in H.
  - injection H as <-. assumption.
  - apply bind_Ok_inv in H as (s1 & Hx & Hrest).
    eapply IH; [|exact Hrest]. eapply Hstep; eassumption.
Qed.

Lemma for_each_sum {A S} (f : S -> nat) (g : A -> nat)
  (body : A -> S -> result S) (xs : list A) :
  (forall x s s', body x s = Ok s' -> f s' = f s + g x) ->
  forall s s', for_each body xs s = Ok s' ->
               f s' = f s + list_sum (map g xs).
Proof.
  intros Hstep. induction xs as [|x xs IH]; intros s s' H; simpl in H.
  - injection H as <-. simpl. lia.
  - apply bind_Ok_inv in H as (s1 & Hx & Hrest).
    rewrite (IH _ _ Hrest), (Hstep _ _ _ Hx). simpl. lia.
Qed.

Lemma list_sum_const {A} (xs : list A) :
  list_sum (map (fun _ => 1) xs) = length xs.
Proof. induction xs as [|x xs IH]; simpl; [reflexivity | rewrite IH; reflexivity]. Qed.

Lemma length_flat_map_sum {A B} (f : A -> list B) (xs : list A) :
  length (flat_map f xs) = list_sum (map (fun x => length (f x)) xs).
Proof.
  induction xs as [|x xs IH]; simpl; [reflexivity|].
  rewrite length_app, IH. reflexivity.
Qed.

Section TriggerIndex.

Variable id2label : Type.
Variable data_args : DataArgs id2label.

Lemma resolve_type_past_bound (ep : list pystr) (idx : nat) (ty : pystr) :
  golden_trigger data_args = false ->
  event_preds data_args = Some ep ->
  length ep <= idx ->
  resolve_type data_args idx ty = Err IndexError.
Proof.
  intros Hg Hep Hle. unfold resolve_type, index. rewrite Hg, Hep.
  destruct (nth_error ep idx) eqn:E; [|reflexivity].
  assert (idx < length ep) by (apply nth_error_Some; congruence). lia.
Qed.

Lemma resolve_type_gold (idx : nat) (ty : pystr) :
  golden_trigger data_args = true \/ event_preds data_args = None ->
  resolve_type data_args idx ty = Ok ty.
Proof.
  unfold resolve_type. intros [-> | ->]; [reflexivity|].
  destruct (golden_trigger data_args); reflexivity.
Qed.

Lemma count_trigger_step (gate : pystr -> bool) (ty : pystr) (c c' : nat * nat) :
  count_trigger data_args gate ty c = Ok c' ->
  fst c' = fst c + 1 /\ within_event_preds data_args c'.
Proof.
  unfold count_trigger. intros H.
  apply bind_Ok_inv in H as (p & Hp & H). injection H as <-. simpl.
  split; [reflexivity|].
  intros Hg ep Hep. simpl.
  unfold resolve_type, index in Hp. rewrite Hg, Hep in Hp.
  destruct (nth_error ep (fst c)) eqn:E; [|discriminate].
  assert (fst c < length ep) by (apply nth_error_Some; congruence). lia.
Qed.

Lemma count_line_step (item : Document) (c c' : nat * nat) :
  within_event_preds data_args c ->
  count_line data_args item c = Ok c' ->
  fst c' = fst c + num_triggers item /\ within_event_preds data_args c'.
Proof.
  unfold count_line. intros HI H.
  apply bind_Ok_inv in H as (evs & Hevs & H).
  apply bind_Ok_inv in H as (c1 & Hev & H).
  apply bind_Ok_inv in H as (negs & Hnegs & H).
  destruct (events item) as [evs'|] eqn:Eev; [|discriminate].
  injection Hevs as ->.
  destruct (negative_triggers item) as [negs'|] eqn:Eneg; [|discriminate].
  injection Hnegs as ->.
  assert (Hpos : fst c1 = fst c + length (flat_map triggers evs)).
  { rewrite length_flat_map_sum.
    eapply for_each_sum with (f := fst); [|exact Hev].
    intros ev s s' Hs. rewrite <- list_sum_const.
    eapply for_each_sum with (f := fst); [|exact Hs].
    intros t u u' Hu. apply count_trigger_step in Hu. tauto. }
  assert (Hneg : fst c' = fst c1 + length negs).
  { rewrite <- list_sum_const.
    eapply for_each_sum with (f := fst); [|exact H].
    intros t u u' Hu. apply count_trigger_step in Hu. tauto. }
  split.
  - unfold num_triggers, positive_triggers. rewrite Eev, Eneg. lia.
  - eapply for_each_inv with (I := within_event_preds data_args); [| |exact H].
    + intros t u u' _ Hu. apply count_trigger_step in Hu. tauto.
    + eapply for_each_inv with (I := within_event_preds data_args); [| |exact Hev].
      * intros ev s s' Hs Hb.
        eapply for_each_inv with (I := within_event_preds data_args); [| |exact Hb].
        -- intros t u u' _ Hu. apply count_trigger_step in Hu. tauto.
        -- assumption.
      * assumption.
Qed.

(** When the gate count is defined, every trigger found its prediction *)
Lemma instance_count_triggers (lines : list Document) (n : nat) :
  instance_count data_args lines = Ok n ->
  within_event_preds data_args (total_triggers lines, n).
Proof.
  unfold instance_count. intros H.
  apply bind_Ok_inv in H as (c & Hc & H). injection H as <-.
  assert (G : forall ls c0 c1,
             within_event_preds data_args c0 ->
             for_each (count_line data_args) ls c0 = Ok c1 ->
             fst c1 = fst c0 + total_triggers ls /\ within_event_preds data_args c1).
  { induction ls as [|l ls IH]; intros c0 c1 HI Hls; simpl in Hls.
    - injection Hls as <-. unfold total_triggers. simpl. split; [lia|assumption].
    - apply bind_Ok_inv in Hls as (c2 & Hl & Hls).
      destruct (count_line_step _ _ _ HI Hl) as [E2 I2].
      destruct (IH _ _ I2 Hls) as [E1 I1].
      split; [|assumption]. unfold total_triggers in *. simpl. lia. }
  destruct (G lines (0, 0) c) as [E HI]; [|assumption|].
  - intros _ ep _. simpl. lia.
  - intros Hg ep Hep. specialize (HI Hg ep Hep). simpl in *. lia.
Qed.

End TriggerIndex.

(** ** The pass of the sequence-to-sequence processor *)

Section Seq2SeqProperties.

Variable get_words : pystr -> pystr -> result (list pystr).
Variable is_training : bool.
Variable config_golden_trigger : bool.
Variable self_event_preds : option (list pystr).
Variable language0 : pystr.

#[local] Abbreviation resolve :=
  (s2s_resolve is_training config_golden_trigger self_event_preds).
#[local] Abbreviation positive_step mode :=
  (s2s_positive_trigger is_training config_golden_trigger mode
     self_event_preds).
#[local] Abbreviation negative_step mode :=
  (s2s_negative_trigger is_training config_golden_trigger mode
     self_event_preds).
#[local] Abbreviation candidate_step := (s2s_candidate self_event_preds).
#[local] Abbreviation line_step mode :=
  (s2s_line get_words is_training config_golden_trigger mode self_event_preds
     language0).
#[local] Abbreviation read mode :=
  (read_examples get_words is_training config_golden_trigger mode
     self_event_preds language0).

Lemma s2s_resolve_past_bound (ep : list pystr) (st : s2s_state) :
  is_training = false -> config_golden_trigger = false ->
  self_event_preds = Some ep ->
  length ep <= s2s_trigger_idx st ->
  resolve st = Err IndexError.
Proof.
  intros Ht Hg Hep Hle. unfold s2s_resolve, index. rewrite Ht, Hg, Hep. simpl.
  destruct (nth_error ep (s2s_trigger_idx st)) eqn:E; [|reflexivity].
  assert (s2s_trigger_idx st < length ep) by (apply nth_error_Some; congruence).
  lia.
Qed.

Lemma s2s_positive_trigger_idx mode words ws kwargs event trigger st st' :
  positive_step mode words ws kwargs event trigger st = Ok st' ->
  s2s_trigger_idx st' = s2s_trigger_idx st + 1.
Proof.
  unfold s2s_positive_trigger. intros H.
  apply bind_Ok_inv in H as (p & _ & H).
  destruct (_ && _) in H; injection H as <-; reflexivity.
Qed.

Lemma s2s_negative_trigger_idx mode words kwargs neg st st' :
  negative_step mode words kwargs neg st = Ok st' ->
  s2s_trigger_idx st' = s2s_trigger_idx st + 1.
Proof.
  unfold s2s_negative_trigger. intros H.
  apply bind_Ok_inv in H as (p & _ & H).
  destruct (pystr_eqb mode mode_loose); [injection H as <-; reflexivity|].
  destruct (str_in mode _); [|discriminate].
  destruct (negb _) in H; injection H as <-; reflexivity.
Qed.

Lemma s2s_candidate_idx words kwargs candi st st' :
  candidate_step words kwargs candi st = Ok st' ->
  s2s_trigger_idx st' = s2s_trigger_idx st + 1.
Proof.
  unfold s2s_candidate. intros H.
  apply bind_Ok_inv in H as (p & _ & H).
  destruct (negb _) in H; injection H as <-; reflexivity.
Qed.

Lemma s2s_set_language_idx item st :
  s2s_trigger_idx (s2s_set_language item st) = s2s_trigger_idx st.
Proof. unfold s2s_set_language. destruct (source item); reflexivity. Qed.

Lemma s2s_line_idx mode item st st' :
  line_step mode item st = Ok st' ->
  s2s_trigger_idx st' = s2s_trigger_idx st + num_triggers item.
Proof.
  unfold s2s_line, num_triggers, positive_triggers. intros H.
  apply bind_Ok_inv in H as (words & _ & H).
  rewrite <- (s2s_set_language_idx item st).
  destruct (events item) as [evs|].
  - apply bind_Ok_inv in H as (st1 & Hev & H).
    apply bind_Ok_inv in H as (negs & Hnegs & H).
    destruct (negative_triggers item) as [negs'|]; [|discriminate].
    injection Hnegs as ->.
    assert (Hneg : s2s_trigger_idx st' = s2s_trigger_idx st1 + length negs).
    { rewrite <- list_sum_const.
      eapply for_each_sum with (f := s2s_trigger_idx); [|exact H].
      intros x s s'. apply s2s_negative_trigger_idx. }
    assert (Hpos : s2s_trigger_idx st1
                   = s2s_trigger_idx (s2s_set_language item st)
                     + length (flat_map triggers evs)).
    { rewrite length_flat_map_sum.
      eapply for_each_sum with (f := s2s_trigger_idx); [|exact Hev].
      intros ev s s' Hs. unfold s2s_event in Hs.
      rewrite <- list_sum_const.
      change (s2s_trigger_idx s)
        with (s2s_trigger_idx (s2s_bind_event ev s)).
      eapply for_each_sum with (f := s2s_trigger_idx); [|exact Hs].
      intros x u u'. apply s2s_positive_trigger_idx. }
    lia.
  - apply bind_Ok_inv in H as (cands & Hc & H).
    destruct (candidates item) as [cands'|]; [|discriminate].
    injection Hc as ->.
    rewrite <- list_sum_const.
    eapply for_each_sum with (f := s2s_trigger_idx); [|exact H].
    intros x s s'. apply s2s_candidate_idx.
Qed.

(** The method returns only when the prediction file has one entry per
    trigger *)
Lemma read_examples_aligned mode lines st ep :
  self_event_preds = Some ep ->
  read mode lines = Ok st ->
  length ep = total_triggers lines.
Proof.
  intros Hep H. unfold read_examples in H.
  apply bind_Ok_inv in H as (st1 & Hpass & H).
  rewrite Hep in H.
  apply bind_Ok_inv in H as (u & Hassert & _).
  unfold py_assert in Hassert.
  destruct (Nat.eqb_spec (s2s_trigger_idx st1) (length ep)) as [E|];
    [clear Hassert | discriminate].
  rewrite <- E. unfold total_triggers.
  change (s2s_trigger_idx st1
          = s2s_trigger_idx (s2s_init language0)
            + list_sum (map num_triggers lines)).
  eapply for_each_sum with (f := s2s_trigger_idx); [|exact Hpass].
  intros x s s'. apply s2s_line_idx.
Qed.

End Seq2SeqProperties.

(** ** Misaligned predictions *)

Lemma not_Ok_Err {A} (r : result A) :
  (forall a, r <> Ok a) -> exists e, r = Err e.
Proof.
  destruct r as [a|e]; intros H; [exfalso; apply (H a); reflexivity | eauto].
Qed.

(** C3. The argument-extraction converter raises [AssertionError] when the
    pass ends with an instance count other than the number of prediction
    rows, and returns nothing whenever the prediction rows are fewer (or
    more) than the instances the gate lets through; a trigger whose index is
    past the end of the prediction file raises [IndexError], in the converter
    and in the sequence-to-sequence processor, so that a prediction file
    shorter than the triggers (for the processor: of any other length) makes
    both fail. These two exceptions are the spec's PredictionAlignmentError. *)
Theorem prediction_alignment_fatal
  (id2label : Type)
  (get_pred_per_mention : nat -> nat -> pred_row -> id2label -> result pystr)
  (score : Type)
  (f1_score : list pystr -> list pystr -> list pystr -> result score)
  (percent : score -> score)
  (data_args : DataArgs id2label) (preds : list pred_row)
  (is_overflow : list bool)
  (get_words : pystr -> pystr -> result (list pystr))
  (is_training golden : bool) (mode language0 : pystr)
  (self_event_preds : option (list pystr)) :
  (forall lines st,
      ae_pass get_pred_per_mention data_args preds is_overflow lines = Ok st ->
      length preds <> eae_instance_idx st ->
      get_ace2005_argument_extraction_sl get_pred_per_mention f1_score percent
        data_args preds is_overflow lines = Err AssertionError)
  /\ (forall lines n,
         instance_count data_args lines = Ok n ->
         length preds <> n ->
         exists e,
           get_ace2005_argument_extraction_sl get_pred_per_mention f1_score
             percent data_args preds is_overflow lines = Err e)
  /\ (forall ep item event trigger neg st,
         golden_trigger data_args = false ->
         event_preds data_args = Some ep ->
         length ep <= trigger_idx st ->
         ae_positive_trigger get_pred_per_mention data_args preds is_overflow
           item event trigger st = Err IndexError
         /\ ae_negative_trigger get_pred_per_mention data_args preds
              is_overflow item neg st = Err IndexError)
  /\ (forall ep lines,
         golden_trigger data_args = false ->
         event_preds data_args = Some ep ->
         length ep < total_triggers lines ->
         exists e,
           get_ace2005_argument_extraction_sl get_pred_per_mention f1_score
             percent data_args preds is_overflow lines = Err e)
  /\ (forall ep words ws kwargs event trigger neg st,
         is_training = false -> golden = false ->
         self_event_preds = Some ep ->
         length ep <= s2s_trigger_idx st ->
         s2s_positive_trigger is_training golden mode self_event_preds
           words ws kwargs event trigger st = Err IndexError
         /\ s2s_negative_trigger is_training golden mode self_event_preds
              words kwargs neg st = Err IndexError
         /\ s2s_candidate self_event_preds words kwargs neg st
            = Err IndexError)
  /\ (forall ep lines,
         self_event_preds = Some ep ->
         length ep <> total_triggers lines ->
         exists e,
           read_examples get_words is_training golden mode self_event_preds
             language0 lines = Err e).
Proof.
  repeat split.
  - intros lines st Hpass Hne.
    unfold get_ace2005_argument_extraction_sl. rewrite Hpass. simpl.
    destruct (Nat.eqb_spec (length preds) (eae_instance_idx st));
      [contradiction | reflexivity].
  - intros lines n Hn Hne. apply not_Ok_Err. intros out H.
    unfold get_ace2005_argument_extraction_sl in H.
    apply bind_Ok_inv in H as (st & Hpass & H).
    apply bind_Ok_inv in H as (u & Hassert & _).
    apply ae_pass_count in Hpass. rewrite Hpass in Hn. injection Hn as <-.
    unfold py_assert in Hassert.
    destruct (Nat.eqb_spec (length preds) (eae_instance_idx st));
      [contradiction | discriminate].
  - unfold ae_positive_trigger.
    rewrite (resolve_type_past_bound _ data_args ep) by assumption.
    reflexivity.
  - unfold ae_negative_trigger.
    rewrite (resolve_type_past_bound _ data_args ep) by assumption.
    reflexivity.
  - intros ep lines Hg Hep Hlt. apply not_Ok_Err. intros out H.
    unfold get_ace2005_argument_extraction_sl in H.
    apply bind_Ok_inv in H as (st & Hpass & _).
    apply ae_pass_count in Hpass.
    apply instance_count_triggers in Hpass.
    specialize (Hpass Hg ep Hep). simpl in Hpass. lia.
  - unfold s2s_positive_trigger.
    rewrite (s2s_resolve_past_bound is_training golden self_event_preds ep)
      by assumption.
    reflexivity.
  - unfold s2s_negative_trigger.
    rewrite (s2s_resolve_past_bound is_training golden self_event_preds ep)
      by assumption.
    reflexivity.
  - unfold s2s_candidate, index.
    match goal with H : self_event_preds = Some _ |- _ => rewrite H end.
    destruct (nth_error ep (s2s_trigger_idx st)) eqn:E; [|reflexivity].
    assert (s2s_trigger_idx st < length ep)
      by (apply nth_error_Some; congruence).
    lia.
  - intros ep lines Hep Hne. apply not_Ok_Err. intros st H.
    apply Hne.
    eapply read_examples_aligned; eassumption.
Qed.

Lemma prediction_alignment_fatal_witness :
  get_ace2005_argument_extraction_sl first_word_label no_score (fun s => s)
    (word_args mode_strict true None) [word_row; word_row] [false; false]
    [sample_doc] = Err AssertionError
  /\ (exists e,
         get_ace2005_argument_extraction_sl first_word_label no_score
           (fun s => s) (word_args mode_strict true None) [] [false]
           [sample_doc] = Err e)
  /\ ae_negative_trigger first_word_label
       (word_args mode_strict false (Some [str "Attack"])) [word_row] [false]
       sample_doc neg_saw
       {| trigger_idx := 1; eae_instance_idx := 1;
          ae_results := []; ae_label_names := [] |} = Err IndexError
  /\ (exists e,
         get_ace2005_argument_extraction_sl first_word_label no_score
           (fun s => s) (word_args mode_strict false (Some [str "Attack"]))
           [word_row] [false] [sample_doc] = Err e)
  /\ s2s_candidate (Some [str "Attack"]) [] [] neg_saw
       {| s2s_trigger_idx := 1; examples := []; golden_arguments := [];
          config_language := English; loop_event := None |} = Err IndexError
  /\ (exists e,
         read_examples sample_get_words false false mode_strict
           (Some [str "Attack"]) English [sample_doc] = Err e).
Proof.
  pose proof (prediction_alignment_fatal _ first_word_label _ no_score
                (fun s => s) (word_args mode_strict true None)
                [word_row; word_row] [false; false] sample_get_words
                false false mode_strict English None) as (H1 & _).
  pose proof (prediction_alignment_fatal _ first_word_label _ no_score
                (fun s => s) (word_args mode_strict true None)
                [] [false] sample_get_words
                false false mode_strict English None) as (_ & H2 & _).
  pose proof (prediction_alignment_fatal _ first_word_label _ no_score
                (fun s => s)
                (word_args mode_strict false (Some [str "Attack"]))
                [word_row] [false] sample_get_words
                false false mode_strict English (Some [str "Attack"]))
    as (_ & _ & H3 & H4 & H5 & H6).
  repeat apply conj.
  - eapply H1; vm_compute; [reflexivity | intros H; discriminate H].
  - eapply H2; vm_compute; [reflexivity | intros H; discriminate H].
  - apply (H3 [str "Attack"] sample_doc attack_event attack_trigger);
      vm_compute; reflexivity || lia.
  - apply (H4 [str "Attack"]); vm_compute; reflexivity || lia.
  - apply (H5 [str "Attack"] [] [] [] attack_event attack_trigger);
      vm_compute; reflexivity || lia.
  - apply (H6 [str "Attack"]); vm_compute;
      [reflexivity | intros H; discriminate H].
Defined.

(** ** Evaluation modes *)

Lemma result_rel_refl {A} (r : result A) : result_rel eq r r.
Proof. destruct r; reflexivity. Qed.

Section ModeOrder.

Variable id2label : Type.
Variable data_args : DataArgs id2label.
Variables mode1 mode2 : pystr.

Hypothesis positive_gate_le :
  forall p, gate_positive (with_mode data_args mode1) p = true ->
            gate_positive (with_mode data_args mode2) p = true.
Hypothesis negative_gate_le :
  forall p, gate_negative (with_mode data_args mode1) p = true ->
            gate_negative (with_mode data_args mode2) p = true.

Lemma count_trigger_mono (gate1 gate2 : pystr -> bool) (ty : pystr)
  (c1 c2 : nat * nat) :
  (forall p, gate1 p = true -> gate2 p = true) ->
  count_le c1 c2 ->
  result_rel count_le
    (count_trigger (with_mode data_args mode1) gate1 ty c1)
    (count_trigger (with_mode data_args mode2) gate2 ty c2).
Proof.
  intros Hg [Hi Hn]. unfold count_trigger.
  change (resolve_type (with_mode data_args mode1))
    with (resolve_type data_args).
  change (resolve_type (with_mode data_args mode2))
    with (resolve_type data_args).
  rewrite Hi.
  destruct (resolve_type data_args (fst c2) ty) as [p|e]; simpl;
    [|reflexivity].
  unfold count_le; simpl. split; [lia|].
  specialize (Hg p). destruct (gate1 p), (gate2 p); try lia.
Qed.

Lemma count_line_mono (item : Document) (c1 c2 : nat * nat) :
  count_le c1 c2 ->
  result_rel count_le
    (count_line (with_mode data_args mode1) item c1)
    (count_line (with_mode data_args mode2) item c2).
Proof.
  intros Hc. unfold count_line.
  apply bind_rel with (R := eq); [apply result_rel_refl|].
  intros evs ? <-.
  eapply bind_rel with (R := count_le).
  - apply for_each_rel; [|assumption].
    intros ev s s' Hs. apply for_each_rel; [|assumption].
    intros t u u' Hu. apply count_trigger_mono; assumption.
  - intros d1 d2 Hd.
    apply bind_rel with (R := eq); [apply result_rel_refl|].
    intros negs ? <-.
    apply for_each_rel; [|assumption].
    intros t u u' Hu. apply count_trigger_mono; assumption.
Qed.

Lemma instance_count_mono (lines : list Document) :
  result_rel le
    (instance_count (with_mode data_args mode1) lines)
    (instance_count (with_mode data_args mode2) lines).
Proof.
  unfold instance_count.
  apply bind_rel with (R := count_le).
  - apply for_each_rel; [|split; simpl; lia].
    intros item s s'. apply count_line_mono.
  - intros c1 c2 [_ Hle]. exact Hle.
Qed.

End ModeOrder.

Lemma loose_le_default_gates {id2label} (data_args : DataArgs id2label) :
  (forall p, gate_positive (with_mode data_args mode_loose) p = true ->
             gate_positive (with_mode data_args mode_default) p = true)
  /\ (forall p, gate_negative (with_mode data_args mode_loose) p = true ->
                gate_negative (with_mode data_args mode_default) p = true).
Proof.
  split; intros p; unfold gate_positive, gate_negative; simpl eae_eval_mode.
  - change (str_in mode_loose [mode_default; mode_loose]) with true.
    change (str_in mode_default [mode_default; mode_loose]) with true.
    trivial.
  - change (str_in mode_loose [mode_default; mode_strict]) with false.
    discriminate.
Qed.

Lemma default_le_strict_gates {id2label} (data_args : DataArgs id2label) :
  (forall p, gate_positive (with_mode data_args mode_default) p = true ->
             gate_positive (with_mode data_args mode_strict) p = true)
  /\ (forall p, gate_negative (with_mode data_args mode_default) p = true ->
                gate_negative (with_mode data_args mode_strict) p = true).
Proof.
  split; intros p; unfold gate_positive, gate_negative; simpl eae_eval_mode.
  - change (str_in mode_strict [mode_default; mode_loose]) with false.
    reflexivity.
  - change (str_in mode_default [mode_default; mode_strict]) with true.
    change (str_in mode_strict [mode_default; mode_strict]) with true.
    trivial.
Qed.

Section Seq2SeqModeOrder.

Variable get_words : pystr -> pystr -> result (list pystr).
Variable is_training : bool.
Variable config_golden_trigger : bool.
Variable self_event_preds : option (list pystr).
Variable language0 : pystr.
Variables mode1 mode2 : pystr.

(** [mode2] skips a positive trigger only where [mode1] does, and takes a
    negative trigger wherever [mode1] does; both are modes the method knows *)
Hypothesis positive_skip :
  str_in mode2 [mode_default; mode_loose] = true ->
  str_in mode1 [mode_default; mode_loose] = true.
Hypothesis known_mode1 :
  pystr_eqb mode1 mode_loose = true
  \/ str_in mode1 [mode_default; mode_strict] = true.
Hypothesis known_mode2 :
  pystr_eqb mode2 mode_loose = true
  \/ str_in mode2 [mode_default; mode_strict] = true.
Hypothesis negative_take :
  pystr_eqb mode2 mode_loose = true -> pystr_eqb mode1 mode_loose = true.

Lemma s2s_resolve_le (st1 st2 : s2s_state) :
  s2s_le st1 st2 ->
  s2s_resolve is_training config_golden_trigger self_event_preds st1
  = s2s_resolve is_training config_golden_trigger self_event_preds st2.
Proof.
  intros (Hi & He & _). unfold s2s_resolve. rewrite Hi, He. reflexivity.
Qed.

Lemma s2s_next_le (st1 st2 : s2s_state) :
  s2s_le st1 st2 -> s2s_le (s2s_next_trigger st1) (s2s_next_trigger st2).
Proof.
  intros (Hi & He & Hl). unfold s2s_le; simpl. repeat split; auto; lia.
Qed.

Lemma s2s_add_le ex1 g1 ex2 g2 (st1 st2 : s2s_state) :
  s2s_le st1 st2 -> s2s_le (s2s_add ex1 g1 st1) (s2s_add ex2 g2 st2).
Proof.
  intros (Hi & He & Hl). unfold s2s_le; simpl.
  rewrite !length_app. simpl. repeat split; auto; lia.
Qed.

Lemma s2s_skip_le ex2 g2 (st1 st2 : s2s_state) :
  s2s_le st1 st2 -> s2s_le st1 (s2s_add ex2 g2 st2).
Proof.
  intros (Hi & He & Hl). unfold s2s_le; simpl.
  rewrite !length_app. simpl. repeat split; auto; lia.
Qed.

Lemma s2s_positive_trigger_mono words ws kwargs event trigger st1 st2 :
  s2s_le st1 st2 ->
  result_rel s2s_le
    (s2s_positive_trigger is_training config_golden_trigger mode1
       self_event_preds words ws kwargs event trigger st1)
    (s2s_positive_trigger is_training config_golden_trigger mode2
       self_event_preds words ws kwargs event trigger st2).
Proof.
  intros Hle. unfold s2s_positive_trigger.
  rewrite (s2s_resolve_le _ _ Hle).
  destruct (s2s_resolve _ _ _ st2) as [p|e]; [|reflexivity].
  unfold bind. pose proof (s2s_next_le _ _ Hle) as Hn.
  destruct (str_in mode2 [mode_default; mode_loose]) eqn:E2.
  - rewrite positive_skip by reflexivity.
    destruct (pystr_eqb p NA); simpl; [assumption|].
    apply s2s_add_le; assumption.
  - destruct (str_in mode1 [mode_default; mode_loose] && pystr_eqb p NA);
      simpl; [apply s2s_skip_le | apply s2s_add_le]; assumption.
Qed.

Lemma s2s_negative_trigger_mono words kwargs neg st1 st2 :
  s2s_le st1 st2 ->
  result_rel s2s_le
    (s2s_negative_trigger is_training config_golden_trigger mode1
       self_event_preds words kwargs neg st1)
    (s2s_negative_trigger is_training config_golden_trigger mode2
       self_event_preds words kwargs neg st2).
Proof.
  intros Hle. unfold s2s_negative_trigger.
  rewrite (s2s_resolve_le _ _ Hle).
  destruct (s2s_resolve _ _ _ st2) as [p|e]; [|reflexivity].
  unfold bind. pose proof (s2s_next_le _ _ Hle) as Hn.
  destruct (pystr_eqb mode2 mode_loose) eqn:L2.
  - rewrite negative_take by reflexivity. assumption.
  - destruct known_mode2 as [K2|K2]; [discriminate|]. rewrite K2.
    destruct (pystr_eqb mode1 mode_loose) eqn:L1.
    + destruct (negb (pystr_eqb p NA)); simpl;
        [apply s2s_skip_le | ]; assumption.
    + destruct known_mode1 as [K1|K1]; [discriminate|]. rewrite K1.
      destruct (negb (pystr_eqb p NA)); simpl;
        [apply s2s_add_le | ]; assumption.
Qed.

Lemma s2s_candidate_mono words kwargs candi st1 st2 :
  s2s_le st1 st2 ->
  result_rel s2s_le
    (s2s_candidate self_event_preds words kwargs candi st1)
    (s2s_candidate self_event_preds words kwargs candi st2).
Proof.
  intros Hle. unfold s2s_candidate.
  pose proof (s2s_next_le _ _ Hle) as Hn.
  destruct Hle as (Hi & _ & _). rewrite Hi.
  destruct (match self_event_preds with
            | Some ep => index ep (s2s_trigger_idx st2)
            | None => Err TypeError
            end) as [p|e]; [|reflexivity].
  unfold bind.
  destruct (negb (pystr_eqb p NA)); simpl; [apply s2s_add_le|]; assumption.
Qed.

Lemma s2s_set_language_le item st1 st2 :
  s2s_le st1 st2 ->
  s2s_le (s2s_set_language item st1) (s2s_set_language item st2).
Proof.
  unfold s2s_set_language. destruct (source item); [|trivial].
  intros (Hi & He & Hl). unfold s2s_le; simpl. auto.
Qed.

Lemma s2s_line_mono item st1 st2 :
  s2s_le st1 st2 ->
  result_rel s2s_le
    (s2s_line get_words is_training config_golden_trigger mode1
       self_event_preds language0 item st1)
    (s2s_line get_words is_training config_golden_trigger mode2
       self_event_preds language0 item st2).
Proof.
  intros Hle. unfold s2s_line.
  apply bind_rel with (R := eq); [apply result_rel_refl|].
  intros words ? <-.
  apply s2s_set_language_le with (item := item) in Hle.
  destruct (events item) as [evs|].
  - eapply bind_rel with (R := s2s_le).
    + apply for_each_rel; [|assumption].
      intros ev s s' Hs. unfold s2s_event. apply for_each_rel.
      * intros t u u'. apply s2s_positive_trigger_mono.
      * destruct Hs as (Hi & _ & Hl). unfold s2s_le; simpl. auto.
    + intros d1 d2 Hd.
      apply bind_rel with (R := eq); [apply result_rel_refl|].
      intros negs ? <-. apply for_each_rel; [|assumption].
      intros t u u'. apply s2s_negative_trigger_mono.
  - apply bind_rel with (R := eq); [apply result_rel_refl|].
    intros cands ? <-. apply for_each_rel; [|assumption].
    intros t u u'. apply s2s_candidate_mono.
Qed.

Lemma read_examples_mono (lines : list Document) :
  result_rel s2s_le
    (read_examples get_words is_training config_golden_trigger mode1
       self_event_preds language0 lines)
    (read_examples get_words is_training config_golden_trigger mode2
       self_event_preds language0 lines).
Proof.
  unfold read_examples.
  apply bind_rel with (R := s2s_le).
  - apply for_each_rel; [|unfold s2s_le; simpl; auto].
    intros item s s'. apply s2s_line_mono.
  - intros s s' Hs. destruct self_event_preds as [ep|]; [|exact Hs].
    destruct Hs as (Hi & He & Hl). rewrite Hi.
    destruct (py_assert (s2s_trigger_idx s' =? length ep)) as [[]|e];
      simpl; [|reflexivity].
    unfold s2s_le. auto.
Qed.

End Seq2SeqModeOrder.

Lemma result_rel_weaken {A B} (R Q : A -> B -> Prop) (r1 : result A)
  (r2 : result B) :
  (forall a b, R a b -> Q a b) -> result_rel R r1 r2 -> result_rel Q r1 r2.
Proof.
  destruct r1, r2; simpl; auto.
Qed.

(** C6. For fixed documents and resolver inputs the three modes fail alike
    or all count their instances, and then loose has at most as many as
    default and default at most as many as strict: for the instances the
    gate of the converter lets through, for the instance counter of its
    completed passes, and for the examples of the sequence-to-sequence
    processor. *)
Theorem mode_monotonicity
  (id2label : Type)
  (get_pred_per_mention : nat -> nat -> pred_row -> id2label -> result pystr)
  (data_args : DataArgs id2label)
  (get_words : pystr -> pystr -> result (list pystr))
  (is_training golden : bool) (language0 : pystr)
  (self_event_preds : option (list pystr))
  (lines : list Document) :
  result_rel le
    (instance_count (with_mode data_args mode_loose) lines)
    (instance_count (with_mode data_args mode_default) lines)
  /\ result_rel le
       (instance_count (with_mode data_args mode_default) lines)
       (instance_count (with_mode data_args mode_strict) lines)
  /\ (forall preds1 ov1 preds2 ov2 preds3 ov3 st1 st2 st3,
         ae_pass get_pred_per_mention (with_mode data_args mode_loose)
           preds1 ov1 lines = Ok st1 ->
         ae_pass get_pred_per_mention (with_mode data_args mode_default)
           preds2 ov2 lines = Ok st2 ->
         ae_pass get_pred_per_mention (with_mode data_args mode_strict)
           preds3 ov3 lines = Ok st3 ->
         eae_instance_idx st1 <= eae_instance_idx st2
         /\ eae_instance_idx st2 <= eae_instance_idx st3)
  /\ result_rel fewer_examples
       (read_examples get_words is_training golden mode_loose
          self_event_preds language0 lines)
       (read_examples get_words is_training golden mode_default
          self_event_preds language0 lines)
  /\ result_rel fewer_examples
       (read_examples get_words is_training golden mode_default
          self_event_preds language0 lines)
       (read_examples get_words is_training golden mode_strict
          self_event_preds language0 lines).
Proof.
  assert (H12 := instance_count_mono _ data_args mode_loose mode_default
                   (proj1 (loose_le_default_gates data_args))
                   (proj2 (loose_le_default_gates data_args)) lines).
  assert (H23 := instance_count_mono _ data_args mode_default mode_strict
                   (proj1 (default_le_strict_gates data_args))
                   (proj2 (default_le_strict_gates data_args)) lines).
  split; [exact H12|]. split; [exact H23|]. split; [|split].
  - intros preds1 ov1 preds2 ov2 preds3 ov3 st1 st2 st3 P1 P2 P3.
    apply ae_pass_count in P1, P2, P3.
    rewrite P1, P2 in H12. rewrite P2, P3 in H23. simpl in *. lia.
  - apply result_rel_weaken with (R := s2s_le); [intros a b H; apply H|].
    apply read_examples_mono.
    + intros _. reflexivity.
    + left. reflexivity.
    + right. reflexivity.
    + intros H. discriminate H.
  - apply result_rel_weaken with (R := s2s_le); [intros a b H; apply H|].
    apply read_examples_mono.
    + intros H. discriminate H.
    + right. reflexivity.
    + right. reflexivity.
    + intros H. discriminate H.
Qed.

Lemma mode_monotonicity_witness :
  instance_count (with_mode (word_args mode_default false mixed_preds)
                    mode_loose) [sample_doc] = Ok 0
  /\ instance_count (with_mode (word_args mode_default false mixed_preds)
                       mode_default) [sample_doc] = Ok 1
  /\ instance_count (with_mode (word_args mode_default false mixed_preds)
                       mode_strict) [sample_doc] = Ok 2
  /\ 0 <= 1 <= 2.
Proof.
  repeat split; try (vm_compute; reflexivity).
  - eapply (proj1 (proj2 (proj2
              (mode_monotonicity _ first_word_label
                 (word_args mode_default false mixed_preds)
                 sample_get_words false false English mixed_preds
                 [sample_doc])))
              [] [] [word_row] [false] [word_row; word_row] [false; false]
              {| trigger_idx := 2; eae_instance_idx := 0;
                 ae_results := []; ae_label_names := [] |}
              {| trigger_idx := 2; eae_instance_idx := 1;
                 ae_results := [str "w0"]; ae_label_names := [NA] |}).
    + vm_compute. reflexivity.
    + vm_compute. reflexivity.
    + vm_compute. reflexivity.
  - eapply (proj1 (proj2 (proj2
              (mode_monotonicity _ first_word_label
                 (word_args mode_default false mixed_preds)
                 sample_get_words false false English mixed_preds
                 [sample_doc])))
              [] [] [word_row] [false] [word_row; word_row] [false; false]
              {| trigger_idx := 2; eae_instance_idx := 0;
                 ae_results := []; ae_label_names := [] |}
              {| trigger_idx := 2; eae_instance_idx := 1;
                 ae_results := [str "w0"]; ae_label_names := [NA] |}
              {| trigger_idx := 2; eae_instance_idx := 2;
                 ae_results := [str "w2"; str "w0"; str "w0"];
                 ae_label_names := [str "Victim"; NA; NA] |}).
    + vm_compute. reflexivity.
    + vm_compute. reflexivity.
    + vm_compute. reflexivity.
Defined.

(** ** The gate in strict and in loose mode *)

(** C1 (amended). In strict mode every positive trigger goes on to its
    instance whatever its resolved type, and a negative trigger does so
    exactly when its resolved type is not ["NA"]; in loose mode no negative
    trigger does. An instance that completes advances the instance counter
    by one; in the sequence-to-sequence processor it adds one example. *)
Theorem strict_and_loose_gates
  (id2label : Type)
  (get_pred_per_mention : nat -> nat -> pred_row -> id2label -> result pystr)
  (data_args : DataArgs id2label) (preds : list pred_row)
  (is_overflow : list bool)
  (is_training golden : bool) (self_event_preds : option (list pystr)) :
  let strict := with_mode data_args mode_strict in
  let loose := with_mode data_args mode_loose in
  (forall item event trigger st,
      ae_positive_trigger get_pred_per_mention strict preds is_overflow
        item event trigger st
      = (pred_type <- resolve_type data_args (trigger_idx st) (type event) ;;
         ae_positive_instance get_pred_per_mention strict preds is_overflow
           item trigger (next_trigger st)))
  /\ (forall item neg st,
         ae_negative_trigger get_pred_per_mention strict preds is_overflow
           item neg st
         = (pred_type <- resolve_type data_args (trigger_idx st) NA ;;
            if pystr_eqb pred_type NA then Ok (next_trigger st)
            else ae_negative_instance get_pred_per_mention strict preds
                   is_overflow item (next_trigger st)))
  /\ (forall item neg st,
         ae_negative_trigger get_pred_per_mention loose preds is_overflow
           item neg st
         = (pred_type <- resolve_type data_args (trigger_idx st) NA ;;
            Ok (next_trigger st)))
  /\ (forall item trigger st st',
         ae_positive_instance get_pred_per_mention data_args preds
           is_overflow item trigger st = Ok st' ->
         eae_instance_idx st' = eae_instance_idx st + 1)
  /\ (forall item st st',
         ae_negative_instance get_pred_per_mention data_args preds
           is_overflow item st = Ok st' ->
         eae_instance_idx st' = eae_instance_idx st + 1)
  /\ (forall words ws kwargs event trigger st,
         s2s_positive_trigger is_training golden mode_strict
           self_event_preds words ws kwargs event trigger st
         = (p <- s2s_resolve is_training golden self_event_preds st ;;
            Ok (s2s_add
                  {| example_id := s2s_trigger_idx st + 1 - 1;
                     example_text := words;
                     pred_type := p;
                     true_type := type event;
                     trigger_left := fst (trigger_position trigger);
                     trigger_right := snd (trigger_position trigger);
                     labels := trigger_labels ws trigger;
                     kwargs_source := kwargs |}
                  (arguments_per_trigger trigger) (s2s_next_trigger st))))
  /\ (forall words kwargs neg st,
         s2s_negative_trigger is_training golden mode_strict
           self_event_preds words kwargs neg st
         = (p <- s2s_resolve is_training golden self_event_preds st ;;
            if pystr_eqb p NA then Ok (s2s_next_trigger st)
            else Ok (s2s_add
                       {| example_id := s2s_trigger_idx st + 1 - 1;
                          example_text := words;
                          pred_type := p;
                          true_type := NA;
                          trigger_left := fst (position neg);
                          trigger_right := snd (position neg);
                          labels := [];
                          kwargs_source := kwargs |}
                       [] (s2s_next_trigger st))))
  /\ (forall words kwargs neg st,
         s2s_negative_trigger is_training golden mode_loose
           self_event_preds words kwargs neg st
         = (pred_type <- s2s_resolve is_training golden self_event_preds st ;;
            Ok (s2s_next_trigger st)))
  /\ (forall ex gold st,
         length (examples (s2s_add ex gold st)) = length (examples st) + 1
         /\ examples (s2s_next_trigger st) = examples st).
Proof.
  intros strict loose. repeat apply conj.
  - intros. rewrite positive_trigger_gate. reflexivity.
  - intros. rewrite negative_trigger_gate.
    change (resolve_type strict) with (resolve_type data_args).
    destruct (resolve_type data_args (trigger_idx st) NA) as [p|e];
      [|reflexivity].
    unfold bind, gate_negative.
    change (str_in (eae_eval_mode strict) [mode_default; mode_strict])
      with true.
    destruct (pystr_eqb p NA); reflexivity.
  - intros. rewrite negative_trigger_gate.
    change (resolve_type loose) with (resolve_type data_args).
    destruct (resolve_type data_args (trigger_idx st) NA) as [p|e];
      reflexivity.
  - intros item trigger st st' H.
    apply positive_instance_counters in H. tauto.
  - intros item st st' H.
    apply negative_instance_counters in H. tauto.
  - intros. unfold s2s_positive_trigger.
    destruct (s2s_resolve is_training golden self_event_preds st);
      reflexivity.
  - intros. unfold s2s_negative_trigger.
    destruct (s2s_resolve is_training golden self_event_preds st) as [p|e];
      [|reflexivity].
    unfold bind.
    change (pystr_eqb mode_strict mode_loose) with false.
    change (str_in mode_strict [mode_default; mode_strict]) with true.
    cbv iota. destruct (pystr_eqb p NA); reflexivity.
  - intros. unfold s2s_negative_trigger.
    destruct (s2s_resolve is_training golden self_event_preds st);
      reflexivity.
  - intros. simpl. rewrite length_app. simpl. split; reflexivity.
Qed.

Lemma strict_and_loose_gates_witness :
  (exists st',
      ae_positive_instance first_word_label
        (word_args mode_strict true None) [word_row] [false]
        sample_doc attack_trigger ae_init = Ok st'
      /\ eae_instance_idx st' = eae_instance_idx ae_init + 1)
  /\ (exists st',
         ae_negative_instance first_word_label
           (word_args mode_strict true None) [word_row] [false]
           sample_doc ae_init = Ok st'
         /\ eae_instance_idx st' = eae_instance_idx ae_init + 1).
Proof.
  pose proof (strict_and_loose_gates _ first_word_label
                (word_args mode_strict true None) [word_row] [false]
                false true None) as (_ & _ & _ & Hpos & Hneg & _).
  split; eexists; split.
  - vm_compute. reflexivity.
  - apply (Hpos sample_doc attack_trigger). vm_compute. reflexivity.
  - vm_compute. reflexivity.
  - apply (Hneg sample_doc). vm_compute. reflexivity.
Defined.

(** C1, as stated, fails: in strict mode with gold triggers the document
    with one positive and one negative trigger yields one instance, the
    negative trigger none. *)
Lemma strict_skips_negative_trigger :
  exists out,
    get_ace2005_argument_extraction_sl first_word_label no_score (fun s => s)
      (word_args mode_strict true None) [word_row] [false] [sample_doc]
    = Ok out
    /\ ae_out_results out = [str "w2"; str "w0"]
    /\ ae_out_instances out = 1
    /\ total_triggers [sample_doc] = 2
    /\ ae_negative_trigger first_word_label (word_args mode_strict true None)
         [word_row] [false] sample_doc neg_saw ae_init
       = Ok (next_trigger ae_init).
Proof.
  eexists. split; [vm_compute; reflexivity|].
  repeat split.
Qed.

(** ** The resolved type of a negative trigger *)

(** The converter's resolver returns the gold type it is given, ["NA"] for a
    negative trigger, when gold triggers are asked for or no prediction file
    was loaded *)
Lemma converter_resolves_gold {id2label} (data_args : DataArgs id2label)
  (idx : nat) (true_type : pystr) :
  golden_trigger data_args = true \/ event_preds data_args = None ->
  resolve_type data_args idx true_type = Ok true_type.
Proof. apply resolve_type_gold. Qed.

(** The processor's resolver returns the type of the event its loop variable
    is bound to, for the negative triggers too *)
Lemma processor_resolves_loop_event (is_training golden : bool)
  (self_event_preds : option (list pystr)) (event : Event) (st : s2s_state) :
  is_training = true \/ golden = true \/ self_event_preds = None ->
  loop_event st = Some event ->
  s2s_resolve is_training golden self_event_preds st = Ok (type event).
Proof.
  intros H He. unfold s2s_resolve. rewrite He.
  destruct self_event_preds as [ep|]; [|reflexivity].
  destruct H as [-> | [-> | H]]; [reflexivity | | discriminate].
  rewrite orb_true_r. reflexivity.
Qed.

(** C2, at the failing input. With gold triggers, the processor gives the
    negative trigger of the sample document the type ["Attack"] of the event
    before it, not ["NA"], and makes an example of it; when no event came
    before, the same line raises [UnboundLocalError]. *)
Theorem processor_negative_trigger_type :
  (exists st,
      read_examples sample_get_words false true mode_default None English
        [sample_doc] = Ok st
      /\ map (fun ex => (example_id ex, pred_type ex, true_type ex))
             (examples st)
         = [(0, str "Attack", str "Attack"); (1, str "Attack", NA)])
  /\ read_examples sample_get_words false true mode_default None English
       [{| text := sample_text; events := Some [];
           negative_triggers := Some [neg_saw]; entities := None;
           candidates := None; source := None |}]
     = Err UnboundLocalError
  /\ resolve_type (word_args mode_default true None) 1 NA = Ok NA.
Proof.
  split; [|split].
  - eexists. split; vm_compute; reflexivity.
  - vm_compute. reflexivity.
  - reflexivity.
Qed.

(** ** Negative candidates *)

Lemma py_range_In (lo hi k : Z) :
  In k (py_range lo hi) <-> (lo <= k < hi)%Z.
Proof.
  unfold py_range. rewrite in_map_iff. split.
  - intros [n [<- Hn]]. apply in_seq in Hn. lia.
  - intros H. exists (Z.to_nat (k - lo)). split; [lia|].
    apply in_seq. lia.
Qed.

Lemma isdisjoint_spec (s t : list Z) :
  isdisjoint s t = true <-> forall x, In x s -> ~ In x t.
Proof.
  unfold isdisjoint. rewrite forallb_forall. split.
  - intros H x Hs Ht. specialize (H x Hs). apply negb_true_iff in H.
    assert (E : existsb (Z.eqb x) t = true).
    { apply existsb_exists. exists x. split; [assumption | apply Z.eqb_refl]. }
    congruence.
  - intros H x Hs. apply negb_true_iff.
    destruct (existsb (Z.eqb x) t) eqn:E; [|reflexivity].
    apply existsb_exists in E as [y [Hy Exy]]. apply Z.eqb_eq in Exy. subst y.
    exfalso. apply (H x Hs Hy).
Qed.

Lemma overlaps_argument_false (positive_offsets : list (Z * Z)) (neg : Mention) :
  overlaps_argument positive_offsets neg = false
  <-> forall off, In off positive_offsets -> spans_disjoint off (position neg).
Proof.
  unfold overlaps_argument. split.
  - intros H off Hin k [Hk1 Hk2].
    assert (D : isdisjoint (py_range (fst off) (snd off))
                  (py_range (fst (position neg)) (snd (position neg))) = true).
    { destruct (isdisjoint _ _) eqn:E; [reflexivity|].
      assert (X : existsb
                    (fun pos_offset =>
                       negb (isdisjoint
                               (py_range (fst pos_offset) (snd pos_offset))
                               (py_range (fst (position neg))
                                         (snd (position neg)))))
                    positive_offsets = true).
      { apply existsb_exists. exists off. rewrite E. auto. }
      congruence. }
    rewrite isdisjoint_spec in D.
    apply (D k); apply py_range_In; assumption.
  - intros H.
    destruct (existsb _ positive_offsets) eqn:E; [|reflexivity].
    apply existsb_exists in E as [off [Hin Hov]].
    apply negb_true_iff in Hov.
    assert (D : isdisjoint (py_range (fst off) (snd off))
                  (py_range (fst (position neg)) (snd (position neg))) = true).
    { apply isdisjoint_spec. intros k Hk1 Hk2.
      apply py_range_In in Hk1, Hk2. apply (H off Hin k). split; assumption. }
    congruence.
Qed.

(** The negative candidates of a positive trigger's instance are what the
    claim describes *)
Lemma negative_candidates_spec (item : Document)
  (positive_mentions : list pystr) (positive_offsets : list (Z * Z)) :
  (forall ents,
      entities item = Some ents ->
      exists negs,
        negative_candidates item positive_mentions positive_offsets = Ok negs
        /\ forall m,
             In m negs
             <-> exists entity,
                   In entity ents /\ In m (entity_mentions entity)
                   /\ forall m', In m' (entity_mentions entity) ->
                                 ~ In (mention_id m') positive_mentions)
  /\ (forall triggers,
         entities item = None -> negative_triggers item = Some triggers ->
         exists negs,
           negative_candidates item positive_mentions positive_offsets
           = Ok negs
           /\ forall m,
                In m negs
                <-> In m triggers
                    /\ forall off, In off positive_offsets ->
                                   spans_disjoint off (position m)).
Proof.
  unfold negative_candidates. split.
  - intros ents ->. eexists. split; [reflexivity|].
    intros m. rewrite in_flat_map. split.
    + intros [entity [He Hm]].
      destruct (entity_is_argument positive_mentions entity) eqn:E;
        [destruct Hm|].
      exists entity. repeat split; try assumption.
      intros m' Hm' Hid. unfold entity_is_argument in E.
      assert (X : existsb (fun m0 => str_in (mention_id m0) positive_mentions)
                    (entity_mentions entity) = true).
      { apply existsb_exists. exists m'. split; [assumption|].
        apply str_in_In. assumption. }
      congruence.
    + intros [entity (He & Hm & Hnone)]. exists entity. split; [assumption|].
      destruct (entity_is_argument positive_mentions entity) eqn:E;
        [|assumption].
      unfold entity_is_argument in E.
      apply existsb_exists in E as [m' [Hm' Hid]].
      apply str_in_In in Hid. exfalso. apply (Hnone m' Hm' Hid).
  - intros triggers -> ->. eexists. split; [reflexivity|].
    intros m. rewrite filter_In, negb_true_iff, overlaps_argument_false.
    reflexivity.
Qed.

(** C4, at the failing input. For the negative trigger of a document with
    entity annotation, predicted as an event, the converter takes the
    negative triggers as candidates (the word [w0]) where the rule of the
    positive triggers gives the mentions of the entities ([John], [park]). *)
Theorem negative_trigger_instance_candidates :
  (exists out,
      get_ace2005_argument_extraction_sl first_word_label no_score
        (fun s => s)
        (word_args mode_default false (Some [str "Attack"; str "Attack"]))
        [word_row; word_row] [false; false] [entity_doc] = Ok out
      /\ ae_out_results out = [str "w2"; str "w5"; str "w0"]
      /\ ae_out_instances out = 2)
  /\ negative_candidates entity_doc [] [] = Ok [john; park]
  /\ (exists st,
         ae_negative_instance first_word_label
           (word_args mode_default false (Some [str "Attack"; str "Attack"]))
           [word_row] [false] entity_doc ae_init = Ok st
         /\ ae_results st = [str "w0"]
         /\ ae_label_names st = [NA]).
Proof.
  split; [|split].
  - eexists. repeat split; vm_compute; reflexivity.
  - reflexivity.
  - eexists. repeat split; vm_compute; reflexivity.
Qed.

(** ** Blind inference *)

Lemma for_each_inv_in {A S} (I : S -> Prop) (body : A -> S -> result S)
  (xs : list A) :
  (forall x s s', In x xs -> I s -> body x s = Ok s' -> I s') ->
  forall s s', I s -> for_each body xs s = Ok s' -> I s'.
Proof.
  induction xs as [|x xs IH]; intros Hstep s s' HI H; simpl in H.
  - injection H as <-. assumption.
  - apply bind_Ok_inv in H as (s1 & Hx & Hrest).
    eapply IH; [| |exact Hrest].
    + intros y t t' Hin. apply Hstep. right; assumption.
    + eapply Hstep; [left; reflexivity | eassumption | eassumption].
Qed.

Lemma for_each_sum_in {A S} (f : S -> nat) (g : A -> nat)
  (body : A -> S -> result S) (xs : list A) :
  (forall x s s', In x xs -> body x s = Ok s' -> f s' = f s + g x) ->
  forall s s', for_each body xs s = Ok s' ->
               f s' = f s + list_sum (map g xs).
Proof.
  induction xs as [|x xs IH]; intros Hstep s s' H; simpl in H.
  - injection H as <-. simpl. lia.
  - apply bind_Ok_inv in H as (s1 & Hx & Hrest).
    rewrite (IH (fun y t t' Hin => Hstep y t t' (or_intror Hin)) _ _ Hrest).
    rewrite (Hstep _ _ _ (or_introl eq_refl) Hx). simpl. lia.
Qed.

Lemma list_sum_enumerate {A} (g : A -> nat) (l : list A) :
  list_sum (map (fun p => g (snd p)) (enumerate l)) = list_sum (map g l).
Proof.
  unfold enumerate. generalize 0 as k.
  induction l as [|x l IH]; intros k; simpl; [reflexivity|].
  rewrite IH. reflexivity.
Qed.

Section BlindInference.

Variable id2label : Type.
Variable get_pred_per_mention :
  nat -> nat -> pred_row -> id2label -> result pystr.
Variable score : Type.
Variable f1_score : list pystr -> list pystr -> list pystr -> result score.
Variable percent : score -> score.
Variable data_args : DataArgs id2label.
Variable preds : list pred_row.
Variable is_overflow : list bool.

Lemma td_candidates_blind (item : Document) (cands : list Mention) :
  events item = None -> candidates item = Some cands ->
  td_candidates item = Ok (map CMention cands, []).
Proof.
  intros He Hc. unfold td_candidates. rewrite He, Hc. reflexivity.
Qed.

Lemma convert_candidates_length (id2 : id2label) (idx : nat) (txt : pystr)
  (cands : list Candidate) (results results' : list pystr) :
  convert_candidates get_pred_per_mention data_args preds id2 idx txt cands
    results = Ok results' ->
  length results' = length results + length cands.
Proof.
  intros H. rewrite <- (list_sum_const cands).
  unfold convert_candidates in H.
  eapply for_each_sum with (f := @length pystr); [|exact H].
  intros c r r' Hc. unfold convert_candidate in Hc.
  apply bind_Ok_inv in Hc as (span & _ & Hc).
  apply bind_Ok_inv in Hc as (row & _ & Hc).
  apply bind_Ok_inv in Hc as (pred & _ & Hc).
  injection Hc as <-. rewrite length_app. reflexivity.
Qed.

Lemma td_line_blind (i : nat) (item : Document) (st st' : td_state) :
  events item = None ->
  td_line get_pred_per_mention data_args preds is_overflow (i, item) st
  = Ok st' ->
  td_item st' = Some item /\ td_label_names st' = td_label_names st
  /\ length (td_results st')
     = length (td_results st) + num_candidates item.
Proof.
  intros He H. unfold td_line in H.
  apply bind_Ok_inv in H as (u & _ & H).
  apply bind_Ok_inv in H as (cl & Hcl & H).
  apply bind_Ok_inv in H as (res & Hres & H).
  injection H as <-. simpl. split; [reflexivity|].
  unfold td_candidates in Hcl. rewrite He in Hcl.
  apply bind_Ok_inv in Hcl as (cands & Hc & Hcl). injection Hcl as <-.
  simpl. split; [apply app_nil_r|].
  apply convert_candidates_length in Hres. simpl in Hres.
  rewrite length_map in Hres. unfold num_candidates.
  destruct (candidates item); [|discriminate].
  injection Hc as ->. exact Hres.
Qed.

(** After a pass over blind documents the loop variable holds one of them,
    no label was collected and every candidate has its prediction *)
Lemma td_pass_blind (lines : list Document) (st : td_state) :
  lines <> [] ->
  Forall (fun item => events item = None) lines ->
  td_pass get_pred_per_mention data_args preds is_overflow lines = Ok st ->
  td_label_names st = []
  /\ (exists item, td_item st = Some item /\ events item = None)
  /\ length (td_results st) = list_sum (map num_candidates lines).
Proof.
  intros Hne Hall H. unfold td_pass in H. split; [|split].
  - unfold enumerate in H. destruct lines as [|l lines]; [contradiction|].
    cbn [for_each combine seq length] in H.
    apply bind_Ok_inv in H as (s1 & Hl & H).
    inversion Hall as [|? ? Hl0 Hrest]; subst.
    apply (td_line_blind _ _ _ _ Hl0) in Hl as (Hi & Hn & _).
    eapply for_each_inv_in with (I := fun s => td_label_names s = []);
      [| |exact H].
    + intros [i item] s s' Hin Hs Hstep.
      apply in_combine_r in Hin.
      rewrite Forall_forall in Hrest. specialize (Hrest _ Hin).
      apply (td_line_blind _ _ _ _ Hrest) in Hstep as (_ & Hn' & _).
      congruence.
    + rewrite Hn. reflexivity.
  - unfold enumerate in H. destruct lines as [|l lines]; [contradiction|].
    cbn [for_each combine seq length] in H.
    apply bind_Ok_inv in H as (s1 & Hl & H).
    inversion Hall as [|? ? Hl0 Hrest]; subst.
    apply (td_line_blind _ _ _ _ Hl0) in Hl as (Hi & _ & _).
    eapply for_each_inv_in
      with (I := fun s => exists item,
                           td_item s = Some item /\ events item = None);
      [| |exact H].
    + intros [i item] s s' Hin _ Hstep.
      apply in_combine_r in Hin.
      rewrite Forall_forall in Hrest. specialize (Hrest _ Hin).
      apply (td_line_blind _ _ _ _ Hrest) in Hstep as (Hi' & _ & _). eauto.
    + eauto.
  - rewrite <- list_sum_enumerate.
    assert (G : length (td_results st)
                = length (td_results td_init)
                  + list_sum (map (fun p : nat * Document =>
                                     num_candidates (snd p))
                                  (enumerate lines))); [|exact G].
    eapply for_each_sum_in with (f := fun s => length (td_results s));
      [|exact H].
    intros [i item] s s' Hin Hstep.
    apply in_combine_r in Hin.
    rewrite Forall_forall in Hall. specialize (Hall _ Hin).
    apply (td_line_blind _ _ _ _ Hall) in Hstep as (_ & _ & Hlen).
    exact Hlen.
Qed.

End BlindInference.

(** C8. In event detection over documents that carry [candidates] and no
    gold [events], each document's candidates are taken as they are, no
    label is collected, each candidate gets one prediction, and the function
    is the pass followed by the return of the predictions: no score is
    computed. *)
Theorem blind_inference_skips_scoring
  (id2label : Type)
  (get_pred_per_mention : nat -> nat -> pred_row -> id2label -> result pystr)
  (score : Type)
  (f1_score : list pystr -> list pystr -> list pystr -> result score)
  (percent : score -> score)
  (data_args : DataArgs id2label) (preds : list pred_row)
  (is_overflow : list bool) (lines : list Document) :
  lines <> [] ->
  Forall (fun item => events item = None) lines ->
  (forall item cands,
      In item lines -> candidates item = Some cands ->
      td_candidates item = Ok (map CMention cands, []))
  /\ get_ace2005_trigger_detection_sl get_pred_per_mention f1_score percent
       data_args preds is_overflow lines
     = (st <- td_pass get_pred_per_mention data_args preds is_overflow lines ;;
        Ok {| td_out_results := td_results st; td_out_micro_f1 := None |})
  /\ (forall st,
         td_pass get_pred_per_mention data_args preds is_overflow lines
         = Ok st ->
         td_label_names st = []
         /\ length (td_results st) = list_sum (map num_candidates lines)).
Proof.
  intros Hne Hall. split; [|split].
  - intros item cands Hin Hc. apply td_candidates_blind; [|assumption].
    rewrite Forall_forall in Hall. apply Hall. assumption.
  - unfold get_ace2005_trigger_detection_sl.
    destruct (td_pass get_pred_per_mention data_args preds is_overflow lines)
      as [st|e] eqn:E; [|reflexivity].
    destruct (td_pass_blind _ _ _ _ _ _ _ Hne Hall E)
      as (_ & (item & Hi & He) & _).
    simpl. rewrite Hi, He. reflexivity.
  - intros st E.
    destruct (td_pass_blind _ _ _ _ _ _ _ Hne Hall E) as (Hn & _ & Hl).
    split; assumption.
Qed.

Lemma blind_inference_skips_scoring_witness :
  get_ace2005_trigger_detection_sl first_word_label no_score (fun s => s)
    (word_args mode_default false None) [word_row] [false] [candidate_doc]
  = Ok {| td_out_results := [str "w0"; str "w2"]; td_out_micro_f1 := None |}.
Proof.
  assert (Hne : [candidate_doc] <> []) by discriminate.
  assert (Hall : Forall (fun item => events item = None) [candidate_doc])
    by (repeat constructor).
  rewrite (proj1 (proj2
             (blind_inference_skips_scoring _ first_word_label _ no_score
                (fun s => s) (word_args mode_default false None)
                [word_row] [false] [candidate_doc] Hne Hall))).
  vm_compute. reflexivity.
Defined.

(** ** The label template: encoding and decoding *)

Lemma split_on_free (d : char -> bool) (x : pystr) :
  forallb (fun c => negb (d c)) x = true -> split_on d x = [x].
Proof.
  induction x as [|c x IH]; simpl; [reflexivity|].
  intros H. apply andb_prop in H as [Hc Hx].
  apply negb_true_iff in Hc. rewrite Hc, (IH Hx). reflexivity.
Qed.

Lemma split_on_app (d : char -> bool) (x : pystr) (c : char) (rest : pystr) :
  forallb (fun c => negb (d c)) x = true -> d c = true ->
  split_on d (x ++ c :: rest) = x :: split_on d rest.
Proof.
  intros Hx Hc. induction x as [|a x IH]; simpl.
  - rewrite Hc. reflexivity.
  - simpl in Hx. apply andb_prop in Hx as [Ha Hx].
    apply negb_true_iff in Ha. rewrite Ha, (IH Hx). reflexivity.
Qed.

Lemma forallb_weaken {A} (f g : A -> bool) (l : list A) :
  (forall a, f a = true -> g a = true) ->
  forallb f l = true -> forallb g l = true.
Proof.
  intros Hfg. rewrite !forallb_forall. auto.
Qed.

Lemma lstrip_solid (s : pystr) : starts_solid s = true -> lstrip s = s.
Proof.
  destruct s as [|c s]; simpl; [discriminate|].
  intros H. apply negb_true_iff in H. rewrite H. reflexivity.
Qed.

Lemma rstrip_solid (s : pystr) : starts_solid (rev s) = true -> rstrip s = s.
Proof.
  intros H. unfold rstrip. rewrite lstrip_solid by assumption.
  apply rev_involutive.
Qed.

Lemma starts_solid_app (x y : pystr) :
  starts_solid x = true -> starts_solid (x ++ y) = true.
Proof. destruct x; simpl; [discriminate | trivial]. Qed.

Lemma rstrip_app_solid (x y : pystr) :
  starts_solid (rev y) = true -> rstrip (x ++ y) = x ++ y.
Proof.
  intros H. apply rstrip_solid. rewrite rev_app_distr.
  apply starts_solid_app. assumption.
Qed.

Lemma rstrip_space (x : pystr) : rstrip (x ++ str " ") = rstrip x.
Proof.
  unfold rstrip. rewrite rev_app_distr. reflexivity.
Qed.

Lemma remove_spaces_plain (s : pystr) :
  forallb plain_char s = true -> remove_spaces s = s.
Proof.
  induction s as [|c s IH]; simpl; [reflexivity|].
  intros H. apply andb_prop in H as [Hc Hs].
  unfold plain_char in Hc. apply andb_prop in Hc as [_ Hc].
  rewrite Hc, (IH Hs). reflexivity.
Qed.

Lemma plain_not_template (s : pystr) :
  forallb plain_char s = true ->
  forallb (fun c => negb (template_delim c)) s = true.
Proof.
  apply forallb_weaken. intros c H. unfold plain_char in H.
  apply andb_prop in H as [H _]. apply andb_prop in H as [H _]. exact H.
Qed.

Lemma plain_not_split_word (s : pystr) :
  forallb plain_char s = true ->
  forallb (fun c => negb (split_word_delim c)) s = true.
Proof.
  apply forallb_weaken. intros c H. unfold plain_char in H.
  apply andb_prop in H as [H _]. apply andb_prop in H as [_ H]. exact H.
Qed.

Lemma clean_inv (s : pystr) :
  clean s = true ->
  starts_solid s = true /\ starts_solid (rev s) = true
  /\ forallb plain_char s = true.
Proof.
  unfold clean. intros H.
  apply andb_prop in H as [H H3]. apply andb_prop in H as [H1 H2]. auto.
Qed.

Lemma clean_not_empty (s : pystr) : clean s = true -> is_empty s = false.
Proof. destruct s; [discriminate | reflexivity]. Qed.

Section Template.

Variable instance_id : Z.
Variable event_type : pystr.
Variable whitespace : pystr.
Hypothesis whitespace_cases : whitespace = str " " \/ whitespace = [].

Lemma mention_label_body (r v : pystr) :
  mention_label whitespace r v = type_start ++ template_body whitespace r v ++ type_end.
Proof.
  unfold mention_label, template_body. rewrite <- !app_assoc. reflexivity.
Qed.

Lemma template_body_no_delim (r v : pystr) :
  clean r = true -> clean v = true ->
  forallb (fun c => negb (template_delim c)) (template_body whitespace r v) = true.
Proof.
  intros Hr Hv. apply clean_inv in Hr as (_ & _ & Hr).
  apply clean_inv in Hv as (_ & _ & Hv).
  apply plain_not_template in Hr, Hv.
  unfold template_body. rewrite !forallb_app, Hr, Hv.
  destruct whitespace_cases as [-> | ->]; reflexivity.
Qed.

Lemma strip_template_body (r v : pystr) :
  clean r = true -> clean v = true ->
  py_strip (template_body whitespace r v) = r ++ split_word ++ whitespace ++ v.
Proof.
  intros Hr Hv. apply clean_inv in Hr as (Hr & _ & _).
  apply clean_inv in Hv as (_ & Hv & _).
  unfold py_strip, template_body.
  assert (L : lstrip (whitespace ++ r ++ split_word ++ whitespace ++ v
                        ++ whitespace)
              = r ++ split_word ++ whitespace ++ v ++ whitespace).
  { destruct whitespace_cases as [-> | ->]; simpl;
      apply lstrip_solid, starts_solid_app; assumption. }
  rewrite L.
  replace (r ++ split_word ++ whitespace ++ v ++ whitespace)
    with ((r ++ split_word ++ whitespace ++ v) ++ whitespace)
    by (rewrite <- !app_assoc; reflexivity).
  assert (R : rstrip (r ++ split_word ++ whitespace ++ v)
              = r ++ split_word ++ whitespace ++ v).
  { rewrite !app_assoc. apply rstrip_app_solid. assumption. }
  destruct whitespace_cases as [E | E]; rewrite E in *.
  - rewrite rstrip_space. exact R.
  - rewrite app_nil_r. exact R.
Qed.

Lemma extract_span_template_body (r v : pystr) :
  clean r = true -> clean v = true ->
  extract_span instance_id event_type (template_body whitespace r v)
  = [(instance_id, event_type, r, v)].
Proof.
  intros Hr Hv. unfold extract_span.
  rewrite strip_template_body by assumption.
  pose proof (clean_not_empty _ Hr) as Er.
  pose proof (clean_not_empty _ Hv) as Ev.
  apply clean_inv in Hr as (Hr1 & Hr2 & Hr3).
  apply clean_inv in Hv as (Hv1 & Hv2 & Hv3).
  replace (is_empty (r ++ split_word ++ whitespace ++ v)) with false
    by (destruct r; [discriminate | reflexivity]).
  change (r ++ split_word ++ whitespace ++ v)
    with (r ++ 58%N :: whitespace ++ v).
  rewrite split_on_app; [|apply plain_not_split_word; assumption|reflexivity].
  rewrite split_on_free.
  2:{ rewrite forallb_app, (plain_not_split_word _ Hv3), andb_true_r.
      destruct whitespace_cases as [-> | ->]; reflexivity. }
  assert (Sr : py_strip r = r).
  { unfold py_strip. rewrite lstrip_solid by assumption.
    apply rstrip_solid. assumption. }
  assert (Sv : py_strip (whitespace ++ v) = v).
  { unfold py_strip.
    replace (lstrip (whitespace ++ v)) with v.
    - apply rstrip_solid. assumption.
    - destruct whitespace_cases as [-> | ->]; simpl;
        rewrite lstrip_solid by assumption; reflexivity. }
  rewrite Sr, Sv, !remove_spaces_plain by assumption.
  rewrite Er, Ev. reflexivity.
Qed.

Lemma decode_encode_list (pairs : list (pystr * pystr)) :
  forallb clean_pair pairs = true ->
  flat_map (extract_span instance_id event_type)
           (split_on template_delim (encode whitespace pairs))
  = map (fun p => (instance_id, event_type, fst p, snd p)) pairs.
Proof.
  induction pairs as [|[r v] pairs IH]; intros H; [reflexivity|].
  simpl in H. apply andb_prop in H as [Hp Hps].
  unfold clean_pair in Hp. simpl in Hp. apply andb_prop in Hp as [Hr Hv].
  unfold encode, py_join. cbn [map concat fst snd].
  rewrite mention_label_body.
  change (type_start ++ template_body whitespace r v ++ type_end)
    with (60%N :: template_body whitespace r v ++ [62%N]).
  simpl app. rewrite <- app_assoc. simpl app.
  cbn [split_on]. change (template_delim 60%N) with true. cbv iota.
  rewrite split_on_app;
    [|apply template_body_no_delim; assumption | reflexivity].
  cbn [flat_map].
  rewrite extract_span_template_body by assumption.
  change (extract_span instance_id event_type []) with (@nil argument_tuple).
  simpl app. f_equal. apply IH. assumption.
Qed.

End Template.

Lemma map_flat_map_pairs {A B C} (f : B -> C) (g : A -> list B) (l : list A) :
  map f (flat_map g l) = flat_map (fun x => map f (g x)) l.
Proof.
  induction l as [|x l IH]; simpl; [reflexivity|].
  rewrite map_app, IH. reflexivity.
Qed.

Lemma trigger_labels_encode (whitespace : pystr) (trigger : Trigger) :
  trigger_labels whitespace trigger
  = encode whitespace (trigger_pairs trigger).
Proof.
  unfold trigger_labels, encode, trigger_pairs.
  rewrite map_flat_map_pairs. f_equal.
  apply flat_map_ext. intros a. rewrite map_map. reflexivity.
Qed.

Lemma template_space_cases (language : pystr) :
  template_space language = str " " \/ template_space language = [].
Proof.
  unfold template_space. destruct (pystr_eqb language English); auto.
Qed.

(** C7 (amended). For pairs whose roles and values are not empty, have no
    whitespace at either end and contain no space, ["<"], [">"] or [":"],
    decoding the template of the pairs yields exactly the tuples of the
    pairs, each once; the template of no pairs, and the labels of a trigger
    without arguments, is the empty string. The labels of a trigger are the
    template of its pairs. *)
Theorem template_round_trip (instance_id : Z) (event_type language : pystr)
  (pairs : list (pystr * pystr)) :
  forallb clean_pair pairs = true ->
  let whitespace := template_space language in
  let decoded :=
    extract_argument (encode whitespace pairs) instance_id event_type in
  (forall t, In t decoded
             <-> exists p, In p pairs
                           /\ t = (instance_id, event_type, fst p, snd p))
  /\ NoDup decoded
  /\ encode whitespace [] = []
  /\ (forall trigger,
         trigger_labels whitespace trigger
         = encode whitespace (trigger_pairs trigger))
  /\ (forall trigger,
         arguments trigger = [] -> trigger_labels whitespace trigger = []).
Proof.
  intros Hclean whitespace decoded. subst decoded.
  unfold extract_argument, list_set.
  rewrite (decode_encode_list instance_id event_type whitespace
             (template_space_cases language) pairs Hclean).
  split; [|split; [|split; [|split]]].
  - intros t. rewrite nodup_In, in_map_iff. split.
    + intros [p [E Hin]]. exists p. auto.
    + intros [p [Hin E]]. exists p. auto.
  - apply NoDup_nodup.
  - reflexivity.
  - intros trigger. apply trigger_labels_encode.
  - intros trigger H. unfold trigger_labels. rewrite H. reflexivity.
Qed.

Lemma template_round_trip_witness :
  extract_argument
    (encode (str " ")
       [(str "Victim", str "John"); (str "Place", str "park");
        (str "Victim", str "John")])
    7 (str "Attack")
  = [(7%Z, str "Attack", str "Place", str "park");
     (7%Z, str "Attack", str "Victim", str "John")]
  /\ NoDup
       (extract_argument
          (encode (str " ")
             [(str "Victim", str "John"); (str "Place", str "park");
              (str "Victim", str "John")])
          7 (str "Attack")).
Proof.
  split; [vm_compute; reflexivity|].
  apply (template_round_trip 7 (str "Attack") English
           [(str "Victim", str "John"); (str "Place", str "park");
            (str "Victim", str "John")]).
  vm_compute. reflexivity.
Defined.

(** C7, as stated, fails: a value with a space inside is decoded without
    the space. *)
Lemma space_in_value_not_round_tripped :
  extract_argument
    (encode (template_space English) [(str "Place", str "New York")])
    7 (str "Attack")
  = [(7%Z, str "Attack", str "Place", str "NewYork")]
  /\ ~ In (7%Z, str "Attack", str "Place", str "New York")
          (extract_argument
             (encode (template_space English)
                [(str "Place", str "New York")])
             7 (str "Attack")).
Proof.
  split; [vm_compute; reflexivity|].
  vm_compute. intros [H|[]]. discriminate H.
Qed.

(** * Further properties of the code *)

(** ** What the argument extractor returns *)

Lemma split_on_not_nil (d : char -> bool) (s : pystr) : split_on d s <> [].
Proof.
  destruct s as [|c s]; simpl; [discriminate|].
  destruct (d c); [discriminate|].
  destruct (split_on d s); discriminate.
Qed.

Lemma split_on_delim_app (d : char -> bool) (a : pystr) (c : char) (b : pystr) :
  d c = true -> split_on d (a ++ c :: b) = split_on d a ++ split_on d b.
Proof.
  intros Hc. induction a as [|x a IH]; simpl.
  - rewrite Hc. reflexivity.
  - destruct (d x); [rewrite IH; reflexivity|].
    rewrite IH. pose proof (split_on_not_nil d a) as Hn.
    destruct (split_on d a); [contradiction | reflexivity].
Qed.

Lemma split_on_pieces_free (d : char -> bool) (s piece : pystr) :
  In piece (split_on d s) -> forallb (fun c => negb (d c)) piece = true.
Proof.
  revert piece; induction s as [|c s IH]; simpl; intros piece H.
  - destruct H as [<-|[]]. reflexivity.
  - destruct (d c) eqn:Hc.
    + destruct H as [<-|H]; [reflexivity | apply IH; assumption].
    + pose proof (split_on_not_nil d s) as Hn.
      destruct (split_on d s) as [|w ws]; [contradiction|].
      destruct H as [<-|H].
      * simpl. rewrite Hc. simpl. apply IH. left; reflexivity.
      * apply IH. right; assumption.
Qed.

Lemma split_on_pieces_sub (d : char -> bool) (s piece : pystr) (c : char) :
  In piece (split_on d s) -> In c piece -> In c s.
Proof.
  revert piece; induction s as [|x s IH]; simpl; intros piece H Hc.
  - destruct H as [<-|[]]. destruct Hc.
  - destruct (d x).
    + destruct H as [<-|H]; [destruct Hc | right; eapply IH; eassumption].
    + pose proof (split_on_not_nil d s) as Hn.
      destruct (split_on d s) as [|w ws]; [contradiction|].
      destruct H as [<-|H].
      * destruct Hc as [<-|Hc]; [left; reflexivity|].
        right. apply (IH w); [left; reflexivity | assumption].
      * right. apply (IH piece); [right; assumption | assumption].
Qed.

Lemma lstrip_sub (s : pystr) (c : char) : In c (lstrip s) -> In c s.
Proof.
  induction s as [|x s IH]; simpl; [trivial|].
  destruct (py_isspace x); [intros H; right; apply IH; assumption | trivial].
Qed.

Lemma rstrip_sub (s : pystr) (c : char) : In c (rstrip s) -> In c s.
Proof.
  unfold rstrip. intros H. apply in_rev in H. apply lstrip_sub in H.
  apply in_rev. assumption.
Qed.

Lemma py_strip_sub (s : pystr) (c : char) : In c (py_strip s) -> In c s.
Proof.
  unfold py_strip. intros H. apply lstrip_sub. apply rstrip_sub. assumption.
Qed.

Lemma forallb_sub (f : char -> bool) (s t : pystr) :
  (forall c, In c t -> In c s) -> forallb f s = true -> forallb f t = true.
Proof.
  rewrite !forallb_forall. auto.
Qed.

Lemma lstrip_nil_or_solid (s : pystr) :
  lstrip s = [] \/ starts_solid (lstrip s) = true.
Proof.
  induction s as [|x s IH]; simpl; [left; reflexivity|].
  destruct (py_isspace x) eqn:E; [exact IH|].
  right. simpl. rewrite E. reflexivity.
Qed.

Lemma lstrip_snoc_solid (a : pystr) (c : char) :
  py_isspace c = false -> lstrip (a ++ [c]) = lstrip a ++ [c].
Proof.
  intros Hc. induction a as [|x a IH]; simpl.
  - rewrite Hc. reflexivity.
  - destruct (py_isspace x); [exact IH | reflexivity].
Qed.

Lemma rstrip_cons_solid (c : char) (s : pystr) :
  py_isspace c = false -> rstrip (c :: s) = c :: rstrip s.
Proof.
  intros Hc. unfold rstrip. simpl rev.
  rewrite lstrip_snoc_solid by assumption.
  rewrite rev_app_distr. reflexivity.
Qed.

(** A stripped string is empty or has solid ends *)
Lemma py_strip_ends (s : pystr) :
  py_strip s = []
  \/ (starts_solid (py_strip s) = true
      /\ starts_solid (rev (py_strip s)) = true).
Proof.
  unfold py_strip.
  destruct (lstrip_nil_or_solid s) as [E|E].
  - left. rewrite E. reflexivity.
  - right. destruct (lstrip s) as [|c t] eqn:L; [discriminate|].
    simpl in E. apply negb_true_iff in E.
    rewrite rstrip_cons_solid by assumption. split.
    + simpl. rewrite E. reflexivity.
    + rewrite <- rstrip_cons_solid by assumption.
      unfold rstrip. rewrite rev_involutive.
      destruct (lstrip_nil_or_solid (rev (c :: t))) as [N|S]; [|exact S].
      exfalso. simpl rev in N. rewrite lstrip_snoc_solid in N by assumption.
      destruct (lstrip (rev t)); discriminate.
Qed.

Lemma space_is_whitespace (c : char) :
  py_isspace c = false -> (c =? 32)%N = false.
Proof.
  intros H. destruct (N.eqb_spec c 32) as [->|]; [discriminate H | reflexivity].
Qed.

Lemma remove_spaces_starts_solid (s : pystr) :
  starts_solid s = true -> starts_solid (remove_spaces s) = true.
Proof.
  destruct s as [|c s]; simpl; [discriminate|].
  intros H. pose proof H as H'. apply negb_true_iff in H'.
  rewrite (space_is_whitespace _ H'). simpl. exact H.
Qed.

Lemma remove_spaces_rev (s : pystr) :
  rev (remove_spaces s) = remove_spaces (rev s).
Proof. unfold remove_spaces. symmetry. apply filter_rev. Qed.

Lemma remove_spaces_sub (s : pystr) (c : char) :
  In c (remove_spaces s) -> In c s /\ (c =? 32)%N = false.
Proof.
  unfold remove_spaces. rewrite filter_In. intros [H1 H2].
  apply negb_true_iff in H2. auto.
Qed.

(** The decoder's normal form of a part of a span *)
Lemma normalised_clean (w : pystr) :
  forallb (fun c => negb (template_delim c)) w = true ->
  forallb (fun c => negb (split_word_delim c)) w = true ->
  is_empty (remove_spaces (py_strip w)) = false ->
  clean (remove_spaces (py_strip w)) = true.
Proof.
  intros Ht Hs Hne. unfold clean.
  destruct (py_strip_ends w) as [E|[E1 E2]].
  - rewrite E in Hne. discriminate.
  - rewrite remove_spaces_starts_solid by assumption.
    rewrite remove_spaces_rev, remove_spaces_starts_solid by assumption.
    simpl. apply forallb_forall. intros c Hc.
    apply remove_spaces_sub in Hc as [Hc H32].
    apply py_strip_sub in Hc.
    rewrite forallb_forall in Ht, Hs.
    unfold plain_char. rewrite (Ht c Hc), (Hs c Hc), H32. reflexivity.
Qed.

Lemma extract_span_clean (instance_id : Z) (event_type span : pystr)
  (t : argument_tuple) :
  forallb (fun c => negb (template_delim c)) span = true ->
  In t (extract_span instance_id event_type span) ->
  exists r v, t = (instance_id, event_type, r, v)
              /\ clean r = true /\ clean v = true.
Proof.
  intros Hfree. unfold extract_span.
  destruct (is_empty (py_strip span)); [intros []|].
  destruct (split_on split_word_delim (py_strip span))
    as [|w0 [|w1 [|w2 ws]]] eqn:E; try (intros []).
  assert (Hw : forall w, In w [w0; w1] ->
                 forallb (fun c => negb (template_delim c)) w = true
                 /\ forallb (fun c => negb (split_word_delim c)) w = true).
  { intros w Hw. rewrite <- E in Hw. split.
    - apply forallb_sub with (s := span); [|assumption].
      intros c Hc. apply py_strip_sub.
      eapply split_on_pieces_sub; eassumption.
    - eapply split_on_pieces_free; eassumption. }
  destruct (Hw w0 (or_introl eq_refl)) as [T0 S0].
  destruct (Hw w1 (or_intror (or_introl eq_refl))) as [T1 S1].
  destruct (is_empty (remove_spaces (py_strip w0))) eqn:E0; [intros []|].
  destruct (is_empty (remove_spaces (py_strip w1))) eqn:E1; [intros []|].
  simpl. intros [<-|[]].
  eexists _, _. split; [reflexivity|].
  split; apply normalised_clean; assumption.
Qed.

(** X1. Whatever the text, every tuple the argument extractor returns
    carries the given instance id and event type and a role and a value in
    normal form: not empty, without whitespace at either end, without a
    space and without ["<"], [">"] or [":"]; and no tuple is returned
    twice. *)
Theorem extract_argument_normal_form (raw_text : pystr) (instance_id : Z)
  (event_type : pystr) :
  NoDup (extract_argument raw_text instance_id event_type)
  /\ forall t,
       In t (extract_argument raw_text instance_id event_type) ->
       exists r v, t = (instance_id, event_type, r, v)
                   /\ clean r = true /\ clean v = true.
Proof.
  unfold extract_argument, list_set. split; [apply NoDup_nodup|].
  intros t Ht. rewrite nodup_In in Ht.
  apply in_flat_map in Ht as [span [Hs Ht]].
  eapply extract_span_clean; [|exact Ht].
  eapply split_on_pieces_free. exact Hs.
Qed.

(** X2. The extractor works bracket by bracket: the tuples of a text cut at
    a ["<"] or a [">"] are those of the part before the bracket together
    with those of the part after it. *)
Theorem extract_argument_bracket (before after : pystr) (bracket : char)
  (instance_id : Z) (event_type : pystr) (t : argument_tuple) :
  template_delim bracket = true ->
  (In t (extract_argument (before ++ bracket :: after) instance_id event_type)
   <-> In t (extract_argument before instance_id event_type)
       \/ In t (extract_argument after instance_id event_type)).
Proof.
  intros Hb. unfold extract_argument, list_set. rewrite !nodup_In.
  rewrite split_on_delim_app by assumption.
  rewrite flat_map_app, in_app_iff. reflexivity.
Qed.

Lemma extract_argument_bracket_witness :
  In (7%Z, str "Attack", str "Victim", str "John")
     (extract_argument (str "noise < Victim : John" ++ 62%N :: str " more")
        7 (str "Attack")).
Proof.
  apply (extract_argument_bracket (str "noise < Victim : John") (str " more")
           62%N 7 (str "Attack")); [reflexivity|].
  left. vm_compute. left. reflexivity.
Defined.

Lemma extract_argument_shape (raw_text : pystr) (instance_id : Z)
  (event_type : pystr) (t : argument_tuple) :
  In t (extract_argument raw_text instance_id event_type) ->
  t = (instance_id, event_type, fst (tuple_pair t), snd (tuple_pair t))
  /\ clean_pair (tuple_pair t) = true.
Proof.
  intros Ht. unfold extract_argument, list_set in Ht. rewrite nodup_In in Ht.
  apply in_flat_map in Ht as [span [Hs Ht]].
  eapply extract_span_clean in Ht as (r & v & -> & Hr & Hv);
    [|eapply split_on_pieces_free; exact Hs].
  unfold clean_pair, tuple_pair. simpl. rewrite Hr, Hv. split; reflexivity.
Qed.

(** X3. Decoding is stable under re-encoding: the tuples decoded from any
    text, written back into the template of either language and decoded
    again, are the same tuples. *)
Theorem extract_argument_reencode (raw_text : pystr) (instance_id : Z)
  (event_type language : pystr) (t : argument_tuple) :
  let decoded := extract_argument raw_text instance_id event_type in
  In t (extract_argument
          (encode (template_space language) (map tuple_pair decoded))
          instance_id event_type)
  <-> In t decoded.
Proof.
  intros decoded.
  assert (Hclean : forallb clean_pair (map tuple_pair decoded) = true).
  { apply forallb_forall. intros p Hp. apply in_map_iff in Hp as [u [<- Hu]].
    apply (extract_argument_shape _ _ _ _ Hu). }
  unfold extract_argument at 1. unfold list_set.
  rewrite (decode_encode_list instance_id event_type
             (template_space language) (template_space_cases language)
             _ Hclean).
  rewrite nodup_In, map_map.
  rewrite (map_ext_in _ (fun u => u)), map_id; [reflexivity|].
  intros u Hu. symmetry. apply (extract_argument_shape _ _ _ _ Hu).
Qed.

Lemma length_split_on (d : char -> bool) (s : pystr) :
  length (split_on d s) = S (length (filter d s)).
Proof.
  induction s as [|c s IH]; simpl; [reflexivity|].
  destruct (d c); simpl; [rewrite IH; reflexivity|].
  pose proof (split_on_not_nil d s) as Hn.
  destruct (split_on d s); [contradiction | exact IH].
Qed.

Lemma filter_lstrip_le (d : char -> bool) (s : pystr) :
  length (filter d (lstrip s)) <= length (filter d s).
Proof.
  induction s as [|c s IH]; simpl; [lia|].
  destruct (py_isspace c); simpl; [destruct (d c); simpl; lia | lia].
Qed.

Lemma filter_py_strip_le (d : char -> bool) (s : pystr) :
  length (filter d (py_strip s)) <= length (filter d s).
Proof.
  unfold py_strip, rstrip.
  rewrite filter_rev, length_rev.
  pose proof (filter_lstrip_le d (rev (lstrip s))) as H1.
  pose proof (filter_lstrip_le d s) as H2.
  rewrite (filter_rev d (lstrip s)), length_rev in H1. lia.
Qed.

Lemma extract_span_length (instance_id : Z) (event_type span : pystr) :
  length (extract_span instance_id event_type span)
  <= count_split_words span.
Proof.
  unfold extract_span, count_split_words.
  destruct (is_empty (py_strip span)); simpl; [lia|].
  pose proof (length_split_on split_word_delim (py_strip span)) as L.
  pose proof (filter_py_strip_le split_word_delim span) as F.
  destruct (split_on split_word_delim (py_strip span))
    as [|w0 [|w1 [|w2 ws]]]; simpl; try lia.
  simpl in L. destruct (_ && _); simpl; lia.
Qed.

Lemma split_on_count_le (d : char -> bool) (s : pystr) :
  list_sum (map count_split_words (split_on d s)) <= count_split_words s.
Proof.
  unfold count_split_words.
  induction s as [|c s IH]; simpl; [lia|].
  destruct (d c); simpl.
  - destruct (split_word_delim c); simpl; lia.
  - pose proof (split_on_not_nil d s) as Hn.
    destruct (split_on d s) as [|w ws]; [contradiction|].
    simpl in *. destruct (split_word_delim c); simpl; lia.
Qed.

Lemma list_sum_map_le {A} (f g : A -> nat) (l : list A) :
  (forall x, f x <= g x) -> list_sum (map f l) <= list_sum (map g l).
Proof.
  intros H. induction l as [|x l IH]; simpl; [lia|].
  specialize (H x). lia.
Qed.

(** X4. Malformed spans are skipped without an error: the extractor returns
    at most one tuple per [":"] of the text, and so none for a text without
    a [":"]. *)
Theorem extract_argument_bound (raw_text : pystr) (instance_id : Z)
  (event_type : pystr) :
  length (extract_argument raw_text instance_id event_type)
  <= count_split_words raw_text.
Proof.
  unfold extract_argument, list_set.
  etransitivity.
  - apply NoDup_incl_length; [apply NoDup_nodup|].
    intros t Ht. apply nodup_In in Ht. exact Ht.
  - rewrite length_flat_map.
    etransitivity; [|apply (split_on_count_le template_delim)].
    apply list_sum_map_le. intros span. apply extract_span_length.
Qed.

(** ** Word spans *)

Lemma count_word_starts_app (b : bool) (x y : pystr) :
  count_word_starts b (x ++ y)
  = count_word_starts b x + count_word_starts (ends_after_space b x) y.
Proof.
  revert b; induction x as [|c x IH]; intros b; simpl; [reflexivity|].
  rewrite IH. lia.
Qed.

Lemma count_word_starts_true (y : pystr) :
  count_word_starts true y
  = count_word_starts false y + (if starts_solid y then 1 else 0).
Proof.
  destruct y as [|c y]; simpl; [reflexivity|].
  destruct (py_isspace c); simpl; lia.
Qed.

Lemma ends_after_space_snoc (b : bool) (x : pystr) (c : char) :
  ends_after_space b (x ++ [c]) = py_isspace c.
Proof.
  revert b; induction x as [|a x IH]; intros b; simpl; [reflexivity | apply IH].
Qed.

Lemma ends_after_space_solid (x : pystr) :
  ends_after_space true x = negb (starts_solid (rev x)).
Proof.
  destruct x as [|a x] using rev_ind; [reflexivity|].
  rewrite ends_after_space_snoc, rev_app_distr. simpl.
  rewrite negb_involutive. reflexivity.
Qed.

(** Cutting a string splits a word in two exactly when the cut falls inside
    the word *)
Lemma num_words_app (x y : pystr) :
  num_words x + num_words y
  = num_words (x ++ y) + (if cuts_word x y then 1 else 0).
Proof.
  unfold num_words, cuts_word.
  rewrite count_word_starts_app, ends_after_space_solid.
  destruct (starts_solid (rev x)); simpl.
  - rewrite (count_word_starts_true y). lia.
  - lia.
Qed.

Lemma num_words_prefix_le (x y : pystr) : num_words x <= num_words (x ++ y).
Proof.
  unfold num_words. rewrite count_word_starts_app. lia.
Qed.

Lemma prefix_substring (txt : pystr) (s e : Z) :
  (0 <= s <= e)%Z -> prefix txt e = prefix txt s ++ substring txt s e.
Proof.
  intros H. unfold prefix, substring.
  replace (Z.to_nat e) with (Z.to_nat s + (Z.to_nat e - Z.to_nat s)) at 1
    by lia.
  generalize (Z.to_nat e - Z.to_nat s) as m. generalize (Z.to_nat s) as n.
  clear. intros n; revert txt; induction n as [|n IH]; intros txt m.
  - reflexivity.
  - destruct txt as [|c txt]; simpl.
    + rewrite firstn_nil. reflexivity.
    + rewrite IH. reflexivity.
Qed.

Lemma prefix_whole (txt : pystr) (s : Z) :
  exists rest, txt = prefix txt s ++ rest.
Proof.
  exists (skipn (Z.to_nat s) txt). unfold prefix.
  symmetry. apply firstn_skipn.
Qed.

(** X5. For an English text and a span inside it, the word span starts at
    the number of words before the span and ends at the number of words up
    to the span's end, plus one when the span starts inside a word (the word
    cut in two is counted twice); so the end is at most one past the word
    count the prediction row is asserted against. *)
Theorem english_word_span (txt : pystr) (s e : Z) :
  (0 <= s <= e)%Z -> (e <= Z.of_nat (length txt))%Z ->
  exists word_start word_end n,
    to_word_span English txt (s, e) = Ok (word_start, word_end)
    /\ text_length English txt = Ok n
    /\ word_start = num_words (prefix txt s)
    /\ word_end
       = num_words (prefix txt e)
         + (if cuts_word (prefix txt s) (substring txt s e) then 1 else 0)
    /\ word_start <= word_end <= n + 1.
Proof.
  intros H1 H2.
  exists (num_words (prefix txt s)),
    (num_words (prefix txt s) + num_words (substring txt s e)),
    (num_words txt).
  unfold to_word_span, text_length. simpl fst; simpl snd.
  rewrite py_slice_to_inside, py_slice_inside by lia.
  rewrite !py_split_length.
  pose proof (num_words_app (prefix txt s) (substring txt s e)) as Happ.
  rewrite <- (prefix_substring txt s e H1) in Happ.
  destruct (prefix_whole txt e) as [rest Hrest].
  pose proof (num_words_prefix_le (prefix txt e) rest) as Hle.
  rewrite <- Hrest in Hle.
  repeat split; try reflexivity; try lia.
  destruct (cuts_word (prefix txt s) (substring txt s e)); lia.
Qed.

Lemma english_word_span_witness :
  exists word_start word_end n,
    to_word_span English (str "the parkway") (7, 10)%Z
    = Ok (word_start, word_end)
    /\ text_length English (str "the parkway") = Ok n
    /\ word_start = 2 /\ word_end = 3 /\ word_start <= word_end <= n + 1.
Proof.
  destruct (english_word_span (str "the parkway") 7 10)
    as (ws & we & n & H1 & H2 & H3 & H4 & H5); [lia | simpl; lia |].
  exists ws, we, n. repeat split; try assumption; try lia.
Defined.

(** X6. For a Chinese text and a span inside it, the word span is ordered
    and inside the row, and it is as long as the span has characters that
    are not whitespace. *)
Theorem chinese_word_span (txt : pystr) (s e : Z) :
  (0 <= s <= e)%Z -> (e <= Z.of_nat (length txt))%Z ->
  exists word_start word_end n,
    to_word_span Chinese txt (s, e) = Ok (word_start, word_end)
    /\ text_length Chinese txt = Ok n
    /\ word_start <= word_end <= n
    /\ word_end - word_start
       = length (remove_whitespace (substring txt s e)).
Proof.
  intros H1 H2.
  exists (length (remove_whitespace (prefix txt s))),
    (length (remove_whitespace (prefix txt e))),
    (length (remove_whitespace txt)).
  unfold to_word_span, text_length. simpl fst; simpl snd.
  rewrite !py_slice_to_inside by lia.
  rewrite !py_join_split.
  destruct (prefix_whole txt e) as [rest Hrest].
  assert (L : length (remove_whitespace txt)
              = length (remove_whitespace (prefix txt e))
                + length (remove_whitespace rest)).
  { rewrite Hrest at 1. unfold remove_whitespace.
    rewrite filter_app, length_app. reflexivity. }
  assert (M : length (remove_whitespace (prefix txt e))
              = length (remove_whitespace (prefix txt s))
                + length (remove_whitespace (substring txt s e))).
  { rewrite (prefix_substring txt s e H1). unfold remove_whitespace.
    rewrite filter_app, length_app. reflexivity. }
  repeat split; try reflexivity; lia.
Qed.

Lemma chinese_word_span_witness :
  exists word_start word_end n,
    to_word_span Chinese (str "ab cd e") (3, 6)%Z = Ok (word_start, word_end)
    /\ text_length Chinese (str "ab cd e") = Ok n
    /\ word_start <= word_end <= n
    /\ word_end - word_start = 2.
Proof.
  destruct (chinese_word_span (str "ab cd e") 3 6)
    as (ws & we & n & H1 & H2 & H3 & H4); [lia | simpl; lia |].
  exists ws, we, n. repeat split; try assumption; try lia.
Defined.

(** X7. The word span of the whole text is the row the length check asks
    for: where the check counts [n] words, the span from 0 to the length of
    the text is [(0, n)], in both languages. *)
Theorem whole_text_word_span (language txt : pystr) (n : nat) :
  text_length language txt = Ok n ->
  to_word_span language txt (0%Z, Z.of_nat (length txt)) = Ok (0, n).
Proof.
  unfold text_length, to_word_span. simpl fst; simpl snd.
  rewrite py_slice_inside, !py_slice_to_inside by lia.
  assert (P0 : prefix txt 0 = []) by reflexivity.
  assert (P1 : prefix txt (Z.of_nat (length txt)) = txt).
  { unfold prefix. rewrite Nat2Z.id. apply firstn_all. }
  assert (P2 : substring txt 0 (Z.of_nat (length txt)) = txt).
  { unfold substring. rewrite Nat2Z.id. simpl. rewrite Nat.sub_0_r.
    apply firstn_all. }
  rewrite P0, P1, P2.
  destruct (pystr_eqb language English);
    [intros H; injection H as <-; reflexivity|].
  destruct (pystr_eqb language Chinese);
    [intros H; injection H as <-; reflexivity | discriminate].
Qed.

Lemma whole_text_word_span_witness :
  to_word_span English sample_text (0%Z, Z.of_nat (length sample_text))
  = Ok (0, 6).
Proof.
  apply (whole_text_word_span English sample_text 6). reflexivity.
Defined.

Lemma slice_bound_normal (txt : pystr) (i : Z) :
  slice_bound (length txt) (normal_offset txt i) = slice_bound (length txt) i
  /\ (0 <= normal_offset txt i <= Z.of_nat (length txt))%Z.
Proof.
  unfold slice_bound, normal_offset.
  destruct (Z.ltb_spec i 0).
  - destruct (Z.ltb_spec (Z.max 0 (i + Z.of_nat (length txt))) 0); lia.
  - destruct (Z.ltb_spec (Z.min i (Z.of_nat (length txt))) 0); lia.
Qed.

(** X8. No span is rejected: a bound past the end of the text counts as the
    end, a negative bound counts from the end (and stops at the start), and
    the word span is that of the span so brought inside the text. *)
Theorem word_span_of_any_span (language txt : pystr) (s e : Z) :
  to_word_span language txt (s, e)
  = to_word_span language txt (normal_offset txt s, normal_offset txt e)
  /\ (0 <= normal_offset txt s <= Z.of_nat (length txt))%Z
  /\ (0 <= normal_offset txt e <= Z.of_nat (length txt))%Z
  /\ ((language = English \/ language = Chinese) ->
      exists span, to_word_span language txt (s, e) = Ok span).
Proof.
  destruct (slice_bound_normal txt s) as [Es Hs].
  destruct (slice_bound_normal txt e) as [Ee He].
  repeat split; try lia.
  - unfold to_word_span, py_slice, py_slice_to. simpl fst; simpl snd.
    rewrite Es, Ee. reflexivity.
  - intros [-> | ->]; eexists; reflexivity.
Qed.

Lemma word_span_of_any_span_witness :
  exists span, to_word_span English sample_text (-4, 1000)%Z = Ok span.
Proof.
  apply (word_span_of_any_span English sample_text (-4) 1000). left.
  reflexivity.
Defined.

(** X9. An inverted span inside the text is not an error either: in English
    its word span is empty, in Chinese it ends at or before its start. *)
Theorem inverted_span (txt : pystr) (s e : Z) :
  (0 <= e <= s)%Z -> (s <= Z.of_nat (length txt))%Z ->
  to_word_span English txt (s, e)
  = Ok (num_words (prefix txt s), num_words (prefix txt s))
  /\ exists word_start word_end,
       to_word_span Chinese txt (s, e) = Ok (word_start, word_end)
       /\ word_end <= word_start.
Proof.
  intros H1 H2. unfold to_word_span. simpl fst; simpl snd. split.
  - rewrite py_slice_to_inside by lia. rewrite py_split_length.
    unfold py_slice. rewrite !slice_bound_inside by lia.
    replace (Z.to_nat e - Z.to_nat s) with 0 by lia. simpl.
    rewrite Nat.add_0_r. reflexivity.
  - eexists _, _. split; [reflexivity|].
    rewrite !py_slice_to_inside by lia. rewrite !py_join_split.
    rewrite (prefix_substring txt e s H1). unfold remove_whitespace.
    rewrite filter_app, length_app. lia.
Qed.

Lemma inverted_span_witness :
  to_word_span English sample_text (9, 6)%Z = Ok (2, 2).
Proof.
  apply (inverted_span sample_text 9 6); simpl; lia.
Defined.

(** ** Labels, predictions and counters of the converters *)

Section Alignment.

Variable id2label : Type.
Variable get_pred_per_mention :
  nat -> nat -> pred_row -> id2label -> result pystr.
Variable data_args : DataArgs id2label.
Variable preds : list pred_row.
Variable is_overflow : list bool.

Lemma positive_instance_aligned (item : Document) (trigger : Trigger)
  (st st' : ae_state) :
  ae_aligned st ->
  ae_positive_instance get_pred_per_mention data_args preds is_overflow
    item trigger st = Ok st' ->
  ae_aligned st'.
Proof.
  unfold ae_aligned, ae_positive_instance. intros HI H.
  apply bind_Ok_inv in H as (_ & _ & H).
  apply bind_Ok_inv in H as (negs & _ & H).
  apply bind_Ok_inv in H as (res & Hres & H).
  injection H as <-. simpl.
  apply convert_candidates_length in Hres.
  rewrite Hres, !length_app, !length_map, length_app, length_map. lia.
Qed.

Lemma negative_instance_aligned (item : Document) (st st' : ae_state) :
  ae_aligned st ->
  ae_negative_instance get_pred_per_mention data_args preds is_overflow
    item st = Ok st' ->
  ae_aligned st'.
Proof.
  unfold ae_aligned, ae_negative_instance. intros HI H.
  apply bind_Ok_inv in H as (_ & _ & H).
  apply bind_Ok_inv in H as (negs & _ & H).
  apply bind_Ok_inv in H as (res & Hres & H).
  injection H as <-. simpl.
  apply convert_candidates_length in Hres.
  rewrite Hres, !length_app, !length_map. lia.
Qed.

Lemma ae_line_aligned (item : Document) (st st' : ae_state) :
  ae_aligned st ->
  ae_line get_pred_per_mention data_args preds is_overflow item st = Ok st' ->
  ae_aligned st'.
Proof.
  intros HI H. unfold ae_line in H.
  apply bind_Ok_inv in H as (evs & _ & H).
  apply bind_Ok_inv in H as (st1 & Hev & H).
  apply bind_Ok_inv in H as (negs & _ & H).
  eapply for_each_inv with (I := ae_aligned); [| |exact H].
  - intros t s s' Hs Ht. rewrite negative_trigger_gate in Ht.
    apply bind_Ok_inv in Ht as (p & _ & Ht).
    destruct (gate_negative data_args p).
    + eapply negative_instance_aligned; [|exact Ht]. exact Hs.
    + injection Ht as <-. exact Hs.
  - eapply for_each_inv with (I := ae_aligned); [| |exact Hev]; [|exact HI].
    intros ev s s' Hs Hevs. unfold ae_event in Hevs.
    eapply for_each_inv with (I := ae_aligned); [| |exact Hevs]; [|exact Hs].
    intros t u u' Hu Ht. rewrite positive_trigger_gate in Ht.
    apply bind_Ok_inv in Ht as (p & _ & Ht).
    destruct (gate_positive data_args p).
    + eapply positive_instance_aligned; [|exact Ht]. exact Hu.
    + injection Ht as <-. exact Hu.
Qed.

Lemma ae_pass_aligned (lines : list Document) (st : ae_state) :
  ae_pass get_pred_per_mention data_args preds is_overflow lines = Ok st ->
  ae_aligned st.
Proof.
  intros H. unfold ae_pass in H.
  eapply for_each_inv with (I := ae_aligned); [| |exact H].
  - intros item s s'. apply ae_line_aligned.
  - reflexivity.
Qed.

Lemma count_pass_triggers (ls : list Document) (c0 c1 : nat * nat) :
  within_event_preds data_args c0 ->
  for_each (count_line data_args) ls c0 = Ok c1 ->
  fst c1 = fst c0 + total_triggers ls /\ within_event_preds data_args c1.
Proof.
  revert c0 c1; induction ls as [|l ls IH]; intros c0 c1 HI Hls;
    simpl in Hls.
  - injection Hls as <-. unfold total_triggers. simpl.
    split; [lia | assumption].
  - apply bind_Ok_inv in Hls as (c2 & Hl & Hls).
    destruct (count_line_step _ _ _ _ _ HI Hl) as [E2 I2].
    destruct (IH _ _ I2 Hls) as [E1 I1].
    split; [|assumption]. unfold total_triggers in *. simpl. lia.
Qed.

Lemma ae_pass_trigger_idx (lines : list Document) (st : ae_state) :
  ae_pass get_pred_per_mention data_args preds is_overflow lines = Ok st ->
  trigger_idx st = total_triggers lines
  /\ within_event_preds data_args (counters st).
Proof.
  intros H. unfold ae_pass in H.
  assert (C : for_each (count_line data_args) lines (counters ae_init)
              = Ok (counters st)).
  { eapply for_each_sim with (f := counters); [|exact H].
    intros item s s' _. apply ae_line_count. }
  apply count_pass_triggers in C as [E I].
  - split; [exact E | exact I].
  - intros _ ep _. simpl. lia.
Qed.

Lemma td_line_lengths (line : nat * Document) (st st' : td_state) :
  td_line get_pred_per_mention data_args preds is_overflow line st = Ok st' ->
  length (td_results st') + length (td_label_names st)
  = length (td_results st) + length (td_label_names st')
    + blind_candidates (snd line).
Proof.
  destruct line as [i item]. unfold td_line. intros H.
  apply bind_Ok_inv in H as (u & _ & H).
  apply bind_Ok_inv in H as (cl & Hcl & H).
  apply bind_Ok_inv in H as (res & Hres & H).
  injection H as <-. simpl.
  apply convert_candidates_length in Hres. rewrite Hres, length_app.
  unfold td_candidates in Hcl. unfold blind_candidates, num_candidates.
  destruct (events item) as [evs|].
  - apply bind_Ok_inv in Hcl as (negs & _ & Hcl). injection Hcl as <-.
    simpl. rewrite !length_app, !length_map. lia.
  - apply bind_Ok_inv in Hcl as (cands & Hc & Hcl). injection Hcl as <-.
    destruct (candidates item); [|discriminate]. injection Hc as ->.
    simpl. rewrite length_map. lia.
Qed.

Lemma td_lines_lengths (ls : list (nat * Document)) (st st' : td_state) :
  for_each (td_line get_pred_per_mention data_args preds is_overflow) ls st
  = Ok st' ->
  length (td_results st') + length (td_label_names st)
  = length (td_results st) + length (td_label_names st')
    + list_sum (map (fun line => blind_candidates (snd line)) ls).
Proof.
  revert st; induction ls as [|l ls IH]; intros st H; simpl in H.
  - injection H as <-. simpl. lia.
  - apply bind_Ok_inv in H as (s1 & Hl & H).
    apply td_line_lengths in Hl. apply IH in H. simpl. lia.
Qed.

End Alignment.

(** X10. After a completed pass of argument extraction the gold labels and
    the predictions are lists of the same length: one label and one
    prediction per candidate, so the scorer gets aligned lists. *)
Theorem argument_extraction_aligned
  (id2label : Type)
  (get_pred_per_mention : nat -> nat -> pred_row -> id2label -> result pystr)
  (data_args : DataArgs id2label) (preds : list pred_row)
  (is_overflow : list bool) (lines : list Document) (st : ae_state) :
  ae_pass get_pred_per_mention data_args preds is_overflow lines = Ok st ->
  length (ae_label_names st) = length (ae_results st).
Proof. apply ae_pass_aligned. Qed.

Lemma argument_extraction_aligned_witness :
  exists st,
    ae_pass first_word_label (word_args mode_default true None) [word_row]
      [false] [sample_doc] = Ok st
    /\ length (ae_label_names st) = length (ae_results st).
Proof.
  eexists. split; [vm_compute; reflexivity|].
  apply (argument_extraction_aligned _ first_word_label
           (word_args mode_default true None) [word_row] [false]
           [sample_doc]).
  vm_compute. reflexivity.
Defined.

(** X11. After a completed pass of event detection there is one prediction
    per collected label and one more for every candidate of a line without
    gold events: in a batch that mixes the two kinds of lines the scorer
    gets more predictions than labels. *)
Theorem trigger_detection_lengths
  (id2label : Type)
  (get_pred_per_mention : nat -> nat -> pred_row -> id2label -> result pystr)
  (data_args : DataArgs id2label) (preds : list pred_row)
  (is_overflow : list bool) (lines : list Document) (st : td_state) :
  td_pass get_pred_per_mention data_args preds is_overflow lines = Ok st ->
  length (td_results st)
  = length (td_label_names st) + list_sum (map blind_candidates lines).
Proof.
  intros H. unfold td_pass in H. apply td_lines_lengths in H. simpl in H.
  rewrite (list_sum_enumerate blind_candidates) in H. lia.
Qed.

Lemma trigger_detection_lengths_witness :
  exists st,
    td_pass first_word_label (word_args mode_default true None)
      [word_row; word_row] [false; false] [candidate_doc; sample_doc] = Ok st
    /\ length (td_results st) = 4 /\ length (td_label_names st) = 2.
Proof.
  eexists. split; [vm_compute; reflexivity|].
  pose proof (trigger_detection_lengths _ first_word_label
                (word_args mode_default true None) [word_row; word_row]
                [false; false] [candidate_doc; sample_doc] _ eq_refl) as H.
  split; [exact H | reflexivity].
Defined.

(** X12. Every trigger, positive or negative, scored or not, advances the
    trigger index by one: after a completed pass of argument extraction the
    index is the number of triggers of the file, and when the prediction
    file was consulted it has at least that many entries. *)
Theorem trigger_index_counts_triggers
  (id2label : Type)
  (get_pred_per_mention : nat -> nat -> pred_row -> id2label -> result pystr)
  (data_args : DataArgs id2label) (preds : list pred_row)
  (is_overflow : list bool) (lines : list Document) (st : ae_state) :
  ae_pass get_pred_per_mention data_args preds is_overflow lines = Ok st ->
  trigger_idx st = total_triggers lines
  /\ (golden_trigger data_args = false ->
      forall ep, event_preds data_args = Some ep ->
                 total_triggers lines <= length ep).
Proof.
  intros H. apply ae_pass_trigger_idx in H as [E I]. split; [exact E|].
  intros Hg ep Hep. specialize (I Hg ep Hep). simpl in I. lia.
Qed.

Lemma trigger_index_counts_triggers_witness :
  exists st,
    ae_pass first_word_label (word_args mode_default false mixed_preds)
      [word_row] [false] [sample_doc] = Ok st
    /\ trigger_idx st = 2.
Proof.
  eexists. split; [vm_compute; reflexivity|].
  apply (trigger_index_counts_triggers _ first_word_label
           (word_args mode_default false mixed_preds) [word_row] [false]
           [sample_doc]).
  vm_compute. reflexivity.
Defined.

(** ** The prediction file and the keys of a line *)

Lemma for_each_Ok_mono {A S} (body body' : A -> S -> result S) (xs : list A) :
  (forall x s s', body x s = Ok s' -> body' x s = Ok s') ->
  forall s s', for_each body xs s = Ok s' -> for_each body' xs s = Ok s'.
Proof.
  intros Hstep. induction xs as [|x xs IH]; intros s s' H; simpl in *.
  - exact H.
  - apply bind_Ok_inv in H as (s1 & Hx & Hrest).
    rewrite (Hstep _ _ _ Hx). simpl. apply IH. exact Hrest.
Qed.

Lemma index_app_Ok {A} (l extra : list A) (i : nat) (a : A) :
  index l i = Ok a -> index (l ++ extra) i = Ok a.
Proof.
  unfold index. destruct (nth_error l i) eqn:E; [|discriminate].
  intros H. rewrite nth_error_app1; [rewrite E; exact H|].
  apply nth_error_Some. congruence.
Qed.

Section SurplusPredictions.

Variable id2label : Type.
Variable get_pred_per_mention :
  nat -> nat -> pred_row -> id2label -> result pystr.
Variable data_args : DataArgs id2label.
Variable preds : list pred_row.
Variable is_overflow : list bool.
Variables ep extra : list pystr.
Hypothesis file : event_preds data_args = Some ep.

Lemma resolve_type_surplus (idx : nat) (ty p : pystr) :
  resolve_type data_args idx ty = Ok p ->
  resolve_type (with_event_preds data_args (Some (ep ++ extra))) idx ty = Ok p.
Proof.
  unfold resolve_type. simpl. rewrite file.
  destruct (golden_trigger data_args); [trivial|]. apply index_app_Ok.
Qed.

Lemma ae_line_surplus (item : Document) (st st' : ae_state) :
  ae_line get_pred_per_mention data_args preds is_overflow item st = Ok st' ->
  ae_line get_pred_per_mention
    (with_event_preds data_args (Some (ep ++ extra))) preds is_overflow
    item st = Ok st'.
Proof.
  unfold ae_line. intros H.
  apply bind_Ok_inv in H as (evs & -> & H). simpl.
  apply bind_Ok_inv in H as (st1 & Hev & H).
  apply bind_Ok_inv in H as (negs & -> & H). simpl.
  erewrite for_each_Ok_mono; [| |exact Hev].
  - simpl. eapply for_each_Ok_mono; [|exact H].
    intros t s s' Ht. unfold ae_negative_trigger in *.
    apply bind_Ok_inv in Ht as (p & Hp & Ht).
    rewrite (resolve_type_surplus _ _ _ Hp). exact Ht.
  - intros ev s s' Hs. unfold ae_event in *.
    eapply for_each_Ok_mono; [|exact Hs].
    intros t u u' Ht. unfold ae_positive_trigger in *.
    apply bind_Ok_inv in Ht as (p & Hp & Ht).
    rewrite (resolve_type_surplus _ _ _ Hp). exact Ht.
Qed.

Lemma ae_pass_surplus (lines : list Document) (st : ae_state) :
  ae_pass get_pred_per_mention data_args preds is_overflow lines = Ok st ->
  ae_pass get_pred_per_mention
    (with_event_preds data_args (Some (ep ++ extra))) preds is_overflow lines
  = Ok st.
Proof.
  unfold ae_pass. apply for_each_Ok_mono. intros item s s'.
  apply ae_line_surplus.
Qed.

End SurplusPredictions.

Section SurplusPredictionsProcessor.

Variable get_words : pystr -> pystr -> result (list pystr).
Variable is_training : bool.
Variable config_golden_trigger : bool.
Variable config_eae_eval_mode : pystr.
Variable language0 : pystr.
Variables ep extra : list pystr.

Lemma s2s_resolve_surplus (st : s2s_state) (p : pystr) :
  s2s_resolve is_training config_golden_trigger (Some ep) st = Ok p ->
  s2s_resolve is_training config_golden_trigger (Some (ep ++ extra)) st
  = Ok p.
Proof.
  unfold s2s_resolve.
  destruct (is_training || config_golden_trigger); [trivial|].
  apply index_app_Ok.
Qed.

Lemma s2s_line_surplus (item : Document) (st st' : s2s_state) :
  s2s_line get_words is_training config_golden_trigger config_eae_eval_mode
    (Some ep) language0 item st = Ok st' ->
  s2s_line get_words is_training config_golden_trigger config_eae_eval_mode
    (Some (ep ++ extra)) language0 item st = Ok st'.
Proof.
  unfold s2s_line. intros H.
  apply bind_Ok_inv in H as (words & -> & H). simpl.
  destruct (events item) as [evs|].
  - apply bind_Ok_inv in H as (st1 & Hev & H).
    apply bind_Ok_inv in H as (negs & -> & H). simpl.
    erewrite for_each_Ok_mono; [| |exact Hev].
    + simpl. eapply for_each_Ok_mono; [|exact H].
      intros t s s' Ht. unfold s2s_negative_trigger in *.
      apply bind_Ok_inv in Ht as (p & Hp & Ht).
      rewrite (s2s_resolve_surplus _ _ Hp). exact Ht.
    + intros ev s s' Hs. unfold s2s_event in *.
      eapply for_each_Ok_mono; [|exact Hs].
      intros t u u' Ht. unfold s2s_positive_trigger in *.
      apply bind_Ok_inv in Ht as (p & Hp & Ht).
      rewrite (s2s_resolve_surplus _ _ Hp). exact Ht.
  - apply bind_Ok_inv in H as (cands & -> & H). simpl.
    eapply for_each_Ok_mono; [|exact H].
    intros t s s' Ht. unfold s2s_candidate in *.
    apply bind_Ok_inv in Ht as (p & Hp & Ht).
    rewrite (index_app_Ok _ _ _ _ Hp). exact Ht.
Qed.

Lemma read_examples_surplus (lines : list Document) (st : s2s_state) :
  extra <> [] ->
  read_examples get_words is_training config_golden_trigger
    config_eae_eval_mode (Some ep) language0 lines = Ok st ->
  read_examples get_words is_training config_golden_trigger
    config_eae_eval_mode (Some (ep ++ extra)) language0 lines
  = Err AssertionError.
Proof.
  intros Hne H. unfold read_examples in *.
  apply bind_Ok_inv in H as (st1 & Hpass & H).
  apply bind_Ok_inv in H as (u & Hassert & _).
  rewrite (for_each_Ok_mono _ _ _ s2s_line_surplus _ _ Hpass). simpl.
  unfold py_assert in *.
  destruct (Nat.eqb_spec (s2s_trigger_idx st1) (length ep)) as [E|];
    [|discriminate].
  rewrite E, length_app.
  destruct (Nat.eqb_spec (length ep) (length ep + length extra)) as [E'|];
    [|reflexivity].
  destruct extra; [contradiction | simpl in E'; lia].
Qed.

End SurplusPredictionsProcessor.

(** X13. The converter never checks that the prediction file was used up:
    a result it returns with a prediction file is returned unchanged when
    entries are added at the end of the file. The processor, which asserts
    the final trigger index, raises [AssertionError] on the longer file. *)
Theorem surplus_predictions
  (id2label : Type)
  (get_pred_per_mention : nat -> nat -> pred_row -> id2label -> result pystr)
  (score : Type)
  (f1_score : list pystr -> list pystr -> list pystr -> result score)
  (percent : score -> score)
  (data_args : DataArgs id2label) (preds : list pred_row)
  (is_overflow : list bool)
  (get_words : pystr -> pystr -> result (list pystr))
  (is_training golden : bool) (mode language0 : pystr)
  (ep extra : list pystr) (lines : list Document) :
  (forall out,
      event_preds data_args = Some ep ->
      get_ace2005_argument_extraction_sl get_pred_per_mention f1_score percent
        data_args preds is_overflow lines = Ok out ->
      get_ace2005_argument_extraction_sl get_pred_per_mention f1_score percent
        (with_event_preds data_args (Some (ep ++ extra))) preds is_overflow
        lines = Ok out)
  /\ (forall st,
         extra <> [] ->
         read_examples get_words is_training golden mode (Some ep) language0
           lines = Ok st ->
         read_examples get_words is_training golden mode
           (Some (ep ++ extra)) language0 lines = Err AssertionError).
Proof.
  split.
  - intros out Hep H. unfold get_ace2005_argument_extraction_sl in *.
    apply bind_Ok_inv in H as (st & Hpass & H).
    rewrite (ae_pass_surplus _ _ _ _ _ ep extra Hep _ _ Hpass). exact H.
  - intros st. apply read_examples_surplus.
Qed.

Lemma surplus_predictions_witness :
  (exists out,
      get_ace2005_argument_extraction_sl first_word_label no_score
        (fun s => s)
        (with_event_preds (word_args mode_default false mixed_preds)
           (Some ([str "NA"; str "Attack"] ++ [str "Attack"; str "NA"])))
        [word_row] [false] [sample_doc] = Ok out)
  /\ read_examples sample_get_words false false mode_default
       (Some ([str "NA"; str "Attack"] ++ [str "Attack"; str "NA"]))
       English [sample_doc] = Err AssertionError.
Proof.
  pose proof (surplus_predictions _ first_word_label _ no_score (fun s => s)
                (word_args mode_default false mixed_preds) [word_row] [false]
                sample_get_words false false mode_default English
                [str "NA"; str "Attack"] [str "Attack"; str "NA"]
                [sample_doc]) as [H1 H2].
  split.
  - eexists. eapply H1; [reflexivity | vm_compute; reflexivity].
  - eapply H2; [discriminate | vm_compute; reflexivity].
Defined.

Lemma getitem_Ok_some {A} (field : option A) (a : A) :
  getitem field = Ok a -> field <> None.
Proof. destruct field; [discriminate | discriminate]. Qed.

(** X14. A line without the keys a converter reads raises [KeyError]:
    argument extraction returns only when every line has ["events"] and
    ["negative_triggers"] (a first line of blind inference ends the run at
    once), and event detection only when every line has these two or, having
    no ["events"], has ["candidates"]. *)
Theorem converters_need_keys
  (id2label : Type)
  (get_pred_per_mention : nat -> nat -> pred_row -> id2label -> result pystr)
  (score : Type)
  (f1_score : list pystr -> list pystr -> list pystr -> result score)
  (percent : score -> score)
  (data_args : DataArgs id2label) (preds : list pred_row)
  (is_overflow : list bool) :
  (forall lines out,
      get_ace2005_argument_extraction_sl get_pred_per_mention f1_score percent
        data_args preds is_overflow lines = Ok out ->
      forall item, In item lines -> has_gold_keys item)
  /\ (forall item rest,
         events item = None ->
         get_ace2005_argument_extraction_sl get_pred_per_mention f1_score
           percent data_args preds is_overflow (item :: rest) = Err KeyError)
  /\ (forall lines out,
         get_ace2005_trigger_detection_sl get_pred_per_mention f1_score
           percent data_args preds is_overflow lines = Ok out ->
         forall item, In item lines -> has_detection_keys item).
Proof.
  split; [|split].
  - intros lines out H item Hin.
    unfold get_ace2005_argument_extraction_sl in H.
    apply bind_Ok_inv in H as (st & Hpass & _).
    destruct (for_each_Ok_each _ _ _ _ Hpass _ Hin) as (s & s' & Hline).
    unfold ae_line in Hline.
    apply bind_Ok_inv in Hline as (evs & Hev & Hline).
    apply bind_Ok_inv in Hline as (s1 & _ & Hline).
    apply bind_Ok_inv in Hline as (negs & Hneg & _).
    split; eapply getitem_Ok_some; eassumption.
  - intros item rest He.
    unfold get_ace2005_argument_extraction_sl, ae_pass. simpl.
    unfold ae_line. rewrite He. reflexivity.
  - intros lines out H item Hin.
    unfold get_ace2005_trigger_detection_sl in H.
    apply bind_Ok_inv in H as (st & Hpass & _).
    apply In_nth_error in Hin as [i Hi]. apply enumerate_nth in Hi.
    destruct (for_each_Ok_each _ _ _ _ Hpass _ Hi) as (s & s' & Hline).
    unfold td_line in Hline.
    apply bind_Ok_inv in Hline as (u & _ & Hline).
    apply bind_Ok_inv in Hline as (cl & Hcl & _).
    unfold td_candidates in Hcl. unfold has_detection_keys.
    destruct (events item) as [evs|].
    + left. apply bind_Ok_inv in Hcl as (negs & Hneg & _).
      split; [discriminate | eapply getitem_Ok_some; eassumption].
    + right. apply bind_Ok_inv in Hcl as (cands & Hc & _).
      split; [reflexivity | eapply getitem_Ok_some; eassumption].
Qed.

Lemma converters_need_keys_witness :
  get_ace2005_argument_extraction_sl first_word_label no_score (fun s => s)
    (word_args mode_default true None) [word_row] [false]
    [candidate_doc; sample_doc] = Err KeyError.
Proof.
  apply (converters_need_keys _ first_word_label _ no_score (fun s => s)
           (word_args mode_default true None) [word_row] [false]).
  reflexivity.
Defined.

(** ** Instance counts under gold triggers and unknown modes *)

Lemma list_sum_flag {A} (b : bool) (l : list A) :
  list_sum (map (fun _ => if b then 1 else 0) l)
  = if b then length l else 0.
Proof.
  destruct b; [apply list_sum_const|].
  induction l as [|x l IH]; simpl; [reflexivity | exact IH].
Qed.

Section GatedCount.

Variable id2label : Type.
Variable data_args : DataArgs id2label.

(** The gate of a positive trigger as a test of its event type, and no
    negative trigger let through *)
Variable gate : pystr -> bool.
Hypothesis positive_gate :
  forall idx ty p, resolve_type data_args idx ty = Ok p ->
                   gate_positive data_args p = gate ty.
Hypothesis negative_gate :
  forall idx p, resolve_type data_args idx NA = Ok p ->
                gate_negative data_args p = false.

Lemma count_line_gated (item : Document) (c c' : nat * nat) :
  count_line data_args item c = Ok c' ->
  snd c' = snd c + gated_triggers gate item.
Proof.
  unfold count_line, gated_triggers. intros H.
  apply bind_Ok_inv in H as (evs & Hevs & H).
  apply bind_Ok_inv in H as (c1 & Hev & H).
  apply bind_Ok_inv in H as (negs & _ & H).
  destruct (events item) as [evs'|]; [|discriminate]. injection Hevs as ->.
  assert (Hneg : snd c' = snd c1 + list_sum (map (fun _ => 0) negs)).
  { eapply for_each_sum with (f := @snd nat nat); [|exact H].
    intros t u u' Hu. unfold count_trigger in Hu.
    apply bind_Ok_inv in Hu as (p & Hp & Hu). injection Hu as <-. simpl.
    rewrite (negative_gate _ _ Hp). reflexivity. }
  rewrite (list_sum_flag false negs) in Hneg.
  assert (Hpos : snd c1
                 = snd c
                   + list_sum
                       (map (fun event =>
                               if gate (type event)
                               then length (triggers event) else 0) evs)).
  { eapply for_each_sum with (f := @snd nat nat); [|exact Hev].
    intros ev s s' Hs. rewrite <- list_sum_flag.
    eapply for_each_sum with (f := @snd nat nat); [|exact Hs].
    intros t u u' Hu. unfold count_trigger in Hu.
    apply bind_Ok_inv in Hu as (p & Hp & Hu). injection Hu as <-. simpl.
    rewrite (positive_gate _ _ _ Hp). reflexivity. }
  lia.
Qed.

Lemma instance_count_gated (lines : list Document) (n : nat) :
  instance_count data_args lines = Ok n ->
  n = list_sum (map (gated_triggers gate) lines).
Proof.
  unfold instance_count. intros H.
  apply bind_Ok_inv in H as (c & Hc & H). injection H as <-.
  change (snd c = snd (0, 0) + list_sum (map (gated_triggers gate) lines)).
  eapply for_each_sum with (f := @snd nat nat); [|exact Hc].
  intros item s s'. apply count_line_gated.
Qed.

End GatedCount.

(** X15. With gold triggers, or without a prediction file, no negative
    trigger yields an instance in any mode: a completed pass has one
    instance per positive trigger whose event type passes the mode's gate,
    and in strict mode one per positive trigger. *)
Theorem gold_trigger_instances
  (id2label : Type)
  (get_pred_per_mention : nat -> nat -> pred_row -> id2label -> result pystr)
  (data_args : DataArgs id2label) (preds : list pred_row)
  (is_overflow : list bool) (lines : list Document) (st : ae_state) :
  golden_trigger data_args = true \/ event_preds data_args = None ->
  ae_pass get_pred_per_mention data_args preds is_overflow lines = Ok st ->
  eae_instance_idx st
  = list_sum (map (gated_triggers (gate_positive data_args)) lines)
  /\ (eae_eval_mode data_args = mode_strict ->
      eae_instance_idx st
      = list_sum (map (fun item => length (positive_triggers item)) lines)).
Proof.
  intros Hgold H. apply ae_pass_count in H.
  assert (E : eae_instance_idx st
              = list_sum (map (gated_triggers (gate_positive data_args))
                              lines)).
  { apply (instance_count_gated _ data_args (gate_positive data_args));
      [| |exact H].
    - intros idx ty p Hp. rewrite resolve_type_gold in Hp by assumption.
      injection Hp as <-. reflexivity.
    - intros idx p Hp. rewrite resolve_type_gold in Hp by assumption.
      injection Hp as <-. unfold gate_negative.
      rewrite pystr_eqb_refl. apply andb_false_r. }
  split; [exact E|].
  intros Hmode. rewrite E. f_equal. apply map_ext. intros item.
  unfold gated_triggers, positive_triggers, gate_positive. rewrite Hmode.
  change (str_in mode_strict [mode_default; mode_loose]) with false.
  simpl. destruct (events item) as [evs|]; [|reflexivity].
  symmetry. apply length_flat_map_sum.
Qed.

Lemma gold_trigger_instances_witness :
  exists st,
    ae_pass first_word_label (word_args mode_strict true mixed_preds)
      [word_row] [false] [sample_doc] = Ok st
    /\ eae_instance_idx st = 1.
Proof.
  eexists. split; [vm_compute; reflexivity|].
  apply (proj2 (gold_trigger_instances _ first_word_label
                  (word_args mode_strict true mixed_preds) [word_row] [false]
                  [sample_doc] _ (or_introl eq_refl) eq_refl)).
  reflexivity.
Defined.

(** X16. The converter accepts an evaluation mode it does not know: every
    positive trigger is then scored and no negative one, whatever was
    predicted. The processor raises [ValueError] at the first negative
    trigger it reaches in such a mode. *)
Theorem unknown_mode
  (id2label : Type)
  (get_pred_per_mention : nat -> nat -> pred_row -> id2label -> result pystr)
  (data_args : DataArgs id2label) (preds : list pred_row)
  (is_overflow : list bool)
  (is_training golden : bool) (self_event_preds : option (list pystr))
  (mode : pystr) :
  mode <> mode_default -> mode <> mode_loose -> mode <> mode_strict ->
  (forall lines st,
      eae_eval_mode data_args = mode ->
      ae_pass get_pred_per_mention data_args preds is_overflow lines = Ok st ->
      eae_instance_idx st
      = list_sum (map (fun item => length (positive_triggers item)) lines))
  /\ (forall words kwargs neg st,
         s2s_negative_trigger is_training golden mode self_event_preds
           words kwargs neg st
         = (p <- s2s_resolve is_training golden self_event_preds st ;;
            Err ValueError)).
Proof.
  intros Hd Hl Hs.
  apply pystr_eqb_neq in Hd, Hl, Hs.
  assert (A : str_in mode [mode_default; mode_loose] = false).
  { unfold str_in. simpl. rewrite Hd, Hl. reflexivity. }
  assert (B : str_in mode [mode_default; mode_strict] = false).
  { unfold str_in. simpl. rewrite Hd, Hs. reflexivity. }
  split.
  - intros lines st Hmode H. apply ae_pass_count in H.
    assert (E : eae_instance_idx st
                = list_sum (map (gated_triggers (fun _ => true)) lines)).
    { apply (instance_count_gated _ data_args (fun _ => true));
        [| |exact H].
      - intros idx ty p _. unfold gate_positive. rewrite Hmode, A.
        reflexivity.
      - intros idx p _. unfold gate_negative. rewrite Hmode, B.
        reflexivity. }
    rewrite E. f_equal. apply map_ext. intros item.
    unfold gated_triggers, positive_triggers.
    destruct (events item) as [evs|]; [|reflexivity].
    symmetry. apply length_flat_map_sum.
  - intros. unfold s2s_negative_trigger. rewrite Hl, B. reflexivity.
Qed.

Lemma unknown_mode_witness :
  exists st,
    ae_pass first_word_label (word_args (str "lenient") false mixed_preds)
      [word_row] [false] [sample_doc] = Ok st
    /\ eae_instance_idx st = 1.
Proof.
  eexists. split; [vm_compute; reflexivity|].
  assert (Hd : str "lenient" <> mode_default) by discriminate.
  assert (Hl : str "lenient" <> mode_loose) by discriminate.
  assert (Hs : str "lenient" <> mode_strict) by discriminate.
  apply (proj1 (unknown_mode _ first_word_label
                  (word_args (str "lenient") false mixed_preds) [word_row]
                  [false] false false None (str "lenient") Hd Hl Hs)
           [sample_doc]).
  - reflexivity.
  - vm_compute. reflexivity.
Defined.

(** X17. On an empty data file neither converter returns: event detection
    raises [UnboundLocalError] at the test of the loop variable, argument
    extraction raises [AssertionError] when there are prediction rows and
    [ValueError] when there are none. The processor returns no examples,
    unless a prediction file with entries was loaded. *)
Theorem empty_data_file
  (id2label : Type)
  (get_pred_per_mention : nat -> nat -> pred_row -> id2label -> result pystr)
  (score : Type)
  (f1_score : list pystr -> list pystr -> list pystr -> result score)
  (percent : score -> score)
  (data_args : DataArgs id2label) (preds : list pred_row)
  (is_overflow : list bool)
  (get_words : pystr -> pystr -> result (list pystr))
  (is_training golden : bool) (mode language0 : pystr)
  (self_event_preds : option (list pystr)) :
  get_ace2005_trigger_detection_sl get_pred_per_mention f1_score percent
    data_args preds is_overflow [] = Err UnboundLocalError
  /\ get_ace2005_argument_extraction_sl get_pred_per_mention f1_score percent
       data_args preds is_overflow []
     = Err (match preds with
            | [] => ValueError
            | _ :: _ => AssertionError
            end)
  /\ read_examples get_words is_training golden mode self_event_preds
       language0 []
     = match self_event_preds with
       | Some (_ :: _) => Err AssertionError
       | _ => Ok (s2s_init language0)
       end.
Proof.
  split; [reflexivity|]. split.
  - destruct preds; reflexivity.
  - destruct self_event_preds as [[|p ep]|]; reflexivity.
Qed.

(** ** Invariants of the processor's pass *)

Section PassInvariant.

Variable get_words : pystr -> pystr -> result (list pystr).
Variable is_training : bool.
Variable config_golden_trigger : bool.
Variable config_eae_eval_mode : pystr.
Variable self_event_preds : option (list pystr).
Variable language0 : pystr.

Variable P : s2s_state -> Prop.
Hypothesis P_set_language : forall item st, P st -> P (s2s_set_language item st).
Hypothesis P_bind_event : forall event st, P st -> P (s2s_bind_event event st).
Hypothesis P_positive :
  forall words ws kwargs event trigger st st',
    P st ->
    s2s_positive_trigger is_training config_golden_trigger
      config_eae_eval_mode self_event_preds words ws kwargs event trigger st
    = Ok st' ->
    P st'.
Hypothesis P_negative :
  forall words kwargs neg st st',
    P st ->
    s2s_negative_trigger is_training config_golden_trigger
      config_eae_eval_mode self_event_preds words kwargs neg st = Ok st' ->
    P st'.
Hypothesis P_candidate :
  forall words kwargs candi st st',
    P st ->
    s2s_candidate self_event_preds words kwargs candi st = Ok st' ->
    P st'.

Lemma s2s_line_invariant (item : Document) (st st' : s2s_state) :
  P st ->
  s2s_line get_words is_training config_golden_trigger config_eae_eval_mode
    self_event_preds language0 item st = Ok st' ->
  P st'.
Proof.
  intros HP H. unfold s2s_line in H.
  apply bind_Ok_inv in H as (words & _ & H).
  apply (P_set_language item) in HP.
  destruct (events item) as [evs|].
  - apply bind_Ok_inv in H as (st1 & Hev & H).
    apply bind_Ok_inv in H as (negs & _ & H).
    eapply for_each_inv with (I := P); [| |exact H].
    + intros t s s'. apply P_negative.
    + eapply for_each_inv with (I := P); [| |exact Hev]; [|exact HP].
      intros ev s s' Hs Hevs. unfold s2s_event in Hevs.
      eapply for_each_inv with (I := P); [| |exact Hevs].
      * intros t u u'. apply P_positive.
      * apply P_bind_event. exact Hs.
  - apply bind_Ok_inv in H as (cands & _ & H).
    eapply for_each_inv with (I := P); [| |exact H]; [|exact HP].
    intros t s s'. apply P_candidate.
Qed.

Lemma read_examples_invariant (lines : list Document) (st : s2s_state) :
  P (s2s_init language0) ->
  read_examples get_words is_training config_golden_trigger
    config_eae_eval_mode self_event_preds language0 lines = Ok st ->
  P st.
Proof.
  intros HP H. unfold read_examples in H.
  apply bind_Ok_inv in H as (st1 & Hpass & H).
  assert (P1 : P st1).
  { eapply for_each_inv with (I := P); [| |exact Hpass]; [|exact HP].
    intros item s s'. apply s2s_line_invariant. }
  destruct self_event_preds as [ep|].
  - apply bind_Ok_inv in H as (u & _ & H). injection H as <-. exact P1.
  - injection H as <-. exact P1.
Qed.

End PassInvariant.

Lemma StronglySorted_snoc (l : list nat) (x : nat) :
  StronglySorted lt l -> Forall (fun a => a < x) l ->
  StronglySorted lt (l ++ [x]).
Proof.
  induction 1 as [|a l Hl IH Ha]; intros Hx; simpl.
  - repeat constructor.
  - inversion Hx as [|? ? Hax Hlx]; subst. constructor.
    + apply IH. assumption.
    + rewrite Forall_app. split; [assumption | repeat constructor; assumption].
Qed.

Lemma s2s_add_ordered (ex : EAEInputExample) gold (st : s2s_state) :
  s2s_ids_ordered st ->
  example_id ex = s2s_trigger_idx st ->
  s2s_ids_ordered (s2s_add ex gold (s2s_next_trigger st)).
Proof.
  intros [Hs Hb] Hid. unfold s2s_ids_ordered. simpl. split.
  - rewrite map_app. simpl. apply StronglySorted_snoc; [assumption|].
    rewrite Forall_map, Hid. exact Hb.
  - rewrite Forall_app. split.
    + eapply Forall_impl; [|exact Hb]. simpl. intros a Ha. lia.
    + repeat constructor. lia.
Qed.

Lemma s2s_next_ordered (st : s2s_state) :
  s2s_ids_ordered st -> s2s_ids_ordered (s2s_next_trigger st).
Proof.
  intros [Hs Hb]. unfold s2s_ids_ordered. simpl. split; [assumption|].
  eapply Forall_impl; [|exact Hb]. simpl. intros a Ha. lia.
Qed.

Ltac s2s_step H :=
  apply bind_Ok_inv in H as (?p & ?Hp & H);
  repeat match type of H with
    | (if ?c then _ else _) = Ok _ => destruct c eqn:?E
    end;
  try discriminate H; injection H as <-.

(** X18. The processor keeps its examples and their gold arguments side by
    side: after [read_examples] the two lists have the same length. *)
Theorem examples_and_gold_parallel
  (get_words : pystr -> pystr -> result (list pystr))
  (is_training golden : bool) (mode language0 : pystr)
  (self_event_preds : option (list pystr)) (lines : list Document)
  (st : s2s_state) :
  read_examples get_words is_training golden mode self_event_preds language0
    lines = Ok st ->
  length (examples st) = length (golden_arguments st).
Proof.
  apply (read_examples_invariant get_words is_training golden mode
           self_event_preds language0 s2s_parallel).
  - intros item s Hs. unfold s2s_set_language.
    destruct (source item); exact Hs.
  - intros ev s Hs. exact Hs.
  - intros words ws kwargs ev t s s' Hs H. unfold s2s_positive_trigger in H.
    s2s_step H; unfold s2s_parallel in *; simpl; rewrite ?length_app; simpl;
      lia.
  - intros words kwargs neg s s' Hs H. unfold s2s_negative_trigger in H.
    s2s_step H; unfold s2s_parallel in *; simpl; rewrite ?length_app; simpl;
      lia.
  - intros words kwargs c s s' Hs H. unfold s2s_candidate in H.
    s2s_step H; unfold s2s_parallel in *; simpl; rewrite ?length_app; simpl;
      lia.
  - reflexivity.
Qed.

Lemma examples_and_gold_parallel_witness :
  exists st,
    read_examples sample_get_words false true mode_default None English
      [sample_doc] = Ok st
    /\ length (examples st) = length (golden_arguments st).
Proof.
  eexists. split; [vm_compute; reflexivity|].
  apply (examples_and_gold_parallel sample_get_words false true mode_default
           English None [sample_doc]).
  vm_compute. reflexivity.
Defined.

(** X19. The id of an example is the position of its trigger in the file:
    after [read_examples] the ids of the examples are strictly increasing
    (so no two examples share one) and below the number of triggers. *)
Theorem example_ids_ordered
  (get_words : pystr -> pystr -> result (list pystr))
  (is_training golden : bool) (mode language0 : pystr)
  (self_event_preds : option (list pystr)) (lines : list Document)
  (st : s2s_state) :
  read_examples get_words is_training golden mode self_event_preds language0
    lines = Ok st ->
  StronglySorted lt (map example_id (examples st))
  /\ Forall (fun ex => example_id ex < total_triggers lines) (examples st).
Proof.
  intros H.
  assert (I : s2s_ids_ordered st).
  { revert H.
    apply (read_examples_invariant get_words is_training golden mode
             self_event_preds language0 s2s_ids_ordered).
    - intros item s Hs. unfold s2s_set_language.
      destruct (source item); exact Hs.
    - intros ev s Hs. exact Hs.
    - intros words ws kwargs ev t s s' Hs H. unfold s2s_positive_trigger in H.
      s2s_step H; [apply s2s_next_ordered; exact Hs|].
      apply s2s_add_ordered; [exact Hs | simpl; lia].
    - intros words kwargs neg s s' Hs H. unfold s2s_negative_trigger in H.
      s2s_step H; try (apply s2s_next_ordered; exact Hs).
      apply s2s_add_ordered; [exact Hs | simpl; lia].
    - intros words kwargs c s s' Hs H. unfold s2s_candidate in H.
      s2s_step H; try (apply s2s_next_ordered; exact Hs).
      apply s2s_add_ordered; [exact Hs | simpl; lia].
    - split; constructor. }
  destruct I as [Hs Hb]. split; [exact Hs|].
  assert (T : s2s_trigger_idx st = total_triggers lines).
  { unfold read_examples in H.
    apply bind_Ok_inv in H as (st1 & Hpass & H).
    assert (T1 : s2s_trigger_idx st1
                 = s2s_trigger_idx (s2s_init language0)
                   + list_sum (map num_triggers lines)).
    { eapply for_each_sum with (f := s2s_trigger_idx); [|exact Hpass].
      intros x s s'. apply s2s_line_idx. }
    destruct self_event_preds as [ep|].
    - apply bind_Ok_inv in H as (u & _ & H). injection H as <-. exact T1.
    - injection H as <-. exact T1. }
  rewrite <- T. exact Hb.
Qed.

Lemma example_ids_ordered_witness :
  exists st,
    read_examples sample_get_words false false mode_default mixed_preds
      English [sample_doc] = Ok st
    /\ map example_id (examples st) = [1]
    /\ Forall (fun ex => example_id ex < total_triggers [sample_doc])
              (examples st).
Proof.
  eexists. split; [vm_compute; reflexivity|]. split; [reflexivity|].
  apply (example_ids_ordered sample_get_words false false mode_default
           English mixed_preds [sample_doc]).
  vm_compute. reflexivity.
Defined.

(** X20. In default and in loose mode the processor makes no example of a
    trigger or candidate whose resolved type is ["NA"]: after
    [read_examples] every example has another predicted type. *)
Theorem no_NA_example
  (get_words : pystr -> pystr -> result (list pystr))
  (is_training golden : bool) (mode language0 : pystr)
  (self_event_preds : option (list pystr)) (lines : list Document)
  (st : s2s_state) :
  mode = mode_default \/ mode = mode_loose ->
  read_examples get_words is_training golden mode self_event_preds language0
    lines = Ok st ->
  Forall (fun ex => pred_type ex <> NA) (examples st).
Proof.
  intros Hmode.
  assert (A : str_in mode [mode_default; mode_loose] = true)
    by (destruct Hmode as [-> | ->]; reflexivity).
  apply (read_examples_invariant get_words is_training golden mode
           self_event_preds language0 s2s_no_NA).
  - intros item s Hs. unfold s2s_set_language.
    destruct (source item); exact Hs.
  - intros ev s Hs. exact Hs.
  - intros words ws kwargs ev t s s' Hs H. unfold s2s_positive_trigger in H.
    rewrite A in H. simpl in H.
    s2s_step H; [exact Hs|].
    unfold s2s_no_NA. simpl. rewrite Forall_app. split; [exact Hs|].
    repeat constructor. simpl. apply pystr_eqb_neq. assumption.
  - intros words kwargs neg s s' Hs H. unfold s2s_negative_trigger in H.
    s2s_step H; try exact Hs.
    unfold s2s_no_NA. simpl. rewrite Forall_app. split; [exact Hs|].
    repeat constructor. simpl. apply pystr_eqb_neq.
    apply negb_true_iff. assumption.
  - intros words kwargs c s s' Hs H. unfold s2s_candidate in H.
    s2s_step H; try exact Hs.
    unfold s2s_no_NA. simpl. rewrite Forall_app. split; [exact Hs|].
    repeat constructor. simpl. apply pystr_eqb_neq.
    apply negb_true_iff. assumption.
  - constructor.
Qed.

Lemma no_NA_example_witness :
  exists st,
    read_examples sample_get_words false false mode_default mixed_preds
      English [sample_doc] = Ok st
    /\ Forall (fun ex => pred_type ex <> NA) (examples st).
Proof.
  eexists. split; [vm_compute; reflexivity|].
  apply (no_NA_example sample_get_words false false mode_default English
           mixed_preds [sample_doc]); [left; reflexivity|].
  vm_compute. reflexivity.
Defined.

(** ** The gold arguments of an example *)

Lemma values_of_snoc (r k v : pystr) (pairs : list (pystr * pystr)) :
  values_of r (pairs ++ [(k, v)])
  = if pystr_eqb k r then values_of r pairs ++ [v] else values_of r pairs.
Proof.
  unfold values_of. rewrite filter_app, map_app. simpl.
  destruct (pystr_eqb k r); simpl; [reflexivity | apply app_nil_r].
Qed.

Lemma dict_append_keys (k v : pystr) (d : list (pystr * list pystr)) :
  map fst (dict_append k v d)
  = if str_in k (map fst d) then map fst d else map fst d ++ [k].
Proof.
  induction d as [|[k' vs] d IH]; simpl; [reflexivity|].
  destruct (pystr_eqb k' k) eqn:E.
  - apply pystr_eqb_eq in E. subst k'. unfold str_in. simpl.
    rewrite pystr_eqb_refl. reflexivity.
  - simpl. rewrite IH. unfold str_in. simpl.
    assert (E' : pystr_eqb k k' = false).
    { apply pystr_eqb_neq. apply pystr_eqb_neq in E. congruence. }
    rewrite E'. simpl.
    destruct (existsb (pystr_eqb k) (map fst d)); reflexivity.
Qed.

Lemma dict_append_In (k v : pystr) (d : list (pystr * list pystr))
  (r : pystr) (vs : list pystr) :
  NoDup (map fst d) ->
  (In (r, vs) (dict_append k v d)
   <-> (r <> k /\ In (r, vs) d)
       \/ (r = k /\ exists vs0, In (k, vs0) d /\ vs = vs0 ++ [v])
       \/ (r = k /\ ~ In k (map fst d) /\ vs = [v])).
Proof.
  induction d as [|[k' vs'] d IH]; intros Hnd; simpl.
  - split.
    + intros [H|[]]. injection H as <- <-. right. right. auto.
    + intros [[_ []]|[[_ (vs0 & [] & _)]|[-> [_ ->]]]]. left. reflexivity.
  - inversion Hnd as [|? ? Hk' Hd]; subst. specialize (IH Hd).
    destruct (pystr_eqb k' k) eqn:E.
    + apply pystr_eqb_eq in E. subst k'. simpl. split.
      * intros [H|H].
        -- injection H as <- <-. right. left. split; [reflexivity|].
           exists vs'. split; [left; reflexivity | reflexivity].
        -- left. split; [|right; exact H].
           intros ->. apply Hk'. apply (in_map fst) in H. exact H.
      * intros [[Hne [H|H]]|[[-> (vs0 & [H|H] & ->)]|[-> [Hn _]]]].
        -- injection H as <- <-. contradiction.
        -- right. exact H.
        -- injection H as <-. left. reflexivity.
        -- exfalso. apply Hk'. apply (in_map fst) in H. exact H.
        -- exfalso. apply Hn. left. reflexivity.
    + apply pystr_eqb_neq in E. simpl. rewrite IH. split.
      * intros [H|[[Hne H]|[[-> (vs0 & H & ->)]|[-> [Hn ->]]]]].
        -- injection H as <- <-. left. split; [exact E | left; reflexivity].
        -- left. split; [exact Hne | right; exact H].
        -- right. left. split; [reflexivity|]. exists vs0.
           split; [right; exact H | reflexivity].
        -- right. right. split; [reflexivity|]. split; [|reflexivity].
           intros [H|H]; [apply E; exact H | apply Hn; exact H].
      * intros [[Hne [H|H]]|[[-> (vs0 & [H|H] & ->)]|[-> [Hn ->]]]].
        -- left. exact H.
        -- right. left. split; assumption.
        -- injection H as <-. exfalso. apply E. reflexivity.
        -- right. right. left. split; [reflexivity|]. exists vs0. auto.
        -- right. right. right. split; [reflexivity|]. split; [|reflexivity].
           intros H. apply Hn. right. exact H.
Qed.

Lemma groups_key (d : list (pystr * list pystr))
  (pairs : list (pystr * pystr)) (k : pystr) :
  groups d pairs -> (In k (map fst d) <-> values_of k pairs <> []).
Proof.
  intros [_ Hd]. split.
  - intros H. apply in_map_iff in H as [[k' vs] [E H]]. simpl in E. subst k'.
    apply Hd in H as [Hne ->]. exact Hne.
  - intros H. apply in_map_iff. exists (k, values_of k pairs).
    split; [reflexivity|]. apply Hd. auto.
Qed.

Lemma groups_snoc (d : list (pystr * list pystr))
  (pairs : list (pystr * pystr)) (k v : pystr) :
  groups d pairs -> groups (dict_append k v d) (pairs ++ [(k, v)]).
Proof.
  intros G. pose proof G as [Hnd Hd]. split.
  - rewrite dict_append_keys.
    destruct (str_in k (map fst d)) eqn:E; [exact Hnd|].
    apply NoDup_app; [exact Hnd | repeat constructor; intros [] |].
    + intros x Hx [<-|[]]. apply str_in_In in Hx. congruence.
  - intros r vs. rewrite (dict_append_In k v d r vs Hnd).
    rewrite values_of_snoc. split.
    + intros [[Hne H]|[[-> (vs0 & H & ->)]|[-> [Hn ->]]]].
      * assert (E : pystr_eqb k r = false)
          by (apply pystr_eqb_neq; congruence).
        rewrite E. apply Hd. exact H.
      * rewrite pystr_eqb_refl. apply Hd in H as [_ <-].
        split; [destruct vs0; discriminate | reflexivity].
      * rewrite pystr_eqb_refl. split; [discriminate|].
        rewrite (groups_key d pairs k G) in Hn.
        destruct (values_of k pairs); [reflexivity|].
        exfalso. apply Hn. discriminate.
    + intros [Hne ->]. destruct (pystr_eqb k r) eqn:E.
      * apply pystr_eqb_eq in E. subst r. right.
        destruct (values_of k pairs) as [|a vs0] eqn:V.
        -- right. split; [reflexivity|]. split; [|reflexivity].
           rewrite (groups_key d pairs k G), V. intros H. apply H. reflexivity.
        -- left. split; [reflexivity|]. exists (a :: vs0).
           split; [|reflexivity]. apply Hd. rewrite V.
           split; [discriminate | reflexivity].
      * left. apply pystr_eqb_neq in E. split; [congruence|].
        apply Hd. auto.
Qed.

Lemma fold_dict_append_groups (pairs : list (pystr * pystr)) :
  groups (fold_left (fun d p => dict_append (fst p) (snd p) d) pairs []) pairs.
Proof.
  induction pairs as [|[k v] pairs IH] using rev_ind.
  - split; [constructor|]. intros r vs. simpl. split; [intros []|].
    intros [Hne ->]. apply Hne. reflexivity.
  - rewrite fold_left_app. simpl. apply groups_snoc. exact IH.
Qed.


Lemma values_of_In (r v : pystr) (pairs : list (pystr * pystr)) :
  In v (values_of r pairs) <-> In (r, v) pairs.
Proof.
  unfold values_of. rewrite in_map_iff. split.
  - intros [[r' v'] [E H]]. simpl in E. subst v'.
    apply filter_In in H as [H Hr]. simpl in Hr.
    apply pystr_eqb_eq in Hr. subst r'. exact H.
  - intros H. exists (r, v). split; [reflexivity|].
    apply filter_In. split; [exact H | apply pystr_eqb_refl].
Qed.

(** X22. The labels of an example decode to its gold arguments: for a
    trigger whose roles and mentions are in the decoder's normal form, the
    extractor returns the tuple of a role and a value exactly when the
    dictionary of gold arguments lists the value under the role. *)
Theorem labels_decode_to_gold (trigger : Trigger) (instance_id : Z)
  (event_type language r v : pystr) :
  forallb clean_pair (trigger_pairs trigger) = true ->
  (In (instance_id, event_type, r, v)
      (extract_argument (trigger_labels (template_space language) trigger)
         instance_id event_type)
   <-> exists vs, In (r, vs) (arguments_per_trigger trigger) /\ In v vs).
Proof.
  intros Hclean.
  rewrite trigger_labels_encode. unfold extract_argument, list_set.
  rewrite (decode_encode_list instance_id event_type
             (template_space language) (template_space_cases language)
             _ Hclean).
  rewrite nodup_In, in_map_iff.
  destruct (fold_dict_append_groups (trigger_pairs trigger)) as [_ Hd].
  fold (arguments_per_trigger trigger) in Hd. split.
  - intros [[r' v'] [E H]]. simpl in E. injection E as -> ->.
    exists (values_of r (trigger_pairs trigger)). split.
    + apply Hd. split; [|reflexivity].
      apply values_of_In in H. intros N. rewrite N in H. destruct H.
    + apply values_of_In. exact H.
  - intros [vs [H Hv]]. apply Hd in H as [_ ->].
    apply values_of_In in Hv. exists (r, v). auto.
Qed.

Lemma labels_decode_to_gold_witness :
  In (7%Z, str "Attack", str "Victim", str "John")
     (extract_argument (trigger_labels (template_space English) attack_trigger)
        7 (str "Attack")).
Proof.
  apply (labels_decode_to_gold attack_trigger 7 (str "Attack") English
           (str "Victim") (str "John")); [reflexivity|].
  exists [str "John"]. split; left; reflexivity.
Defined.

(** ** Errors of the processor *)

(** X23. The processor needs a prediction file for blind inference: without
    one the first candidate raises [TypeError], so that [read_examples]
    returns only if the lines without gold events have no candidate; and,
    like the converters, it returns only if every line has the keys it
    reads. *)
Theorem processor_needs_predictions
  (get_words : pystr -> pystr -> result (list pystr))
  (is_training golden : bool) (mode language0 : pystr)
  (self_event_preds : option (list pystr)) :
  (forall lines st,
      read_examples get_words is_training golden mode self_event_preds
        language0 lines = Ok st ->
      forall item, In item lines -> has_detection_keys item)
  /\ (forall lines st,
         self_event_preds = None ->
         read_examples get_words is_training golden mode self_event_preds
           language0 lines = Ok st ->
         forall item, In item lines -> events item = None ->
                      candidates item = Some [])
  /\ (forall item rest words c cs,
         self_event_preds = None ->
         events item = None -> candidates item = Some (c :: cs) ->
         get_words (text item) language0 = Ok words ->
         read_examples get_words is_training golden mode self_event_preds
           language0 (item :: rest) = Err TypeError).
Proof.
  split; [|split].
  - intros lines st H item Hin. unfold read_examples in H.
    apply bind_Ok_inv in H as (st1 & Hpass & _).
    destruct (for_each_Ok_each _ _ _ _ Hpass _ Hin) as (s & s' & Hline).
    unfold s2s_line in Hline.
    apply bind_Ok_inv in Hline as (words & _ & Hline).
    unfold has_detection_keys. destruct (events item) as [evs|].
    + left. apply bind_Ok_inv in Hline as (s1 & _ & Hline).
      apply bind_Ok_inv in Hline as (negs & Hneg & _).
      split; [discriminate | eapply getitem_Ok_some; eassumption].
    + right. apply bind_Ok_inv in Hline as (cands & Hc & _).
      split; [reflexivity | eapply getitem_Ok_some; eassumption].
  - intros lines st -> H item Hin He. unfold read_examples in H.
    apply bind_Ok_inv in H as (st1 & Hpass & _).
    destruct (for_each_Ok_each _ _ _ _ Hpass _ Hin) as (s & s' & Hline).
    unfold s2s_line in Hline.
    apply bind_Ok_inv in Hline as (words & _ & Hline).
    rewrite He in Hline.
    apply bind_Ok_inv in Hline as (cands & Hc & Hline).
    destruct (candidates item) as [cands'|]; [|discriminate].
    injection Hc as ->. destruct cands as [|c cs]; [reflexivity|].
    simpl in Hline. discriminate.
  - intros item rest words c cs -> He Hc Hw.
    unfold read_examples. simpl. unfold s2s_line.
    rewrite Hw, He, Hc. reflexivity.
Qed.

Lemma processor_needs_predictions_witness :
  read_examples sample_get_words false false mode_default None English
    [candidate_doc] = Err TypeError.
Proof.
  apply (processor_needs_predictions sample_get_words false false
           mode_default English None)
    with (words := py_split sample_text) (c := neg_saw) (cs := [john]);
    reflexivity.
Defined.

(** ** Trigger markers *)

Section Markers.

Variable space : pystr.
Variables a b : Z.
Variables m0 m1 : pystr.
Variable markers : list pystr.
Hypothesis marker0 : index markers 0 = Ok m0.
Hypothesis marker1 : index markers 1 = Ok m1.



End Markers.











Lemma insert_marker_loop_plain space a b markers (tokens : list pystr)
  (acc : list pystr) (pos : nat) :
  ~ In a (map Z.of_nat (token_starts space pos tokens)) ->
  ~ In (b + Z.of_nat (length space))%Z
       (map Z.of_nat (token_ends space pos tokens)) ->
  for_each (insert_marker_step space (a, b) markers) tokens (acc, pos)
  = Ok (acc ++ tokens, pos + tokens_width space tokens).
Proof.
  revert acc pos; induction tokens as [|t ts IH]; intros acc pos Ha Hb.
  - simpl. rewrite app_nil_r, Nat.add_0_r. reflexivity.
  - simpl in Ha, Hb. cbn [for_each]. unfold insert_marker_step at 1.
    simpl fst; simpl snd. fold (token_width space t).
    destruct (Z.eqb_spec (Z.of_nat pos) a) as [E|_];
      [exfalso; apply Ha; left; exact E|].
    cbn [bind].
    destruct (Z.eqb_spec (Z.of_nat (pos + token_width space t))
                (b + Z.of_nat (length space))) as [E|_];
      [exfalso; apply Hb; left; exact E|].
    cbn [bind]. rewrite IH.
    + unfold tokens_width. simpl. rewrite <- app_assoc, Nat.add_assoc.
      reflexivity.
    + intros H. apply Ha. right. exact H.
    + intros H. apply Hb. right. exact H.
Qed.

(** X25. The offsets of the trigger are compared with the tokens laid out
    with the processor's spacing, not with the text: when the start is not
    where a token starts and the end is not where a token ends,
    [insert_marker] returns the tokens without any marker and without an
    error, whatever the markers are. *)
Theorem insert_marker_misaligned (tokens markers : list pystr)
  (trigger_pos : Z * Z) (whitespace : bool) :
  let space := marker_space whitespace in
  ~ In (fst trigger_pos) (map Z.of_nat (token_starts space 0 tokens)) ->
  ~ In (snd trigger_pos + Z.of_nat (length space))%Z
       (map Z.of_nat (token_ends space 0 tokens)) ->
  insert_marker tokens trigger_pos markers whitespace = Ok tokens.
Proof.
  intros space Ha Hb. destruct trigger_pos as [a b].
  unfold insert_marker. fold (marker_space whitespace). fold space.
  rewrite insert_marker_loop_plain by assumption. reflexivity.
Qed.

Lemma insert_marker_misaligned_witness :
  py_slice sample_text 6 9 = str "hit"
  /\ insert_marker (py_split sample_text) (6, 9)%Z [str "<t>"; str "</t>"]
       true = Ok (py_split sample_text).
Proof.
  split; [reflexivity|].
  apply (insert_marker_misaligned (py_split sample_text)
           [str "<t>"; str "</t>"] (6, 9)%Z true).
  - vm_compute. intuition discriminate.
  - vm_compute. intuition discriminate.
Defined.

(** ** The mask of the unused label positions *)

Lemma list_assign_spec {A} (l : list A) (i : nat) (v : A) :
  (i < length l ->
   exists l', list_assign l i v = Ok l' /\ length l' = length l
              /\ forall j, nth_error l' j
                           = if j =? i then Some v else nth_error l j)
  /\ (length l <= i -> list_assign l i v = Err IndexError).
Proof.
  unfold list_assign. split.
  - intros H. destruct (Nat.ltb_spec i (length l)); [|lia].
    eexists. split; [reflexivity|]. split.
    + rewrite length_app. cbn [length].
      rewrite length_firstn, length_skipn. lia.
    + intros j. destruct (Nat.eqb_spec j i) as [->|Hne].
      * rewrite nth_error_app2; rewrite length_firstn; [|lia].
        replace (i - Nat.min i (length l)) with 0 by lia. reflexivity.
      * destruct (Nat.lt_ge_cases j i) as [Hlt|Hge].
        -- rewrite nth_error_app1 by (rewrite length_firstn; lia).
           rewrite nth_error_firstn.
           destruct (Nat.ltb_spec j i); [reflexivity | lia].
        -- rewrite nth_error_app2 by (rewrite length_firstn; lia).
           rewrite length_firstn.
           replace (j - Nat.min i (length l)) with (S (j - S i)) by lia.
           cbn [nth_error]. rewrite nth_error_skipn. f_equal. lia.
  - intros H. destruct (Nat.ltb_spec i (length l)); [lia | reflexivity].
Qed.

(** The loop from position [k] on: the mask's zeros are written over *)
Lemma mask_loop (mask : list Z) (k : nat) (ids r : list Z) :
  for_each mask_step (combine (seq k (length mask)) mask) ids = Ok r ->
  length r = length ids
  /\ (forall j, padded_at mask j = true -> k + j < length ids)
  /\ forall j, nth_error r j
               = if (k <=? j) && padded_at mask (j - k)
                 then (if j <? length ids then Some (-100)%Z else None)
                 else nth_error ids j.
Proof.
  revert k ids; induction mask as [|flag mask IH]; intros k ids H.
  - simpl in H. injection H as <-. split; [reflexivity|]. split.
    + intros j Hj. unfold padded_at in Hj. destruct j; discriminate.
    + intros j. unfold padded_at.
      replace (nth_error (@nil Z) (j - k)) with (@None Z)
        by (destruct (j - k); reflexivity).
      rewrite andb_false_r. reflexivity.
  - cbn [length seq combine for_each] in H.
    apply bind_Ok_inv in H as (ids1 & Hstep & H).
    apply IH in H as (Hlen & Hrange & Hnth).
    unfold mask_step in Hstep.
    destruct (Z.eqb_spec flag 0) as [->|Hflag].
    + destruct (list_assign_spec ids k (-100)%Z) as [Hin Hout].
      destruct (Nat.lt_ge_cases k (length ids)) as [Hk|Hk];
        [|rewrite (Hout Hk) in Hstep; discriminate].
      destruct (Hin Hk) as (l' & E & Hl' & Hn'). rewrite E in Hstep.
      injection Hstep as <-. split; [lia|]. split.
      * intros [|j] Hj; [lia|]. specialize (Hrange j Hj). lia.
      * intros j. rewrite Hnth, Hn', Hl'.
        destruct (Nat.leb_spec (S k) j); destruct (Nat.leb_spec k j);
          try lia; simpl.
        -- replace (j - k) with (S (j - S k)) by lia.
           unfold padded_at at 2. simpl. fold (padded_at mask (j - S k)).
           destruct (Nat.eqb_spec j k); [lia | reflexivity].
        -- destruct (Nat.eqb_spec j k) as [->|Hne].
           ++ rewrite Nat.sub_diag. unfold padded_at. simpl.
              destruct (Nat.ltb_spec k (length ids)); [reflexivity | lia].
           ++ lia.
        -- destruct (Nat.eqb_spec j k); [lia | reflexivity].
    + injection Hstep as <-. split; [exact Hlen|]. split.
      * intros [|j] Hj.
        -- unfold padded_at in Hj. simpl in Hj.
           apply Z.eqb_eq in Hj. contradiction.
        -- specialize (Hrange j Hj). lia.
      * intros j. rewrite Hnth.
        destruct (Nat.leb_spec (S k) j); destruct (Nat.leb_spec k j);
          try lia; simpl.
        -- replace (j - k) with (S (j - S k)) by lia.
           unfold padded_at at 2. simpl. reflexivity.
        -- assert (j = k) by lia. subst j. rewrite Nat.sub_diag.
           unfold padded_at. simpl.
           destruct (Z.eqb_spec flag 0); [contradiction | reflexivity].
        -- reflexivity.
Qed.

Lemma mask_loop_Err (mask : list Z) (k : nat) (ids : list Z) (e : exn) :
  for_each mask_step (combine (seq k (length mask)) mask) ids = Err e ->
  e = IndexError.
Proof.
  revert k ids; induction mask as [|flag mask IH]; intros k ids H.
  - discriminate.
  - cbn [length seq combine for_each] in H.
    destruct (mask_step (k, flag) ids) as [ids1|e1] eqn:E; simpl in H.
    + eapply IH. exact H.
    + injection H as <-. unfold mask_step, list_assign in E.
      destruct (flag =? 0)%Z; [|discriminate].
      destruct (k <? length ids); [discriminate|]. congruence.
Qed.

(** X26. The mask loop writes -100 exactly over the label ids whose
    attention flag is 0 and keeps the others and the length; it raises
    [IndexError], and nothing else, when the attention mask has a 0 past
    the end of the label ids. *)
Theorem mask_unused_spec (attention_mask input_ids : list Z) :
  (forall r,
      mask_unused attention_mask input_ids = Ok r ->
      length r = length input_ids
      /\ forall j x,
           nth_error input_ids j = Some x ->
           nth_error r j
           = Some (if padded_at attention_mask j then (-100)%Z else x))
  /\ ((exists r, mask_unused attention_mask input_ids = Ok r)
      <-> forall j, padded_at attention_mask j = true ->
                    j < length input_ids)
  /\ (forall e, mask_unused attention_mask input_ids = Err e ->
                e = IndexError).
Proof.
  unfold mask_unused, enumerate. split; [|split].
  - intros r H. apply mask_loop in H as (Hlen & _ & Hnth).
    split; [exact Hlen|]. intros j x Hj. rewrite Hnth. simpl.
    rewrite Nat.sub_0_r, Hj.
    assert (j < length input_ids) by (apply nth_error_Some; congruence).
    destruct (padded_at attention_mask j); [|reflexivity].
    destruct (Nat.ltb_spec j (length input_ids)); [reflexivity | lia].
  - split.
    + intros [r H]. apply mask_loop in H as (_ & Hrange & _).
      intros j Hj. apply (Hrange j Hj).
    + intros Hrange.
      destruct (for_each mask_step
                  (combine (seq 0 (length attention_mask)) attention_mask)
                  input_ids) as [r|e] eqn:E; [eauto|].
      exfalso.
      assert (G : forall mask k ids,
                 (forall j, padded_at mask j = true -> k + j < length ids) ->
                 for_each mask_step (combine (seq k (length mask)) mask) ids
                 <> Err e).
      { clear. induction mask as [|flag mask IH]; intros k ids Hr;
          [discriminate|].
        cbn [length seq combine for_each]. unfold mask_step at 1.
        destruct (Z.eqb_spec flag 0) as [->|Hflag].
        - destruct (list_assign_spec ids k (-100)%Z) as [Hin _].
          destruct Hin as (l' & -> & Hl' & _).
          + pose proof (Hr 0 eq_refl). lia.
          + cbn [bind]. apply IH. intros j Hj. rewrite Hl'.
            pose proof (Hr (S j) Hj). lia.
        - cbn [bind]. apply IH. intros j Hj.
          pose proof (Hr (S j) Hj). lia. }
      apply (G attention_mask 0 input_ids); [|exact E].
      intros j Hj. apply (Hrange j Hj).
  - intros e. apply mask_loop_Err.
Qed.

Lemma mask_unused_spec_witness :
  (exists r, mask_unused [1; 1; 0; 0]%Z [5; 6; 7; 8]%Z = Ok r)
  /\ mask_unused [1; 0; 0]%Z [5; 6]%Z = Err IndexError.
Proof.
  split.
  - apply (proj1 (proj2 (mask_unused_spec [1; 1; 0; 0]%Z [5; 6; 7; 8]%Z))).
    intros j Hj. simpl.
    destruct j as [|[|[|[|j]]]]; try lia. destruct j; discriminate Hj.
  - destruct (mask_unused [1; 0; 0]%Z [5; 6]%Z) as [r|e] eqn:E.
    + vm_compute in E. discriminate E.
    + f_equal.
      apply (proj2 (proj2 (mask_unused_spec [1; 0; 0]%Z [5; 6]%Z)) e E).
Defined.

(** ** Examples and features built one by one *)

Lemma for_each_appends {A B} (R : A -> B -> Prop)
  (step : A -> list B -> result (list B)) (xs : list A) :
  (forall x acc r, step x acc = Ok r -> exists y, r = acc ++ [y] /\ R x y) ->
  forall acc r, for_each step xs acc = Ok r ->
                exists ys, r = acc ++ ys /\ Forall2 R xs ys.
Proof.
  intros Hstep. induction xs as [|x xs IH]; intros acc r H; simpl in H.
  - injection H as <-. exists []. rewrite app_nil_r. split; constructor.
  - apply bind_Ok_inv in H as (acc1 & Hx & H).
    apply Hstep in Hx as (y & -> & Hy).
    apply IH in H as (ys & -> & Hys).
    exists (y :: ys). rewrite <- app_assoc. split; [reflexivity|].
    constructor; assumption.
Qed.

(** X27. [convert_examples_to_features] makes one feature per example, in
    the order of the examples and with their ids; the input ids are the
    tokenizer's for the source tag and the marked words, and the labels are
    the tokenizer's label ids with -100 at the positions it padded. *)
Theorem features_of_examples
  (tokenizer : list pystr -> nat -> result Encoding)
  (max_seq_length max_out_length : nat) (language : pystr)
  (markers : list pystr) (exs : list EAEInputExample)
  (fs : list InputFeatures) :
  eae_convert_examples_to_features tokenizer max_seq_length max_out_length
    language markers exs = Ok fs ->
  map feature_example_id fs = map example_id exs
  /\ Forall2 (feature_of tokenizer max_seq_length max_out_length markers
                (pystr_eqb language English)) exs fs.
Proof.
  intros H. unfold eae_convert_examples_to_features in H.
  apply for_each_appends
    with (R := feature_of tokenizer max_seq_length max_out_length markers
                 (pystr_eqb language English)) in H.
  - destruct H as (ys & -> & Hys). simpl. split; [|exact Hys].
    induction Hys as [|ex f exs' fs' Hf _ IH]; [reflexivity|].
    simpl. rewrite IH. destruct Hf as [-> _]. reflexivity.
  - intros ex acc r Hstep. unfold eae_features_step in Hstep.
    apply bind_Ok_inv in Hstep as (words & Hw & Hstep).
    apply bind_Ok_inv in Hstep as (ic & Hic & Hstep).
    apply bind_Ok_inv in Hstep as (lbl & Hlbl & Hstep).
    injection Hstep as <-. eexists. split; [reflexivity|].
    unfold label_ids in Hlbl.
    apply bind_Ok_inv in Hlbl as (lo & Hlo & Hmask).
    unfold mask_unused, enumerate in Hmask.
    apply mask_loop in Hmask as (Hlen & _ & Hnth).
    split; [reflexivity|]. exists words, ic, lo. simpl.
    repeat split; try assumption.
    intros j x Hj. rewrite Hnth. simpl. rewrite Nat.sub_0_r, Hj.
    assert (j < length (input_ids lo))
      by (apply nth_error_Some; congruence).
    destruct (padded_at (attention_mask lo) j); [|reflexivity].
    destruct (Nat.ltb_spec j (length (input_ids lo))); [reflexivity | lia].
Qed.

Lemma features_of_examples_witness :
  exists fs,
    eae_convert_examples_to_features sample_tokenizer 8 6 English
      [str "<t>"; str "</t>"] [sample_example] = Ok fs
    /\ map feature_example_id fs = [0]
    /\ map feature_labels fs = [[1; 7; 4; 1; -100; -100]%Z].
Proof.
  eexists. split; [vm_compute; reflexivity|]. split; [|reflexivity].
  apply (features_of_examples sample_tokenizer 8 6 English
           [str "<t>"; str "</t>"] [sample_example]).
  vm_compute. reflexivity.
Defined.

(** ** The event-detection processor *)

Lemma map_fst_enumerate {A} (l : list A) :
  map fst (enumerate l) = seq 0 (length l).
Proof.
  unfold enumerate. generalize 0 as k.
  induction l as [|x l IH]; intros k; simpl;
    [reflexivity | rewrite IH; reflexivity].
Qed.

Lemma map_flat_map_ed (get_plain_label : pystr -> pystr) (evs : list Event) :
  ed_labels_of get_plain_label evs
  = encode (str " ") (ed_pairs get_plain_label evs).
Proof.
  unfold ed_labels_of, encode, ed_pairs.
  rewrite map_flat_map_pairs. f_equal.
  apply flat_map_ext. intros ev. rewrite map_map. reflexivity.
Qed.

(** X28. [read_examples] of the event-detection processor makes one example
    per line, with the number of the line as its id; a line with gold
    events gets the template of its triggers as labels and its source tag, a
    line without gets empty labels and no source tag. Nothing but a failure
    of [get_words] stops it. *)
Theorem ed_examples_of_lines
  (get_words : pystr -> pystr -> result (list pystr))
  (get_plain_label : pystr -> pystr) (language0 : pystr)
  (lines : list Document) :
  (forall st,
      ed_read_examples get_words get_plain_label language0 lines = Ok st ->
      map ed_example_id (ed_examples st) = seq 0 (length lines)
      /\ Forall2 (ed_example_of get_plain_label) (enumerate lines)
                 (ed_examples st))
  /\ ((forall item language,
          In item lines -> In language [language0; Chinese; English] ->
          exists words, get_words (text item) language = Ok words) ->
      exists st,
        ed_read_examples get_words get_plain_label language0 lines = Ok st).
Proof.
  split.
  - intros st H. unfold ed_read_examples in H.
    assert (G : forall ls s0 s1,
               for_each (ed_line get_words get_plain_label) ls s0 = Ok s1 ->
               exists ys, ed_examples s1 = ed_examples s0 ++ ys
                          /\ Forall2 (ed_example_of get_plain_label) ls ys).
    { induction ls as [|[i item] ls IH]; intros s0 s1 Hls; simpl in Hls.
      - injection Hls as <-. exists []. rewrite app_nil_r.
        split; constructor.
      - apply bind_Ok_inv in Hls as (s2 & Hl & Hls).
        apply IH in Hls as (ys & E & Hys).
        apply bind_Ok_inv in Hl as (words & _ & Hl). injection Hl as <-.
        simpl in E. eexists (_ :: ys). rewrite E, <- app_assoc.
        split; [reflexivity|]. constructor; [|exact Hys].
        unfold ed_example_of. simpl.
        destruct (events item) as [evs|]; simpl.
        + split; [reflexivity|]. split; [apply map_flat_map_ed|reflexivity].
        + repeat split. }
    apply G in H as (ys & E & Hys). simpl in E. subst ys.
    split; [|exact Hys].
    assert (M : forall (ls : list (nat * Document)) exs,
               Forall2 (ed_example_of get_plain_label) ls exs ->
               map ed_example_id exs = map fst ls).
    { induction 1 as [|l ex ls exs Hl _ IH]; [reflexivity|].
      simpl. rewrite IH. destruct Hl as [-> _]. reflexivity. }
    rewrite (M _ _ Hys). apply map_fst_enumerate.
  - intros Hw. unfold ed_read_examples.
    assert (G : forall ls s0,
               (forall line, In line ls -> In (snd line) lines) ->
               In (ed_language s0) [language0; Chinese; English] ->
               exists s1,
                 for_each (ed_line get_words get_plain_label) ls s0 = Ok s1).
    { induction ls as [|[i item] ls IH]; intros s0 Hin Hlang;
        [simpl; eauto|].
      cbn [for_each]. unfold ed_line at 1.
      assert (L : In match source item with
                     | Some src =>
                         if str_in src chinese_sources
                         then Chinese else English
                     | None => ed_language s0
                     end [language0; Chinese; English]).
      { destruct (source item) as [src|]; [|exact Hlang].
        destruct (str_in src chinese_sources); simpl; auto. }
      destruct (Hw item _ (Hin (i, item) (or_introl eq_refl)) L)
        as [words Ew].
      rewrite Ew. cbn [bind]. apply IH.
      - intros line Hl. apply Hin. right. exact Hl.
      - exact L. }
    apply G.
    + intros [i item] Hin. apply in_combine_r in Hin. exact Hin.
    + left. reflexivity.
Qed.

Lemma ed_examples_of_lines_witness :
  exists st,
    ed_read_examples sample_get_words (fun ty => ty) English
      [sample_doc; candidate_doc] = Ok st
    /\ map ed_example_id (ed_examples st) = [0; 1].
Proof.
  destruct (ed_examples_of_lines sample_get_words (fun ty => ty) English
              [sample_doc; candidate_doc]) as [H1 H2].
  destruct H2 as [st Hst].
  - intros item language Hin Hl.
    destruct Hl as [<-|[<-|[<-|[]]]]; eexists; reflexivity.
  - exists st. split; [exact Hst|]. apply (H1 st Hst).
Defined.

(** X29. The labels the event-detection processor writes decode to the
    triggers of the line: for types and trigger words in the decoder's
    normal form, the extractor returns the tuple of a type and a word
    exactly when an event of that type has a trigger with that word. *)
Theorem ed_labels_decode (get_plain_label : pystr -> pystr)
  (evs : list Event) (instance_id : Z) (event_type r v : pystr) :
  forallb clean_pair (ed_pairs get_plain_label evs) = true ->
  (In (instance_id, event_type, r, v)
      (extract_argument (ed_labels_of get_plain_label evs)
         instance_id event_type)
   <-> In (r, v) (ed_pairs get_plain_label evs)).
Proof.
  intros Hclean. rewrite map_flat_map_ed. unfold extract_argument, list_set.
  rewrite (decode_encode_list instance_id event_type (str " ")
             (or_introl eq_refl) _ Hclean).
  rewrite nodup_In, in_map_iff. split.
  - intros [[r' v'] [E H]]. simpl in E. injection E as -> ->. exact H.
  - intros H. exists (r, v). auto.
Qed.

Lemma ed_labels_decode_witness :
  In (0%Z, str "ED", str "Attack", str "hit")
     (extract_argument (ed_labels_of (fun ty => ty) [attack_event])
        0 (str "ED")).
Proof.
  apply (ed_labels_decode (fun ty => ty) [attack_event] 0 (str "ED")
           (str "Attack") (str "hit")); [reflexivity|].
  left. reflexivity.
Defined.

(** ** Positive and negative candidates of an instance *)

(** X30. In the instance of a positive trigger no mention is a candidate
    twice with two labels: with entity annotation no negative candidate has
    the mention id of a positive one, and without it no negative candidate
    shares a character with a positive mention. *)
Theorem negative_candidates_apart (item : Document) (trigger : Trigger)
  (negs : list Mention) :
  let pos := positive_candidates trigger in
  negative_candidates item (map (fun p => mention_id (snd p)) pos)
    (map (fun p => position (snd p)) pos) = Ok negs ->
  (entities item <> None ->
   forall n p, In n negs -> In p pos ->
               mention_id n <> mention_id (snd p))
  /\ (entities item = None ->
      forall n p, In n negs -> In p pos ->
                  spans_disjoint (position (snd p)) (position n)).
Proof.
  intros pos H.
  destruct (negative_candidates_spec item
              (map (fun p => mention_id (snd p)) pos)
              (map (fun p => position (snd p)) pos)) as [Hent Htrig].
  split.
  - intros He n p Hn Hp Heq.
    destruct (entities item) as [ents|] eqn:E; [|contradiction].
    destruct (Hent ents eq_refl) as (negs' & H' & Hspec).
    rewrite H in H'. injection H' as <-.
    apply Hspec in Hn as (entity & _ & Hm & Hnone).
    apply (Hnone n Hm). rewrite Heq.
    apply in_map_iff. exists p. auto.
  - intros He n p Hn Hp.
    unfold negative_candidates in H. rewrite He in H.
    destruct (negative_triggers item) as [triggers|] eqn:T; [|discriminate].
    destruct (Htrig triggers He eq_refl) as (negs' & H' & Hspec).
    unfold negative_candidates in H'. rewrite He, T in H'.
    rewrite H in H'. injection H' as <-.
    apply Hspec in Hn as [_ Hd]. apply Hd.
    apply in_map_iff. exists p. auto.
Qed.

Lemma negative_candidates_apart_witness :
  mention_id park <> mention_id (snd (str "Victim", john)).
Proof.
  apply (proj1 (negative_candidates_apart entity_doc attack_trigger [park]
                  eq_refl)).
  - discriminate.
  - left. reflexivity.
  - left. reflexivity.
Defined.
